(** * filament-glfw-imgui: the input pipeline and the ImGui draw translator

    A shallow embedding of
    - [src/filament_glfw_imgui/glfw_input.h] and [glfw_input_impl.h]
      (namespace [glfw_input]: [KeyboardState], [State], [Handler]), and
    - [src/filament_glfw_imgui/filament_imgui.h] and [filament_imgui_impl.h]
      (namespace [filament_imgui]: [Ui::UpdateView]),
    followed by the properties of the specification that concern them.

    Conventions.  A C++ integer is a [Z] whose wrap-around is written where the
    code converts or increments; a [double] or [float] is an IEEE 754 value of
    [SpecFloat.spec_float]; a [std::vector] is a [list]; a pointer that may be
    [nullptr] is an [option].  Calls into Filament are recorded, in order, in a
    trace of [EngineCall]s. *)

From Stdlib Require Import ZArith Lia Bool.
From Stdlib Require Import Floats.SpecFloat.
From stdpp Require Import base list.

Local Open Scope Z_scope.

(** ** Machine integers *)

Definition wrap_unsigned (w z : Z) : Z := z mod 2 ^ w.
Definition wrap_signed (w z : Z) : Z := (z + 2 ^ (w - 1)) mod 2 ^ w - 2 ^ (w - 1).

Definition to_uint64 : Z -> Z := wrap_unsigned 64.
Definition to_size_t : Z -> Z := wrap_unsigned 64.
Definition to_uint32 : Z -> Z := wrap_unsigned 32.
Definition to_uint16 : Z -> Z := wrap_unsigned 16.
Definition to_int64 : Z -> Z := wrap_signed 64.
Definition to_int32 : Z -> Z := wrap_signed 32.

Definition int32_range (z : Z) : Prop := - 2 ^ 31 <= z < 2 ^ 31.
Definition uint64_range (z : Z) : Prop := 0 <= z < 2 ^ 64.
Definition uint16_range (z : Z) : Prop := 0 <= z < 2 ^ 16.

(** ** IEEE 754 values *)

Definition double : Type := spec_float.
Definition kDoubleInf : double := S754_infinity false.
Definition double_zero : double := S754_zero false.
Definition double_sub : double -> double -> double := SFsub 53 1024.
(** C++ [a != b] on doubles: the negation of IEEE equality. *)
Definition double_ne (a b : double) : bool := negb (SFeqb a b).

(** ** Constants of GLFW/glfw3.h

    GLFW is the windowing library the repository is written against; these are
    the values of its public header. *)
Module GLFW.
Definition GLFW_RELEASE : Z := 0.
Definition GLFW_PRESS : Z := 1.
Definition GLFW_REPEAT : Z := 2.

Definition GLFW_KEY_CAPS_LOCK : Z := 280.
Definition GLFW_KEY_NUM_LOCK : Z := 282.
Definition GLFW_KEY_LEFT_SHIFT : Z := 340.
Definition GLFW_KEY_LEFT_CONTROL : Z := 341.
Definition GLFW_KEY_LEFT_ALT : Z := 342.
Definition GLFW_KEY_LEFT_SUPER : Z := 343.
Definition GLFW_KEY_RIGHT_SHIFT : Z := 344.
Definition GLFW_KEY_RIGHT_CONTROL : Z := 345.
Definition GLFW_KEY_RIGHT_ALT : Z := 346.
Definition GLFW_KEY_RIGHT_SUPER : Z := 347.
Definition GLFW_KEY_MENU : Z := 348.
Definition GLFW_KEY_LAST : Z := GLFW_KEY_MENU.

Definition GLFW_MOD_SHIFT : Z := 1.
Definition GLFW_MOD_CONTROL : Z := 2.
Definition GLFW_MOD_ALT : Z := 4.
Definition GLFW_MOD_SUPER : Z := 8.
Definition GLFW_MOD_CAPS_LOCK : Z := 16.
Definition GLFW_MOD_NUM_LOCK : Z := 32.
End GLFW.
Import GLFW.

(** [GLFWwindow*]: an opaque handle. *)
Definition GLFWwindow : Type := Z.

(** ** glfw_input: bit masks *)

(** [MouseButtonMask] and [ModKeyMask] are structs of one [int value]. *)
Definition HasBits (mask bits : Z) : bool := Z.land mask bits =? bits.
Definition SetBits (mask bits : Z) : Z := Z.lor mask bits.
Definition ClearBits (mask bits : Z) : Z := Z.land mask (Z.lnot bits).

(** [1 << glfw_mouse_button] on [int].  GLFW reports buttons 0..7; the shift is
    undefined in C++ for a count outside 0..31, where this function yields 0:
    the checked variants below say where it stands for the code. *)
Definition ButtonToBits (glfw_mouse_button : Z) : Z :=
  to_int32 (Z.shiftl 1 glfw_mouse_button).
Definition HasGlfwButton (mask glfw_mouse_button : Z) : bool :=
  HasBits mask (ButtonToBits glfw_mouse_button).

(** The same two functions with the shift count checked: [None] stands for a
    count outside 0..31, for which [1 << glfw_mouse_button] is undefined. *)
Definition ButtonToBits_checked (glfw_mouse_button : Z) : option Z :=
  if (0 <=? glfw_mouse_button) && (glfw_mouse_button <=? 31)
  then Some (to_int32 (Z.shiftl 1 glfw_mouse_button))
  else None.
Definition HasGlfwButton_checked (mask glfw_mouse_button : Z) : option bool :=
  HasBits mask <$> ButtonToBits_checked glfw_mouse_button.

(** ** glfw_input::Event *)

Definition kNone : Z := 0.
Definition kFocus : Z := 1.
Definition kEnter : Z := 2.
Definition kCursorPos : Z := 4.
Definition kMouseButton : Z := 8.
Definition kScroll : Z := 16.
Definition kKey : Z := 32.
Definition kChar : Z := 64.

Record CursorPos := {
  cp_x : double; cp_y : double;
  cp_xoffset : double; cp_yoffset : double;
  cp_buttons : Z; cp_mods : Z }.

Record MouseButton := { mb_button : Z; mb_action : Z; mb_mods : Z }.
Record Scroll := { sc_xoffset : double; sc_yoffset : double; sc_mods : Z }.
Record Key := { k_key : Z; k_scancode : Z; k_action : Z; k_mods : Z }.

(** The anonymous union of [Event], one constructor per member ([e.focused],
    [e.entered], [e.cursor_pos], ...). *)
Inductive EventData :=
| e_focused (v : Z)
| e_entered (v : Z)
| e_cursor_pos (v : CursorPos)
| e_mouse_button (v : MouseButton)
| e_scroll (v : Scroll)
| e_key (v : Key)
| e_charval (v : Z).

Record Event := {
  type : Z;
  window : GLFWwindow;
  child_wants_capture : bool;
  data : EventData }.

(** ** glfw_input::KeyboardState *)

Record KeyboardState := { pressed_event_index_ : list Z }.

(** [KeyboardState(int32_t max_key) : pressed_event_index_(max_key + 1)].  The
    sum is an [int32_t] and overflows, which C++ leaves undefined, for
    [INT32_MAX]; a negative sum becomes, as the [size_t] the vector takes, a
    size no vector can have.  [None] stands for both, and for a [max_key]
    that is no [int32_t].  Running out of memory is not modelled. *)
Definition KeyboardState_new (max_key : Z) : option KeyboardState :=
  if (-1 <=? max_key) && (max_key <? 2 ^ 31 - 1)
  then Some {| pressed_event_index_ := replicate (Z.to_nat (max_key + 1)) 0 |}
  else None.

(** [pressed_event_index_.size()]. *)
Definition size (ks : KeyboardState) : Z := Z.of_nat (length (pressed_event_index_ ks)).

(** [v[i]] for a [size_t] index within the vector. *)
Definition vector_get (v : list Z) (i : Z) : Z := default 0 (v !! Z.to_nat i).

(** [key < pressed_event_index_.size()]: [key] is an [int32_t] and [size()] a
    [size_t], so the comparison converts [key] to [size_t]. *)
Definition key_lt_size (ks : KeyboardState) (key : Z) : bool := to_size_t key <? size ks.

Definition PressedEventIndex (ks : KeyboardState) (key : Z) : Z :=
  if key_lt_size ks key
  then to_int64 (vector_get (pressed_event_index_ ks) (to_size_t key))
  else 0.

Definition IsPressed (ks : KeyboardState) (key : Z) : bool :=
  negb (PressedEventIndex ks key =? 0).

Definition SetKeyEventIndex (ks : KeyboardState) (key event_index : Z) : KeyboardState :=
  if key_lt_size ks key
  then {| pressed_event_index_ :=
            <[Z.to_nat (to_size_t key) := event_index]> (pressed_event_index_ ks) |}
  else ks.

(** [Axis] keeps both indices in an [int]. *)
Definition Axis (ks : KeyboardState) (key_minus key_plus : Z) : Z :=
  let state_minus := to_int32 (PressedEventIndex ks key_minus) in
  let state_plus := to_int32 (PressedEventIndex ks key_plus) in
  if state_minus >? state_plus then -1
  else if state_plus >? state_minus then 1
  else 0.

(** The same two accessors with the vector access checked: [None] stands for
    an access outside the vector. *)
Definition PressedEventIndex_checked (ks : KeyboardState) (key : Z) : option Z :=
  if key_lt_size ks key
  then to_int64 <$> pressed_event_index_ ks !! Z.to_nat (to_size_t key)
  else Some 0.

Definition SetKeyEventIndex_checked (ks : KeyboardState) (key event_index : Z)
  : option KeyboardState :=
  if key_lt_size ks key
  then if decide (Z.to_nat (to_size_t key) < length (pressed_event_index_ ks))%nat
       then Some {| pressed_event_index_ :=
                      <[Z.to_nat (to_size_t key) := event_index]> (pressed_event_index_ ks) |}
       else None
  else Some ks.

Definition IsPressed_checked (ks : KeyboardState) (key : Z) : option bool :=
  (fun index => negb (index =? 0)) <$> PressedEventIndex_checked ks key.

Definition Axis_checked (ks : KeyboardState) (key_minus key_plus : Z) : option Z :=
  match PressedEventIndex_checked ks key_minus, PressedEventIndex_checked ks key_plus with
  | Some index_minus, Some index_plus =>
      let state_minus := to_int32 index_minus in
      let state_plus := to_int32 index_plus in
      Some (if state_minus >? state_plus then -1
            else if state_plus >? state_minus then 1
            else 0)
  | _, _ => None
  end.

(** ** glfw_input::State *)

Record State := {
  event_index : Z;
  events : list Event;
  keys : KeyboardState;
  all_events : list Event;
  all_keys : KeyboardState;
  mod_keys : Z;
  mouse_x : double;
  mouse_y : double;
  mouse_buttons : Z }.

(** [State() : keys(GLFW_KEY_LAST), all_keys(GLFW_KEY_LAST)]: the constructor
    of [KeyboardState] is defined for [GLFW_KEY_LAST]. *)
Definition KeyboardState_GLFW_KEY_LAST : is_Some (KeyboardState_new GLFW_KEY_LAST) :=
  ex_intro _ _ eq_refl.

Definition State_new : State := {|
  event_index := 0;
  events := [];
  keys := is_Some_proj KeyboardState_GLFW_KEY_LAST;
  all_events := [];
  all_keys := is_Some_proj KeyboardState_GLFW_KEY_LAST;
  mod_keys := 0;
  mouse_x := kDoubleInf;
  mouse_y := kDoubleInf;
  mouse_buttons := 0 |}.

Definition set_event_index (s : State) (v : Z) : State :=
  {| event_index := v; events := events s; keys := keys s;
     all_events := all_events s; all_keys := all_keys s; mod_keys := mod_keys s;
     mouse_x := mouse_x s; mouse_y := mouse_y s; mouse_buttons := mouse_buttons s |}.
Definition set_events (s : State) (v : list Event) : State :=
  {| event_index := event_index s; events := v; keys := keys s;
     all_events := all_events s; all_keys := all_keys s; mod_keys := mod_keys s;
     mouse_x := mouse_x s; mouse_y := mouse_y s; mouse_buttons := mouse_buttons s |}.
Definition set_keys (s : State) (v : KeyboardState) : State :=
  {| event_index := event_index s; events := events s; keys := v;
     all_events := all_events s; all_keys := all_keys s; mod_keys := mod_keys s;
     mouse_x := mouse_x s; mouse_y := mouse_y s; mouse_buttons := mouse_buttons s |}.
Definition set_all_events (s : State) (v : list Event) : State :=
  {| event_index := event_index s; events := events s; keys := keys s;
     all_events := v; all_keys := all_keys s; mod_keys := mod_keys s;
     mouse_x := mouse_x s; mouse_y := mouse_y s; mouse_buttons := mouse_buttons s |}.
Definition set_all_keys (s : State) (v : KeyboardState) : State :=
  {| event_index := event_index s; events := events s; keys := keys s;
     all_events := all_events s; all_keys := v; mod_keys := mod_keys s;
     mouse_x := mouse_x s; mouse_y := mouse_y s; mouse_buttons := mouse_buttons s |}.
Definition set_mod_keys (s : State) (v : Z) : State :=
  {| event_index := event_index s; events := events s; keys := keys s;
     all_events := all_events s; all_keys := all_keys s; mod_keys := v;
     mouse_x := mouse_x s; mouse_y := mouse_y s; mouse_buttons := mouse_buttons s |}.
Definition set_mouse (s : State) (x y : double) : State :=
  {| event_index := event_index s; events := events s; keys := keys s;
     all_events := all_events s; all_keys := all_keys s; mod_keys := mod_keys s;
     mouse_x := x; mouse_y := y; mouse_buttons := mouse_buttons s |}.
Definition set_mouse_buttons (s : State) (v : Z) : State :=
  {| event_index := event_index s; events := events s; keys := keys s;
     all_events := all_events s; all_keys := all_keys s; mod_keys := mod_keys s;
     mouse_x := mouse_x s; mouse_y := mouse_y s; mouse_buttons := v |}.

(** [++state_.event_index] on a [uint64_t]. *)
Definition incr_event_index (s : State) : State :=
  set_event_index s (to_uint64 (event_index s + 1)).

(** [if (!child_wants_capture) state_.events.push_back(e);
     state_.all_events.push_back(e);] *)
Definition push_event (s : State) (e : Event) : State :=
  let s := if negb (child_wants_capture e) then set_events s (events s ++ [e]) else s in
  set_all_events s (all_events s ++ [e]).

(** ** Child handlers

    [Handler<Child>] forwards every callback to its [Child] first and reads the
    child's answer.  A child is any type with these eight members; its own
    state is threaded explicitly. *)
Class ChildHandler (C : Type) := {
  child_ClearEvents : C -> C;
  child_OnGlfwWindowFocus : C -> GLFWwindow -> Z -> C * bool;
  child_OnGlfwCursorEnter : C -> GLFWwindow -> Z -> C * bool;
  child_OnGlfwCursorPos : C -> GLFWwindow -> double -> double -> C * bool;
  child_OnGlfwMouseButton : C -> GLFWwindow -> Z -> Z -> Z -> C * bool;
  child_OnGlfwScroll : C -> GLFWwindow -> double -> double -> C * bool;
  child_OnGlfwKey : C -> GLFWwindow -> Z -> Z -> Z -> Z -> C * bool;
  child_OnGlfwChar : C -> GLFWwindow -> Z -> C * bool }.

(** [class NoOpHandler]: no state, never captures. *)
Inductive NoOpHandler := NoOp.

#[export] Instance NoOpHandler_child : ChildHandler NoOpHandler := {|
  child_ClearEvents c := c;
  child_OnGlfwWindowFocus c _ _ := (c, false);
  child_OnGlfwCursorEnter c _ _ := (c, false);
  child_OnGlfwCursorPos c _ _ _ := (c, false);
  child_OnGlfwMouseButton c _ _ _ _ := (c, false);
  child_OnGlfwScroll c _ _ _ := (c, false);
  child_OnGlfwKey c _ _ _ _ _ := (c, false);
  child_OnGlfwChar c _ _ := (c, false) |}.

(** [class ToImGui] (glfw_input_imgui.h) hands each callback to the ImGui GLFW
    backend and answers with [ImGui::GetIO().WantCaptureMouse] (focus, enter,
    cursor position, mouse button, scroll) or [WantCaptureKeyboard] (key,
    char).  ImGui is external and the two flags are its own state, which it
    recomputes in [ImGui::NewFrame]: they are carried here as the state of the
    child, read by the callbacks and left as they are. *)
Record ToImGui := { WantCaptureMouse : bool; WantCaptureKeyboard : bool }.

#[export] Instance ToImGui_child : ChildHandler ToImGui := {|
  child_ClearEvents c := c;
  child_OnGlfwWindowFocus c _ _ := (c, WantCaptureMouse c);
  child_OnGlfwCursorEnter c _ _ := (c, WantCaptureMouse c);
  child_OnGlfwCursorPos c _ _ _ := (c, WantCaptureMouse c);
  child_OnGlfwMouseButton c _ _ _ _ := (c, WantCaptureMouse c);
  child_OnGlfwScroll c _ _ _ := (c, WantCaptureMouse c);
  child_OnGlfwKey c _ _ _ _ _ := (c, WantCaptureKeyboard c);
  child_OnGlfwChar c _ _ := (c, WantCaptureKeyboard c) |}.

(** ** glfw_input::Handler *)

Record Handler (C : Type) := mkHandler { child_ : C; state_ : State }.
Arguments mkHandler {C} _ _.
Arguments child_ {C} _.
Arguments state_ {C} _.

Section Handler.
Context {C : Type} `{ChildHandler C}.

(** [Handler(Child&& child)]: the state starts as [State()]. *)
Definition Handler_new (child : C) : Handler C := mkHandler child State_new.

Definition ClearEvents (h : Handler C) : Handler C :=
  let child := child_ClearEvents (child_ h) in
  let s := set_events (state_ h) [] in
  let s := set_all_events s [] in
  mkHandler child s.

Definition OnGlfwWindowFocus (h : Handler C) (window : GLFWwindow) (focused : Z)
  : Handler C * bool :=
  let '(child, child_wants_capture) := child_OnGlfwWindowFocus (child_ h) window focused in
  let s := incr_event_index (state_ h) in
  let s := if negb (focused =? 0) then set_mouse s kDoubleInf kDoubleInf else s in
  let e := {| type := kFocus; window := window;
              child_wants_capture := child_wants_capture;
              data := e_focused focused |} in
  (mkHandler child (push_event s e), child_wants_capture).

Definition OnGlfwCursorEnter (h : Handler C) (window : GLFWwindow) (entered : Z)
  : Handler C * bool :=
  let '(child, child_wants_capture) := child_OnGlfwCursorEnter (child_ h) window entered in
  let s := incr_event_index (state_ h) in
  let e := {| type := kEnter; window := window;
              child_wants_capture := child_wants_capture;
              data := e_entered entered |} in
  (mkHandler child (push_event s e), child_wants_capture).

Definition OnGlfwCursorPos (h : Handler C) (window : GLFWwindow) (x y : double)
  : Handler C * bool :=
  let '(child, child_wants_capture) := child_OnGlfwCursorPos (child_ h) window x y in
  let s := incr_event_index (state_ h) in
  let '(xoffset, yoffset) :=
    if double_ne (mouse_x s) kDoubleInf && double_ne (mouse_y s) kDoubleInf
    then (double_sub x (mouse_x s), double_sub y (mouse_y s))
    else (double_zero, double_zero) in
  let s := set_mouse s x y in
  let e := {| type := kCursorPos; window := window;
              child_wants_capture := child_wants_capture;
              data := e_cursor_pos
                {| cp_x := x; cp_y := y; cp_xoffset := xoffset; cp_yoffset := yoffset;
                   cp_buttons := mouse_buttons s; cp_mods := mod_keys s |} |} in
  (mkHandler child (push_event s e), child_wants_capture).

Definition OnGlfwMouseButton (h : Handler C) (window : GLFWwindow) (button action mods : Z)
  : Handler C * bool :=
  let '(child, child_wants_capture) :=
    child_OnGlfwMouseButton (child_ h) window button action mods in
  let s := incr_event_index (state_ h) in
  let s :=
    if action =? GLFW_PRESS
    then set_mouse_buttons s (SetBits (mouse_buttons s) (ButtonToBits button))
    else if action =? GLFW_RELEASE
    then set_mouse_buttons s (ClearBits (mouse_buttons s) (ButtonToBits button))
    else s in
  let e := {| type := kMouseButton; window := window;
              child_wants_capture := child_wants_capture;
              data := e_mouse_button
                {| mb_button := button; mb_action := action; mb_mods := mod_keys s |} |} in
  (mkHandler child (push_event s e), child_wants_capture).

Definition OnGlfwScroll (h : Handler C) (window : GLFWwindow) (xoffset yoffset : double)
  : Handler C * bool :=
  let '(child, child_wants_capture) := child_OnGlfwScroll (child_ h) window xoffset yoffset in
  let s := incr_event_index (state_ h) in
  let e := {| type := kScroll; window := window;
              child_wants_capture := child_wants_capture;
              data := e_scroll
                {| sc_xoffset := xoffset; sc_yoffset := yoffset; sc_mods := mod_keys s |} |} in
  (mkHandler child (push_event s e), child_wants_capture).

(** One [case] body of the [switch (key)] in [OnGlfwKey]: two independent
    [if]s. *)
Definition track_mod (s : State) (action bits : Z) : State :=
  let s := if action =? GLFW_PRESS then set_mod_keys s (SetBits (mod_keys s) bits) else s in
  if action =? GLFW_RELEASE then set_mod_keys s (ClearBits (mod_keys s) bits) else s.

Definition is_one_of (key a b : Z) : bool := (key =? a) || (key =? b).

(** The [switch (key)] of [OnGlfwKey]. *)
Definition track_mod_keys (s : State) (key action : Z) : State :=
  if is_one_of key GLFW_KEY_LEFT_SHIFT GLFW_KEY_RIGHT_SHIFT
  then track_mod s action GLFW_MOD_SHIFT
  else if is_one_of key GLFW_KEY_LEFT_CONTROL GLFW_KEY_RIGHT_CONTROL
  then track_mod s action GLFW_MOD_CONTROL
  else if is_one_of key GLFW_KEY_LEFT_ALT GLFW_KEY_RIGHT_ALT
  then track_mod s action GLFW_MOD_ALT
  else if is_one_of key GLFW_KEY_LEFT_SUPER GLFW_KEY_RIGHT_SUPER
  then track_mod s action GLFW_MOD_SUPER
  else if key =? GLFW_KEY_NUM_LOCK
  then track_mod s action GLFW_MOD_NUM_LOCK
  else if key =? GLFW_KEY_CAPS_LOCK
  then track_mod s action GLFW_MOD_CAPS_LOCK
  else s.

(** [SetKeyEventIndex] as [OnGlfwKey] calls it, on either table. *)
Definition stamp_key (ks : KeyboardState) (key action event_index : Z) : KeyboardState :=
  if action =? GLFW_PRESS then SetKeyEventIndex ks key event_index
  else if action =? GLFW_RELEASE then SetKeyEventIndex ks key 0
  else ks.

Definition OnGlfwKey (h : Handler C) (window : GLFWwindow) (key scancode action mods : Z)
  : Handler C * bool :=
  let '(child, child_wants_capture) :=
    child_OnGlfwKey (child_ h) window key scancode action mods in
  let s := incr_event_index (state_ h) in
  let s := track_mod_keys s key action in
  let e := {| type := kKey; window := window;
              child_wants_capture := child_wants_capture;
              data := e_key
                {| k_key := key; k_scancode := scancode; k_action := action;
                   k_mods := mod_keys s |} |} in
  let s :=
    if negb child_wants_capture
    then
      let s := set_keys s (stamp_key (keys s) key action (event_index s)) in
      set_events s (events s ++ [e])
    else s in
  let s := set_all_keys s (stamp_key (all_keys s) key action (event_index s)) in
  let s := set_all_events s (all_events s ++ [e]) in
  (mkHandler child s, child_wants_capture).

Definition OnGlfwChar (h : Handler C) (window : GLFWwindow) (c : Z)
  : Handler C * bool :=
  let '(child, child_wants_capture) := child_OnGlfwChar (child_ h) window c in
  let s := incr_event_index (state_ h) in
  let e := {| type := kChar; window := window;
              child_wants_capture := child_wants_capture;
              data := e_charval c |} in
  (mkHandler child (push_event s e), child_wants_capture).

(** *** The callbacks with their partial operations checked

    The operations of the handler that C++ leaves undefined for some operands
    are the accesses to the key tables and the shift of the button mask: the
    counter is unsigned, so [++] wraps, and the event lists grow by
    [push_back], which fails only when memory runs out, and that is not
    modelled.  The two callbacks that use them are written again, with [None]
    where such an operation is undefined. *)
Definition stamp_key_checked (ks : KeyboardState) (key action event_index : Z)
  : option KeyboardState :=
  if action =? GLFW_PRESS then SetKeyEventIndex_checked ks key event_index
  else if action =? GLFW_RELEASE then SetKeyEventIndex_checked ks key 0
  else Some ks.

Definition OnGlfwMouseButton_checked (h : Handler C) (window : GLFWwindow)
    (button action mods : Z) : option (Handler C * bool) :=
  let '(child, child_wants_capture) :=
    child_OnGlfwMouseButton (child_ h) window button action mods in
  let s := incr_event_index (state_ h) in
  match (if action =? GLFW_PRESS
         then (fun bits => set_mouse_buttons s (SetBits (mouse_buttons s) bits))
                <$> ButtonToBits_checked button
         else if action =? GLFW_RELEASE
         then (fun bits => set_mouse_buttons s (ClearBits (mouse_buttons s) bits))
                <$> ButtonToBits_checked button
         else Some s) with
  | None => None
  | Some s =>
      let e := {| type := kMouseButton; window := window;
                  child_wants_capture := child_wants_capture;
                  data := e_mouse_button
                    {| mb_button := button; mb_action := action;
                       mb_mods := mod_keys s |} |} in
      Some (mkHandler child (push_event s e), child_wants_capture)
  end.

Definition OnGlfwKey_checked (h : Handler C) (window : GLFWwindow)
    (key scancode action mods : Z) : option (Handler C * bool) :=
  let '(child, child_wants_capture) :=
    child_OnGlfwKey (child_ h) window key scancode action mods in
  let s := incr_event_index (state_ h) in
  let s := track_mod_keys s key action in
  let e := {| type := kKey; window := window;
              child_wants_capture := child_wants_capture;
              data := e_key
                {| k_key := key; k_scancode := scancode; k_action := action;
                   k_mods := mod_keys s |} |} in
  match (if negb child_wants_capture
         then (fun ks => let s := set_keys s ks in set_events s (events s ++ [e]))
                <$> stamp_key_checked (keys s) key action (event_index s)
         else Some s) with
  | None => None
  | Some s =>
      match stamp_key_checked (all_keys s) key action (event_index s) with
      | None => None
      | Some ks =>
          let s := set_all_keys s ks in
          let s := set_all_events s (all_events s ++ [e]) in
          Some (mkHandler child s, child_wants_capture)
      end
  end.

(** *** Sequences of calls

    The raw callbacks GLFW delivers (the seven functions attached by
    [GlfwAttachInputCallbacksAndSetWindowUserPointer]), as data. *)
Inductive Callback :=
| WindowFocus (window : GLFWwindow) (focused : Z)
| CursorEnter (window : GLFWwindow) (entered : Z)
| CursorPosition (window : GLFWwindow) (x y : double)
| MouseButtonAction (window : GLFWwindow) (button action mods : Z)
| ScrollBy (window : GLFWwindow) (xoffset yoffset : double)
| KeyAction (window : GLFWwindow) (key scancode action mods : Z)
| CharInput (window : GLFWwindow) (c : Z).

Definition dispatch (h : Handler C) (cb : Callback) : Handler C * bool :=
  match cb with
  | WindowFocus w f => OnGlfwWindowFocus h w f
  | CursorEnter w e => OnGlfwCursorEnter h w e
  | CursorPosition w x y => OnGlfwCursorPos h w x y
  | MouseButtonAction w b a m => OnGlfwMouseButton h w b a m
  | ScrollBy w x y => OnGlfwScroll h w x y
  | KeyAction w k sc a m => OnGlfwKey h w k sc a m
  | CharInput w c => OnGlfwChar h w c
  end.

(** What the application does with a handler between frames. *)
Inductive Op :=
| Deliver (cb : Callback)
| Clear.

Definition apply_op (h : Handler C) (op : Op) : Handler C :=
  match op with
  | Deliver cb => fst (dispatch h cb)
  | Clear => ClearEvents h
  end.

Definition run (h : Handler C) (ops : list Op) : Handler C := foldl apply_op h ops.

Definition is_callback (op : Op) : bool :=
  match op with Deliver _ => true | Clear => false end.

(** The number of raw callbacks among [ops]. *)
Definition callbacks (ops : list Op) : Z := Z.of_nat (length (filter is_callback ops)).

(** The same with the partial operations checked. *)
Definition dispatch_checked (h : Handler C) (cb : Callback) : option (Handler C * bool) :=
  match cb with
  | WindowFocus w f => Some (OnGlfwWindowFocus h w f)
  | CursorEnter w e => Some (OnGlfwCursorEnter h w e)
  | CursorPosition w x y => Some (OnGlfwCursorPos h w x y)
  | MouseButtonAction w b a m => OnGlfwMouseButton_checked h w b a m
  | ScrollBy w x y => Some (OnGlfwScroll h w x y)
  | KeyAction w k sc a m => OnGlfwKey_checked h w k sc a m
  | CharInput w c => Some (OnGlfwChar h w c)
  end.

Definition apply_op_checked (h : Handler C) (op : Op) : option (Handler C) :=
  match op with
  | Deliver cb => fst <$> dispatch_checked h cb
  | Clear => Some (ClearEvents h)
  end.

Fixpoint run_checked (h : Handler C) (ops : list Op) : option (Handler C) :=
  match ops with
  | [] => Some h
  | op :: rest =>
      match apply_op_checked h op with
      | Some h => run_checked h rest
      | None => None
      end
  end.

(** The toplevel callbacks of glfw_input.h, which GLFW calls: each takes the
    handler from [glfwGetWindowUserPointer(window)], which is [nullptr]
    unless it was set, and calls the handler's method through it. *)
Definition toplevel_callback (user_pointer : option (Handler C)) (cb : Callback)
  : option (Handler C) :=
  match user_pointer with
  | None => None
  | Some h => fst <$> dispatch_checked h cb
  end.

Inductive reachable : Handler C -> Prop :=
| reachable_new child : reachable (Handler_new child)
| reachable_op h op : reachable h -> reachable (apply_op h op).

End Handler.

(** ** filament_imgui: the data ImGui hands over

    ImGui's [ImVec2]/[ImVec4] hold [float]s, [ImDrawIdx] is the 16-bit
    [unsigned short] ([CreateIndexBuffer] declares [IndexType::USHORT]), and an
    [ImVector]'s [Size] is the length of its [Data]. *)

Definition float : Type := spec_float.
Definition float_zero : float := S754_zero false.
Definition float_mul : float -> float -> float := SFmul 24 128.
(** C++ [a == b] on floats. *)
Definition float_eq (a b : float) : bool := SFeqb a b.

(** [int n = f]: truncation towards zero.  The conversion is undefined in C++
    for a NaN, an infinity or a value outside [int]; the model gives [INT_MIN]
    there, as the x86 conversion instruction does. *)
Definition float_to_int (f : float) : Z :=
  match f with
  | S754_zero _ => 0
  | S754_finite s m e =>
      let magnitude := if 0 <=? e then Z.pos m * 2 ^ e else Z.pos m / 2 ^ (- e) in
      let v := if s then - magnitude else magnitude in
      if (- 2 ^ 31 <=? v) && (v <? 2 ^ 31) then v else - 2 ^ 31
  | _ => - 2 ^ 31
  end.

Record ImVec2 := { x : float; y : float }.
Record ImVec4 := { v4_x : float; v4_y : float; v4_z : float; v4_w : float }.

Record ImDrawVert := { pos : ImVec2; uv : ImVec2; col : Z }.

(** A value-initialised [ImDrawVert], what [vector::resize] appends. *)
Definition ImDrawVert_zero : ImDrawVert :=
  {| pos := {| x := float_zero; y := float_zero |};
     uv := {| x := float_zero; y := float_zero |};
     col := 0 |}.

Abbreviation ImDrawIdx := Z (only parsing).

(** [ImTextureID] and [ImDrawCallback] are pointers: [None] is [nullptr];
    [IdxOffset] and [ElemCount] are [unsigned int]s. *)
Record ImDrawCmd := {
  ClipRect : ImVec4;
  TextureId : option Z;
  IdxOffset : Z;
  ElemCount : Z;
  UserCallback : option Z }.

Record ImDrawList := {
  CmdBuffer : list ImDrawCmd;
  IdxBuffer : list ImDrawIdx;
  VtxBuffer : list ImDrawVert }.

Record ImDrawData := {
  CmdListsCount : Z;
  TotalIdxCount : Z;
  TotalVtxCount : Z;
  CmdLists : list ImDrawList }.

Record ImGuiIO := {
  DisplaySize : ImVec2;
  DisplayFramebufferScale : ImVec2;
  Fonts_IsBuilt : bool }.

(** ** filament_imgui: calls into Filament

    Filament is external.  Every call [UpdateView] makes on the engine, or on
    an object the engine owns, is recorded in the order it is made. *)

(** The arguments of one [renderable_builder.geometry(...).blendOrder(...)
    .material(...)] chain, as the builder receives them: the offset
    [cmd.IdxOffset + i_ind] is a sum in [unsigned int], and the blend order is
    taken as a [uint16_t]. *)
Record DrawBatch := {
  batch_index : Z;
  batch_offset : Z;
  batch_count : Z;
  batch_blend_order : Z;
  batch_material : Z }.

Inductive EngineCall :=
| setViewport (width height : Z)
| setProjection (right bottom : float)
| destroyRenderable
| printFontsNotBuilt
| waitAndDestroyFence
| destroyVertexBuffer (old : option Z)
| createVertexBuffer (vertex_count : Z)
| destroyIndexBuffer (old : option Z)
| createIndexBuffer (index_count : Z)
| createInstance
| callUserCallback (callback : Z)
| SetScissor (clip_rect : ImVec4) (height_px : Z) (material_instance : Z)
| setParameter_albedo (material_instance : Z) (texture : option Z)
| buildRenderable (count : Z) (batches : list DrawBatch)
| setBufferAt (vertices : list ImDrawVert)
| setBuffer (indices : list ImDrawIdx).

(** ** filament_imgui::Ui

    The members [UpdateView] reads or writes.  [engine_] and [material_] are
    kept as "is not [nullptr]"; a GPU buffer is kept as the count it was built
    with ([getVertexCount()], [getIndexCount()]); a material instance as the
    rank at which it entered the pool. *)
Record Ui := {
  engine_ : bool;
  material_ : bool;
  vertex_buffer_ : option Z;
  index_buffer_ : option Z;
  material_instances_ : list Z;
  vertex_data_ : list ImDrawVert;
  index_data_ : list ImDrawIdx }.

(** [Ui()] and [Ui(engine, material)]. *)
Definition Ui_new (engine material : bool) : Ui :=
  {| engine_ := engine; material_ := material;
     vertex_buffer_ := None; index_buffer_ := None;
     material_instances_ := [];
     vertex_data_ := []; index_data_ := [] |}.

(** [v.resize(n)]: keeps the first [n] elements and pads with [d]. *)
Definition resize {A} (d : A) (n : Z) (v : list A) : list A :=
  take (Z.to_nat n) v ++ replicate (Z.to_nat n - length v)%nat d.

(** [std::memcpy(dst.data() + off, src, |src| * sizeof)] into a vector: [None]
    when the copy would run past the end of [dst]. *)
Definition memcpy_at {A} (dst : list A) (off : Z) (src : list A) : option (list A) :=
  if (0 <=? off) && (off + Z.of_nat (length src) <=? Z.of_nat (length dst))
  then Some (take (Z.to_nat off) dst ++ src ++ drop (Z.to_nat off + length src)%nat dst)
  else None.

(** [v[i] = a]: [None] when [i] is outside [v]. *)
Definition store_at {A} (v : list A) (i : Z) (a : A) : option (list A) :=
  if (0 <=? i) && (i <? Z.of_nat (length v))
  then Some (<[Z.to_nat i := a]> v)
  else None.

(** [for (int i = 0; i < num_inds; ++i)
       index_data_[i_ind + i] = draw_list.IdxBuffer.Data[i] + i_vert;]
    with [i] the position reached and [src] the indices still to rewrite.  The
    sum is an [int] and the element an [ImDrawIdx]. *)
Fixpoint rewrite_indices (index_data : list ImDrawIdx) (i_ind i_vert i : Z)
    (src : list ImDrawIdx) : option (list ImDrawIdx) :=
  match src with
  | [] => Some index_data
  | idx :: rest =>
      match store_at index_data (i_ind + i) (to_uint16 (idx + i_vert)) with
      | Some index_data => rewrite_indices index_data i_ind i_vert (i + 1) rest
      | None => None
      end
  end.

(** The locals of the "Create renderables" loop, with what it has emitted. *)
Record Frame := {
  f_vertex_data : list ImDrawVert;
  f_index_data : list ImDrawIdx;
  i_vert : Z;
  i_ind : Z;
  i_renderable : Z;
  f_batches : list DrawBatch;
  f_calls : list EngineCall }.

(** The body of [for (const auto &cmd : draw_list.CmdBuffer)]. *)
Definition emit_cmd (pool : list Z) (height_px : Z) (f : Frame) (cmd : ImDrawCmd)
  : option Frame :=
  match UserCallback cmd with
  | Some callback =>
      Some {| f_vertex_data := f_vertex_data f; f_index_data := f_index_data f;
              i_vert := i_vert f; i_ind := i_ind f; i_renderable := i_renderable f;
              f_batches := f_batches f;
              f_calls := f_calls f ++ [callUserCallback callback] |}
  | None =>
      match pool !! Z.to_nat (i_renderable f) with
      | None => None
      | Some mat_instance =>
          Some {| f_vertex_data := f_vertex_data f; f_index_data := f_index_data f;
                  i_vert := i_vert f; i_ind := i_ind f;
                  i_renderable := i_renderable f + 1;
                  f_batches := f_batches f ++
                    [{| batch_index := i_renderable f;
                        batch_offset := to_uint32 (IdxOffset cmd + i_ind f);
                        batch_count := ElemCount cmd;
                        batch_blend_order := to_uint16 (i_renderable f);
                        batch_material := mat_instance |}];
                  f_calls := f_calls f ++
                    [SetScissor (ClipRect cmd) height_px mat_instance;
                     setParameter_albedo mat_instance (TextureId cmd)] |}
      end
  end.

Fixpoint emit_cmds (pool : list Z) (height_px : Z) (f : Frame) (cmds : list ImDrawCmd)
  : option Frame :=
  match cmds with
  | [] => Some f
  | cmd :: rest =>
      match emit_cmd pool height_px f cmd with
      | Some f => emit_cmds pool height_px f rest
      | None => None
      end
  end.

(** The body of [for (int i = 0; i < commands.CmdListsCount; ++i)]; [first]
    is [i == 0]. *)
Definition copy_list (pool : list Z) (height_px : Z) (first : bool) (f : Frame)
    (draw_list : ImDrawList) : option Frame :=
  let num_verts := Z.of_nat (length (VtxBuffer draw_list)) in
  let num_inds := Z.of_nat (length (IdxBuffer draw_list)) in
  match memcpy_at (f_vertex_data f) (i_vert f) (VtxBuffer draw_list) with
  | None => None
  | Some vertex_data =>
      match (if first
             then memcpy_at (f_index_data f) (i_ind f) (IdxBuffer draw_list)
             else rewrite_indices (f_index_data f) (i_ind f) (i_vert f) 0
                    (IdxBuffer draw_list)) with
      | None => None
      | Some index_data =>
          match emit_cmds pool height_px
                  {| f_vertex_data := vertex_data; f_index_data := index_data;
                     i_vert := i_vert f; i_ind := i_ind f;
                     i_renderable := i_renderable f;
                     f_batches := f_batches f; f_calls := f_calls f |}
                  (CmdBuffer draw_list) with
          | None => None
          | Some f' =>
              Some {| f_vertex_data := f_vertex_data f'; f_index_data := f_index_data f';
                      i_vert := i_vert f' + num_verts; i_ind := i_ind f' + num_inds;
                      i_renderable := i_renderable f';
                      f_batches := f_batches f'; f_calls := f_calls f' |}
          end
      end
  end.

Fixpoint copy_lists (pool : list Z) (height_px : Z) (first : bool) (f : Frame)
    (lists : list ImDrawList) : option Frame :=
  match lists with
  | [] => Some f
  | draw_list :: rest =>
      match copy_list pool height_px first f draw_list with
      | Some f => copy_lists pool height_px false f rest
      | None => None
      end
  end.

(** [commands.CmdLists[0 .. CmdListsCount)]: [None] when the count runs past
    the array. *)
Definition counted_lists (commands : ImDrawData) : option (list ImDrawList) :=
  if CmdListsCount commands <=? Z.of_nat (length (CmdLists commands))
  then Some (take (Z.to_nat (CmdListsCount commands)) (CmdLists commands))
  else None.

(** "Count how many renderables we need." *)
Definition count_renderables (lists : list ImDrawList) : Z :=
  foldl (fun n l => n + Z.of_nat (length (CmdBuffer l))) 0 lists.

(** "Extend material instances to cover the number of renderables."
    [material_->createInstance()] dereferences [material_]. *)
Definition extend_pool (material : bool) (pool : list Z) (num_renderables : Z)
  : option (list Z * list EngineCall) :=
  if Z.of_nat (length pool) <? num_renderables
  then
    let added := (Z.to_nat num_renderables - length pool)%nat in
    if material
    then Some (pool ++ (Z.of_nat <$> seq (length pool) added),
               replicate added createInstance)
    else None
  else Some (pool, []).

Definition rebuild_needed (buffer : option Z) (total : Z) : bool :=
  match buffer with
  | None => true
  | Some count => count <? to_size_t total
  end.

(** [Ui::UpdateView].  The result is the updated [Ui] with the calls made on
    Filament, or [None] where the C++ would read or write outside an array. *)
Definition UpdateView (ui : Ui) (commands : ImDrawData) (io : ImGuiIO)
  : option (Ui * list EngineCall) :=
  if negb (engine_ ui) then Some (ui, [])
  else if float_eq (x (DisplaySize io)) float_zero && float_eq (y (DisplaySize io)) float_zero
  then Some (ui, [])
  else
    let width_px := float_to_int (float_mul (x (DisplaySize io)) (x (DisplayFramebufferScale io))) in
    let height_px := float_to_int (float_mul (y (DisplaySize io)) (y (DisplayFramebufferScale io))) in
    let calls :=
      [setViewport (wrap_unsigned 32 width_px) (wrap_unsigned 32 height_px);
       setProjection (x (DisplaySize io)) (y (DisplaySize io));
       destroyRenderable] in
    if CmdListsCount commands =? 0 then Some (ui, calls)
    else
      let rebuild_vertex_buffer := rebuild_needed (vertex_buffer_ ui) (TotalVtxCount commands) in
      let rebuild_index_buffer := rebuild_needed (index_buffer_ ui) (TotalIdxCount commands) in
      let calls := calls ++ (if Fonts_IsBuilt io then [] else [printFontsNotBuilt]) in
      let calls :=
        calls ++ (if rebuild_vertex_buffer || rebuild_index_buffer
                  then [waitAndDestroyFence] else []) in
      let '(vertex_buffer, vertex_data, calls) :=
        if rebuild_vertex_buffer
        then (Some (to_size_t (TotalVtxCount commands)),
              resize ImDrawVert_zero (to_size_t (TotalVtxCount commands)) (vertex_data_ ui),
              calls ++ [destroyVertexBuffer (vertex_buffer_ ui);
                        createVertexBuffer (to_size_t (TotalVtxCount commands))])
        else (vertex_buffer_ ui, vertex_data_ ui, calls) in
      let '(index_buffer, index_data, calls) :=
        if rebuild_index_buffer
        then (Some (to_size_t (TotalIdxCount commands)),
              resize 0 (to_size_t (TotalIdxCount commands)) (index_data_ ui),
              calls ++ [destroyIndexBuffer (index_buffer_ ui);
                        createIndexBuffer (to_size_t (TotalIdxCount commands))])
        else (index_buffer_ ui, index_data_ ui, calls) in
      match counted_lists commands with
      | None => None
      | Some lists =>
          let num_renderables := count_renderables lists in
          match extend_pool (material_ ui) (material_instances_ ui) num_renderables with
          | None => None
          | Some (pool, created) =>
              match copy_lists pool height_px true
                      {| f_vertex_data := vertex_data; f_index_data := index_data;
                         i_vert := 0; i_ind := 0; i_renderable := 0;
                         f_batches := []; f_calls := calls ++ created |}
                      lists with
              | None => None
              | Some f =>
                  let calls := f_calls f ++ [buildRenderable num_renderables (f_batches f)] in
                  let calls :=
                    calls ++ (if i_vert f =? 0 then []
                              else [setBufferAt (take (Z.to_nat (i_vert f)) (f_vertex_data f))]) in
                  let calls :=
                    calls ++ (if i_ind f =? 0 then []
                              else [setBuffer (take (Z.to_nat (i_ind f)) (f_index_data f))]) in
                  Some ({| engine_ := engine_ ui; material_ := material_ ui;
                           vertex_buffer_ := vertex_buffer;
                           index_buffer_ := index_buffer;
                           material_instances_ := pool;
                           vertex_data_ := f_vertex_data f;
                           index_data_ := f_index_data f |}, calls)
              end
          end
      end.

(** A sequence of frames; the calls of all frames in order. *)
Fixpoint UpdateViews (ui : Ui) (frames : list (ImDrawData * ImGuiIO))
  : option (Ui * list EngineCall) :=
  match frames with
  | [] => Some (ui, [])
  | (commands, io) :: rest =>
      match UpdateView ui commands io with
      | None => None
      | Some (ui, calls) =>
          match UpdateViews ui rest with
          | None => None
          | Some (ui, calls') => Some (ui, calls ++ calls')
          end
      end
  end.

(** ** filament_glfw_imgui::App

    The members the methods below use: [window_] and [engine_] as "is not
    [nullptr]" (the latter as [app_engine_], [Ui] having an [engine_] of its
    own), and the two [unique_ptr]s [ui_] and [input_].  A method returns
    [None] where the C++ would go through a null pointer. *)
Record App := {
  window_ : bool;
  app_engine_ : bool;
  ui_ : option Ui;
  input_ : option (Handler ToImGui) }.

(** [App(window, imgui_filamat, imgui_filamat_size, log)]: what [Init]
    creates starts as [nullptr]. *)
Definition App_new (window : bool) : App :=
  {| window_ := window; app_engine_ := false; ui_ := None; input_ := None |}.

(** What the platform, Filament and ImGui hand back during [Init]:
    [InitAndGetNativeSwapChain], [Engine::create] and the material builder
    each as "is not [nullptr]", and the capture flags of the ImGui context
    just created. *)
Record InitOutcome := {
  native_swap_chain : bool;
  engine_created : bool;
  ui_mat_built : bool;
  imgui_io : ToImGui }.

(** [App::Init].  The messages written to [log_] are left out.
    [engine_->createSwapChain] goes through [engine_] as [Engine::create]
    returned it. *)
Definition Init (app : App) (o : InitOutcome) : option (App * bool) :=
  if app_engine_ app then Some (app, false)
  else if negb (window_ app) then Some (app, false)
  else if negb (native_swap_chain o) then Some (app, false)
  else if negb (engine_created o) then None
  else Some ({| window_ := window_ app; app_engine_ := true;
                ui_ := Some (Ui_new true (ui_mat_built o));
                input_ := Some (Handler_new (imgui_io o)) |}, true).

(** [App::Run], given what [glfwWindowShouldClose] answers. *)
Definition Run (app : App) (window_should_close : bool) : bool :=
  app_engine_ app && negb window_should_close.

(** [App::PollEvents].  [glfwPollEvents] runs the callbacks attached by
    [GlfwAttachInputCallbacksAndSetWindowUserPointer] on whatever the window
    system has queued, here [delivered]; each of these toplevel callbacks
    calls the handler and drops its answer, which is [apply_op].  The resize
    of the native swap chain is outside the model.  The result holds the
    returned [State*] ([None] for [nullptr]). *)
Definition PollEvents (app : App) (delivered : list Callback)
  : option (App * option State) :=
  if negb (app_engine_ app) then Some (app, None)
  else
    match input_ app with
    | None => None
    | Some h =>
        let h := ClearEvents h in
        let h := run h (Deliver <$> delivered) in
        Some ({| window_ := window_ app; app_engine_ := app_engine_ app;
                 ui_ := ui_ app; input_ := Some h |}, Some (state_ h))
    end.

(** [App::BeginUiFrame].  [fonts_built] is [io.Fonts->IsBuilt()];
    [RebuildFontAtlas] changes none of the members of [Ui] kept here.
    [ImGui::NewFrame] recomputes the capture flags, here to [imgui]. *)
Definition BeginUiFrame (app : App) (fonts_built : bool) (imgui : ToImGui) : option App :=
  if negb (app_engine_ app) then Some app
  else
    match fonts_built, ui_ app with
    | false, None => None
    | _, _ =>
        Some {| window_ := window_ app; app_engine_ := app_engine_ app;
                ui_ := ui_ app;
                input_ := (fun h => mkHandler imgui (state_ h)) <$> input_ app |}
    end.

(** [App::EndUiFrame], with the draw data [ImGui::Render] has produced and
    [ScaleClipRects] has scaled; the result holds the calls made on
    Filament. *)
Definition EndUiFrame (app : App) (commands : ImDrawData) (io : ImGuiIO)
  : option (App * list EngineCall) :=
  if negb (app_engine_ app) then Some (app, [])
  else
    match ui_ app with
    | None => None
    | Some ui =>
        match UpdateView ui commands io with
        | None => None
        | Some (ui, calls) =>
            Some ({| window_ := window_ app; app_engine_ := app_engine_ app;
                     ui_ := Some ui; input_ := input_ app |}, calls)
        end
    end.

(** Calls on an [App], in the order a program makes them. *)
Inductive AppCall :=
| CallInit (o : InitOutcome)
| CallPollEvents (delivered : list Callback)
| CallBeginUiFrame (fonts_built : bool) (imgui : ToImGui)
| CallEndUiFrame (commands : ImDrawData) (io : ImGuiIO).

Definition app_call (app : App) (c : AppCall) : option App :=
  match c with
  | CallInit o => fst <$> Init app o
  | CallPollEvents delivered => fst <$> PollEvents app delivered
  | CallBeginUiFrame fonts_built imgui => BeginUiFrame app fonts_built imgui
  | CallEndUiFrame commands io => fst <$> EndUiFrame app commands io
  end.

Fixpoint app_calls (app : App) (cs : list AppCall) : option App :=
  match cs with
  | [] => Some app
  | c :: rest =>
      match app_call app c with
      | Some app => app_calls app rest
      | None => None
      end
  end.

(** ** filament_imgui::AddFont

    What [AddFont] puts in the [ImFontConfig] it passes to
    [atlas.AddFontFromMemoryTTF]: the ownership flag and the name.  [Name] is
    a [char] array whose size ImGui fixes, here [Name_size]; [font_cfg = {}]
    starts it as zeros.  [name] is the memory at the [name] pointer: the
    result is [None] when [memcpy] would read past it. *)
Record ImFontConfig := { FontDataOwnedByAtlas : bool; Name : list Z }.

Definition AddFont_font_cfg (Name_size : nat) (name : list Z) (name_size : Z)
    (free_when_done : bool) : option ImFontConfig :=
  let n := Z.min (to_size_t name_size) (Z.of_nat Name_size) in
  if n <=? Z.of_nat (length name)
  then
    let Name0 := replicate Name_size 0 in
    let Name1 := take (Z.to_nat n) name ++ drop (Z.to_nat n) Name0 in
    Some {| FontDataOwnedByAtlas := free_when_done;
            Name := <[(Name_size - 1)%nat := 0]> Name1 |}
  else None.

(** The array overload: [name_size] is the size of the array. *)
Definition AddFont_array (Name_size : nat) (name : list Z) (free_when_done : bool)
  : option ImFontConfig :=
  AddFont_font_cfg Name_size name (Z.of_nat (length name)) free_when_done.

(** ** fs::Clamped and the environment keys of the demo

    [Clamped<int>] as [Demo::ProcessInput] instantiates it:
    [std::max<T>(lo, std::min<T>(hi, value))] with [std::min(a, b)] being
    [b < a ? b : a] and [std::max(a, b)] being [a < b ? b : a]. *)
Definition std_min (a b : Z) : Z := if b <? a then b else a.
Definition std_max (a b : Z) : Z := if a <? b then b else a.

Definition Clamped (value lo hi : Z) : Z := std_max lo (std_min hi value).

Definition GLFW_KEY_O : Z := 79.
Definition GLFW_KEY_P : Z := 80.

(** [sizeof(kEnvNames) / sizeof(kEnvNames[0])]: demo.cpp lists 11 names. *)
Definition kEnvNames_count : Z := 11.

(** The first loop of [Demo::ProcessInput], for [increment_env]: the body of
    [case kKey].  An event of another type leaves it as it is. *)
Definition scan_key (increment_env : Z) (event : Event) : Z :=
  if type event =? kKey
  then match data event with
       | e_key k =>
           if k_action k =? GLFW_PRESS
           then if k_key k =? GLFW_KEY_O then -1
                else if k_key k =? GLFW_KEY_P then 1
                else increment_env
           else increment_env
       | _ => increment_env
       end
  else increment_env.

Definition scan_events (events : list Event) : Z := foldl scan_key 0 events.

(** "Load the next environment if requested": the new [i_env_]. *)
Definition next_env (i_env : Z) (input : State) : Z :=
  let increment_env := scan_events (events input) in
  if negb (increment_env =? 0)
  then
    let i_next_env := Clamped (to_int32 (i_env + increment_env)) 0
                        (to_int32 (to_size_t (kEnvNames_count - 1))) in
    if negb (i_next_env =? i_env) then i_next_env else i_env
  else i_env.

(** ** Vocabulary of the properties *)

Section Vocabulary.
Context {C : Type} `{ChildHandler C}.

(** The child's own answer to a callback. *)
Definition ask_child (c : C) (cb : Callback) : C * bool :=
  match cb with
  | WindowFocus w f => child_OnGlfwWindowFocus c w f
  | CursorEnter w e => child_OnGlfwCursorEnter c w e
  | CursorPosition w x y => child_OnGlfwCursorPos c w x y
  | MouseButtonAction w b a m => child_OnGlfwMouseButton c w b a m
  | ScrollBy w x y => child_OnGlfwScroll c w x y
  | KeyAction w k sc a m => child_OnGlfwKey c w k sc a m
  | CharInput w c' => child_OnGlfwChar c w c'
  end.
End Vocabulary.

(** An event no child claimed. *)
Definition uncaptured (e : Event) : Prop := child_wants_capture e = false.

#[export] Instance uncaptured_dec e : Decision (uncaptured e).
Proof. unfold uncaptured. apply _. Defined.

(** The event a callback has just logged: the last of [all_events]. *)
Definition logged (s : State) : option Event := last (all_events s).

(** The stored mouse position is "unknown" when either coordinate is the
    sentinel: the negation of the test in [OnGlfwCursorPos]. *)
Definition position_unknown (s : State) : bool :=
  SFeqb (mouse_x s) kDoubleInf || SFeqb (mouse_y s) kDoubleInf.

(** The table entry of a key, as stored. *)
Definition stored (ks : KeyboardState) (key : Z) : option Z :=
  pressed_event_index_ ks !! Z.to_nat key.

(** [key] is one of the codes the table tracks. *)
Definition tracked (ks : KeyboardState) (key : Z) : Prop := 0 <= key < size ks.

(** A press or a release of [key]: the two actions that write the tables. *)
Definition writes_key (key : Z) (op : Op) : bool :=
  match op with
  | Deliver (KeyAction _ k _ action _) =>
      (k =? key) && ((action =? GLFW_PRESS) || (action =? GLFW_RELEASE))
  | _ => false
  end.

(** The key code of a key callback is an [int]. *)
Definition key_typed (op : Op) : Prop :=
  match op with
  | Deliver (KeyAction _ k _ _ _) => int32_range k
  | _ => True
  end.

Definition is_cursor_pos (op : Op) : bool :=
  match op with
  | Deliver (CursorPosition _ _ _) => true
  | _ => false
  end.

(** Concrete inputs used by the examples below. *)
Definition GLFW_KEY_W : Z := 87.
Definition GLFW_KEY_S : Z := 83.

Definition press (key : Z) : Op := Deliver (KeyAction 0 key 0 GLFW_PRESS 0).
Definition release (key : Z) : Op := Deliver (KeyAction 0 key 0 GLFW_RELEASE 0).

(** A handler whose counter holds the largest [uint64_t]. *)
Definition h_last : Handler NoOpHandler :=
  mkHandler NoOp (set_event_index State_new (2 ^ 64 - 1)).

(** A handler that has already processed 2^32 - 1 callbacks. *)
Definition h_2_32 : Handler NoOpHandler :=
  mkHandler NoOp (set_event_index State_new (2 ^ 32 - 1)).

(** What an operation does to a key table that takes part in it, given the
    event index the operation stamps. *)
Definition table_after (ks : KeyboardState) (op : Op) (event_index : Z) : KeyboardState :=
  match op with
  | Deliver (KeyAction _ k _ action _) => stamp_key ks k action event_index
  | _ => ks
  end.

(** Invariant of a key table when [n] callbacks have been processed: an entry
    is 0 or the index of a callback, and no two keys carry the same non-zero
    index. *)
Definition table_inv (n : Z) (ks : KeyboardState) : Prop :=
  (forall i v, pressed_event_index_ ks !! i = Some v -> 0 <= v <= n) /\
  (forall i j v, i <> j ->
     pressed_event_index_ ks !! i = Some v ->
     pressed_event_index_ ks !! j = Some v -> v = 0).

Definition State_inv (s : State) : Prop :=
  0 <= event_index s /\
  table_inv (event_index s) (keys s) /\
  table_inv (event_index s) (all_keys s).

(** The [double] nearest to an integer, for the examples. *)
Definition double_of_int (n : Z) : double := binary_normalize 53 1024 n 0 false.

(** ImGui while a text field has the keyboard: key and char events are
    captured, mouse events are not. *)
Definition captures_keyboard : ToImGui :=
  {| WantCaptureMouse := false; WantCaptureKeyboard := true |}.

(** A few callbacks of kinds other than a key. *)
Definition scroll_up : Op := Deliver (ScrollBy 0 double_zero (double_of_int 1)).
Definition move_to (x y : Z) : Op := Deliver (CursorPosition 0 (double_of_int x) (double_of_int y)).

(** The callbacks on which every operation of the handler is defined: all
    but a press or release of a mouse button outside 0..31, which shifts by
    the button. *)
Definition callback_defined (cb : Callback) : bool :=
  match cb with
  | MouseButtonAction _ button action _ =>
      negb ((action =? GLFW_PRESS) || (action =? GLFW_RELEASE))
      || ((0 <=? button) && (button <=? 31))
  | _ => true
  end.

Definition op_defined (op : Op) : bool :=
  match op with
  | Deliver cb => callback_defined cb
  | Clear => true
  end.

(** ** Vocabulary of the draw translator *)

(** [dst] with [src] written over it from position [off]. *)
Definition splice {A} (dst : list A) (off : nat) (src : list A) : list A :=
  take off dst ++ src ++ drop (off + length src)%nat dst.

(** The sum of all Vk and the sum of all Ik. *)
Definition vertex_total (lists : list ImDrawList) : Z :=
  foldr (fun l n => Z.of_nat (length (VtxBuffer l)) + n) 0 lists.
Definition index_total (lists : list ImDrawList) : Z :=
  foldr (fun l n => Z.of_nat (length (IdxBuffer l)) + n) 0 lists.

(** The vertices of every list, each at its running vertex offset. *)
Definition all_vertices (lists : list ImDrawList) : list ImDrawVert :=
  concat (VtxBuffer <$> lists).

(** The indices of every list: those of the first list as they are, those of
    each later list rebased on the vertex offset reached so far. *)
Fixpoint reindex (rebase : Z -> ImDrawIdx -> ImDrawIdx) (first : bool) (offset : Z)
    (lists : list ImDrawList) : list ImDrawIdx :=
  match lists with
  | [] => []
  | l :: rest =>
      (if first then IdxBuffer l else rebase offset <$> IdxBuffer l)
        ++ reindex rebase false (offset + Z.of_nat (length (VtxBuffer l))) rest
  end.

(** As the specification words it: each index incremented by the offset. *)
Definition incremented_indices (lists : list ImDrawList) : list ImDrawIdx :=
  reindex (fun offset idx => idx + offset) true 0 lists.

(** As the 16-bit index type has it: the sum reduced modulo 2^16. *)
Definition wrapped_indices (lists : list ImDrawList) : list ImDrawIdx :=
  reindex (fun offset idx => to_uint16 (idx + offset)) true 0 lists.

(** The draw data ImGui hands over is consistent: the counts are those of the
    lists, and fit the [int] they are kept in. *)
Definition ImDrawData_wf (commands : ImDrawData) : Prop :=
  CmdListsCount commands = Z.of_nat (length (CmdLists commands)) /\
  TotalVtxCount commands = vertex_total (CmdLists commands) /\
  TotalIdxCount commands = index_total (CmdLists commands) /\
  TotalVtxCount commands < 2 ^ 31 /\ TotalIdxCount commands < 2 ^ 31.

(** Every raw index of a list addresses one of its own vertices. *)
Definition indices_in_range (l : ImDrawList) : Prop :=
  Forall (fun idx => 0 <= idx < Z.of_nat (length (VtxBuffer l))) (IdxBuffer l).

(** The two counts are [int]s that are not negative. *)
Definition counts_typed (commands : ImDrawData) : Prop :=
  0 <= TotalVtxCount commands < 2 ^ 31 /\ 0 <= TotalIdxCount commands < 2 ^ 31.

(** Invariant of a [Ui]: the CPU-side snapshot of a buffer has the buffer's
    count. *)
Definition sized {A} (buffer : option Z) (snapshot : list A) : Prop :=
  forall count, buffer = Some count -> Z.of_nat (length snapshot) = count.

Definition Ui_inv (ui : Ui) : Prop :=
  sized (vertex_buffer_ ui) (vertex_data_ ui) /\ sized (index_buffer_ ui) (index_data_ ui).

(** The display size is zero: the test that makes [UpdateView] return. *)
Definition display_is_zero (io : ImGuiIO) : bool :=
  float_eq (x (DisplaySize io)) float_zero && float_eq (y (DisplaySize io)) float_zero.

(** The capacity of a buffer; a buffer not created yet has none. *)
Definition capacity (buffer : option Z) : Z := default 0 buffer.

Definition is_vertex_buffer_call (c : EngineCall) : bool :=
  match c with
  | destroyVertexBuffer _ | createVertexBuffer _ => true
  | _ => false
  end.

Definition is_index_buffer_call (c : EngineCall) : bool :=
  match c with
  | destroyIndexBuffer _ | createIndexBuffer _ => true
  | _ => false
  end.

Definition is_buildRenderable (c : EngineCall) : bool :=
  match c with
  | buildRenderable _ _ => true
  | _ => false
  end.

(** The calls [UpdateView] makes before it looks at the command lists. *)
Definition prologue (io : ImGuiIO) : list EngineCall :=
  [setViewport
     (wrap_unsigned 32
        (float_to_int (float_mul (x (DisplaySize io)) (x (DisplayFramebufferScale io)))))
     (wrap_unsigned 32
        (float_to_int (float_mul (y (DisplaySize io)) (y (DisplayFramebufferScale io)))));
   setProjection (x (DisplaySize io)) (y (DisplaySize io));
   destroyRenderable].

(** Calls that neither destroy nor create a buffer. *)
Definition quiet (calls : list EngineCall) : Prop :=
  filter is_vertex_buffer_call calls = [] /\ filter is_index_buffer_call calls = [].

(** The pieces of [UpdateView] between the early returns and the loop over the
    lists, named: the buffer and its snapshot after the "rebuild" step, and
    the calls made up to there. *)
Definition rebuilt_buffer (buffer : option Z) (total : Z) : option Z :=
  if rebuild_needed buffer total then Some (to_size_t total) else buffer.

Definition rebuilt_snapshot {A} (d : A) (buffer : option Z) (total : Z) (snapshot : list A)
  : list A :=
  if rebuild_needed buffer total then resize d (to_size_t total) snapshot else snapshot.

Definition vertex_buffer_calls (ui : Ui) (commands : ImDrawData) : list EngineCall :=
  if rebuild_needed (vertex_buffer_ ui) (TotalVtxCount commands)
  then [destroyVertexBuffer (vertex_buffer_ ui);
        createVertexBuffer (to_size_t (TotalVtxCount commands))]
  else [].

Definition index_buffer_calls (ui : Ui) (commands : ImDrawData) : list EngineCall :=
  if rebuild_needed (index_buffer_ ui) (TotalIdxCount commands)
  then [destroyIndexBuffer (index_buffer_ ui);
        createIndexBuffer (to_size_t (TotalIdxCount commands))]
  else [].

Definition setup_calls (ui : Ui) (commands : ImDrawData) (io : ImGuiIO) : list EngineCall :=
  prologue io
    ++ (if Fonts_IsBuilt io then [] else [printFontsNotBuilt])
    ++ (if rebuild_needed (vertex_buffer_ ui) (TotalVtxCount commands)
           || rebuild_needed (index_buffer_ ui) (TotalIdxCount commands)
        then [waitAndDestroyFence] else [])
    ++ vertex_buffer_calls ui commands
    ++ index_buffer_calls ui commands.

Definition height_px (io : ImGuiIO) : Z :=
  float_to_int (float_mul (y (DisplaySize io)) (y (DisplayFramebufferScale io))).

(** The calls that close a frame: the renderable, then the two uploads. *)
Definition closing_calls (num_renderables : Z) (f : Frame) : list EngineCall :=
  [buildRenderable num_renderables (f_batches f)]
    ++ (if i_vert f =? 0 then []
        else [setBufferAt (take (Z.to_nat (i_vert f)) (f_vertex_data f))])
    ++ (if i_ind f =? 0 then []
        else [setBuffer (take (Z.to_nat (i_ind f)) (f_index_data f))]).

(** Concrete frames used by the examples below. *)
Definition float_of_int (n : Z) : float := binary_normalize 24 128 n 0 false.

Definition vert (n : Z) : ImDrawVert :=
  {| pos := {| x := float_of_int n; y := float_of_int n |};
     uv := {| x := float_zero; y := float_zero |};
     col := n |}.

Definition whole_list_cmd (count : Z) : ImDrawCmd :=
  {| ClipRect := {| v4_x := float_zero; v4_y := float_zero;
                    v4_z := float_of_int 100; v4_w := float_of_int 100 |};
     TextureId := None; IdxOffset := 0; ElemCount := count; UserCallback := None |}.

(** Two triangles over four vertices, and one triangle over three. *)
Definition quad : ImDrawList :=
  {| CmdBuffer := [whole_list_cmd 6];
     IdxBuffer := [0; 1; 2; 0; 2; 3];
     VtxBuffer := [vert 10; vert 11; vert 12; vert 13] |}.

Definition triangle : ImDrawList :=
  {| CmdBuffer := [whole_list_cmd 3];
     IdxBuffer := [0; 1; 2];
     VtxBuffer := [vert 20; vert 21; vert 22] |}.

Definition frame_of (lists : list ImDrawList) : ImDrawData :=
  {| CmdListsCount := Z.of_nat (length lists);
     TotalIdxCount := index_total lists;
     TotalVtxCount := vertex_total lists;
     CmdLists := lists |}.

Definition two_lists : ImDrawData := frame_of [quad; triangle].
Definition no_lists : ImDrawData := frame_of [].

Definition io_200 : ImGuiIO :=
  {| DisplaySize := {| x := float_of_int 200; y := float_of_int 200 |};
     DisplayFramebufferScale := {| x := float_of_int 1; y := float_of_int 1 |};
     Fonts_IsBuilt := true |}.

Definition io_minimized : ImGuiIO :=
  {| DisplaySize := {| x := float_zero; y := float_zero |};
     DisplayFramebufferScale := {| x := float_of_int 1; y := float_of_int 1 |};
     Fonts_IsBuilt := true |}.

(** A list of 65536 vertices, of which it draws one triangle, followed by
    [triangle]: 65539 vertices in all. *)
Definition many_vertices : ImDrawList :=
  {| CmdBuffer := [whole_list_cmd 3];
     IdxBuffer := [0; 1; 2];
     VtxBuffer := replicate (Z.to_nat 65536) (vert 0) |}.

Definition past_16_bits : ImDrawData := frame_of [many_vertices; triangle].

(** ** Further vocabulary *)

(** The modifier bit the [switch (key)] of [OnGlfwKey] tracks for a key. *)
Definition modifier_bits (key : Z) : option Z :=
  if is_one_of key GLFW_KEY_LEFT_SHIFT GLFW_KEY_RIGHT_SHIFT then Some GLFW_MOD_SHIFT
  else if is_one_of key GLFW_KEY_LEFT_CONTROL GLFW_KEY_RIGHT_CONTROL then Some GLFW_MOD_CONTROL
  else if is_one_of key GLFW_KEY_LEFT_ALT GLFW_KEY_RIGHT_ALT then Some GLFW_MOD_ALT
  else if is_one_of key GLFW_KEY_LEFT_SUPER GLFW_KEY_RIGHT_SUPER then Some GLFW_MOD_SUPER
  else if key =? GLFW_KEY_NUM_LOCK then Some GLFW_MOD_NUM_LOCK
  else if key =? GLFW_KEY_CAPS_LOCK then Some GLFW_MOD_CAPS_LOCK
  else None.

(** The six modifier bits. *)
Definition is_modifier_bit (bits : Z) : Prop :=
  bits ∈ [GLFW_MOD_SHIFT; GLFW_MOD_CONTROL; GLFW_MOD_ALT; GLFW_MOD_SUPER;
          GLFW_MOD_CAPS_LOCK; GLFW_MOD_NUM_LOCK].

(** The [Event::k...] constant of a callback, and its window. *)
Definition tag (cb : Callback) : Z :=
  match cb with
  | WindowFocus _ _ => kFocus
  | CursorEnter _ _ => kEnter
  | CursorPosition _ _ _ => kCursorPos
  | MouseButtonAction _ _ _ _ => kMouseButton
  | ScrollBy _ _ _ => kScroll
  | KeyAction _ _ _ _ _ => kKey
  | CharInput _ _ => kChar
  end.

Definition window_of (cb : Callback) : GLFWwindow :=
  match cb with
  | WindowFocus w _ | CursorEnter w _ | CursorPosition w _ _
  | MouseButtonAction w _ _ _ | ScrollBy w _ _ | KeyAction w _ _ _ _
  | CharInput w _ => w
  end.

Definition is_key_op (op : Op) : bool :=
  match op with Deliver (KeyAction _ _ _ _ _) => true | _ => false end.
Definition is_mouse_button_op (op : Op) : bool :=
  match op with Deliver (MouseButtonAction _ _ _ _) => true | _ => false end.
Definition is_focus_op (op : Op) : bool :=
  match op with Deliver (WindowFocus _ _) => true | _ => false end.

(** A press of [key], as data. *)
Definition is_press_of (key : Z) (e : Event) : bool :=
  (type e =? kKey) &&
  match data e with
  | e_key k => (k_action k =? GLFW_PRESS) && (k_key k =? key)
  | _ => false
  end.

(** A modifier mask after a key action on the bit [bits]: the two [if]s of a
    [case] body. *)
Definition mod_after (m action bits : Z) : Z :=
  let m := if action =? GLFW_PRESS then SetBits m bits else m in
  if action =? GLFW_RELEASE then ClearBits m bits else m.

(** The modifier mask after a key callback. *)
Definition mods_after (m key action : Z) : Z :=
  match modifier_bits key with
  | Some bits => mod_after m action bits
  | None => m
  end.

(** ImGui while the pointer is over one of its windows: mouse events are
    captured, key events are not. *)
Definition captures_mouse : ToImGui :=
  {| WantCaptureMouse := true; WantCaptureKeyboard := false |}.

Definition GLFW_MOUSE_BUTTON_LEFT : Z := 0.
Definition GLFW_MOUSE_BUTTON_RIGHT : Z := 1.

Definition click (button : Z) : Op := Deliver (MouseButtonAction 0 button GLFW_PRESS 0).

(** An app after [Init], its handler new. *)
Definition app_ready : App :=
  {| window_ := true; app_engine_ := true; ui_ := Some (Ui_new true true);
     input_ := Some (Handler_new captures_mouse) |}.

(** A press of the key O or P, the only events [scan_key] reacts to. *)
Definition switches_env (e : Event) : bool :=
  is_press_of GLFW_KEY_O e || is_press_of GLFW_KEY_P e.

(** ** Further vocabulary of the draw translator *)

Definition is_createInstance (c : EngineCall) : bool :=
  match c with createInstance => true | _ => false end.

Definition is_callUserCallback (c : EngineCall) : bool :=
  match c with callUserCallback _ => true | _ => false end.

Definition is_fence (c : EngineCall) : bool :=
  match c with waitAndDestroyFence => true | _ => false end.

(** Calls that create or destroy a GPU object, or wait for the GPU. *)
Definition is_allocation (c : EngineCall) : bool :=
  match c with
  | waitAndDestroyFence | createInstance
  | destroyVertexBuffer _ | createVertexBuffer _
  | destroyIndexBuffer _ | createIndexBuffer _ => true
  | _ => false
  end.

(** A command that is drawn: one without a user callback. *)
Definition is_drawn (cmd : ImDrawCmd) : bool :=
  match UserCallback cmd with None => true | Some _ => false end.

(** The commands of all lists, in order. *)
Definition all_cmds (lists : list ImDrawList) : list ImDrawCmd :=
  concat (CmdBuffer <$> lists).

(** The drawn commands of all lists in order, each with the position in the
    merged index array at which the indices of its list start. *)
Fixpoint drawn_cmds (offset : Z) (lists : list ImDrawList) : list (Z * ImDrawCmd) :=
  match lists with
  | [] => []
  | l :: rest =>
      ((fun cmd => (offset, cmd)) <$> filter is_drawn (CmdBuffer l))
        ++ drawn_cmds (offset + Z.of_nat (length (IdxBuffer l))) rest
  end.

(** The batch of the [k]-th drawn command. *)
Definition batch_of (pool : list Z) (k : nat) (drawn : Z * ImDrawCmd) : DrawBatch :=
  {| batch_index := Z.of_nat k;
     batch_offset := to_uint32 (IdxOffset drawn.2 + drawn.1);
     batch_count := ElemCount drawn.2;
     batch_blend_order := to_uint16 (Z.of_nat k);
     batch_material := default 0 (pool !! k) |}.

(** The calls of the command loop on [cmds], the next drawn command being
    the [k]-th. *)
Fixpoint cmd_calls (pool : list Z) (height_px : Z) (k : nat) (cmds : list ImDrawCmd)
  : list EngineCall :=
  match cmds with
  | [] => []
  | cmd :: rest =>
      match UserCallback cmd with
      | Some callback => callUserCallback callback :: cmd_calls pool height_px k rest
      | None =>
          SetScissor (ClipRect cmd) height_px (default 0 (pool !! k))
            :: setParameter_albedo (default 0 (pool !! k)) (TextureId cmd)
            :: cmd_calls pool height_px (S k) rest
      end
  end.

(** The pool holds the instances in the order of their creation. *)
Definition ranked (pool : list Z) : Prop := pool = Z.of_nat <$> seq 0 (length pool).

(** A monitor for the two GPU buffers: which buffer of each kind the calls
    made so far leave alive.  A call breaks the protocol, and the monitor
    stops, when it destroys a buffer other than the live one ([nullptr] when
    there is none), creates a buffer while one is alive, or uploads to no
    buffer or more than the live buffer holds. *)
Record Gpu := { live_vertex_buffer : option Z; live_index_buffer : option Z }.

Definition fits {A} (data : list A) (buffer : option Z) : bool :=
  match buffer with
  | Some count => Z.of_nat (length data) <=? count
  | None => false
  end.

Definition gpu_step (g : Gpu) (c : EngineCall) : option Gpu :=
  match c with
  | destroyVertexBuffer old =>
      if decide (old = live_vertex_buffer g)
      then Some {| live_vertex_buffer := None; live_index_buffer := live_index_buffer g |}
      else None
  | createVertexBuffer count =>
      match live_vertex_buffer g with
      | None => Some {| live_vertex_buffer := Some count;
                        live_index_buffer := live_index_buffer g |}
      | Some _ => None
      end
  | destroyIndexBuffer old =>
      if decide (old = live_index_buffer g)
      then Some {| live_vertex_buffer := live_vertex_buffer g; live_index_buffer := None |}
      else None
  | createIndexBuffer count =>
      match live_index_buffer g with
      | None => Some {| live_vertex_buffer := live_vertex_buffer g;
                        live_index_buffer := Some count |}
      | Some _ => None
      end
  | setBufferAt vertices => if fits vertices (live_vertex_buffer g) then Some g else None
  | setBuffer indices => if fits indices (live_index_buffer g) then Some g else None
  | _ => Some g
  end.

Fixpoint gpu_run (g : Gpu) (calls : list EngineCall) : option Gpu :=
  match calls with
  | [] => Some g
  | c :: rest =>
      match gpu_step g c with
      | Some g => gpu_run g rest
      | None => None
      end
  end.

(** The buffers a [Ui] holds. *)
Definition gpu_of (ui : Ui) : Gpu :=
  {| live_vertex_buffer := vertex_buffer_ ui; live_index_buffer := index_buffer_ ui |}.

(** A draw list with a user callback between two drawn commands. *)
Definition with_callback : ImDrawList :=
  {| CmdBuffer :=
       [whole_list_cmd 3;
        {| ClipRect := ClipRect (whole_list_cmd 0); TextureId := None;
           IdxOffset := 0; ElemCount := 0; UserCallback := Some 7 |};
        {| ClipRect := ClipRect (whole_list_cmd 0); TextureId := Some 5;
           IdxOffset := 3; ElemCount := 3; UserCallback := None |}];
     IdxBuffer := [0; 1; 2; 0; 2; 3];
     VtxBuffer := [vert 10; vert 11; vert 12; vert 13] |}.

Definition ui_ready : Ui := Ui_new true true.

(** The fence and the calls that replace a buffer. *)
Definition is_sync (c : EngineCall) : bool :=
  is_fence c || is_vertex_buffer_call c || is_index_buffer_call c.

(** The locals of [UpdateView] when it enters the loop over the lists. *)
Definition frame_start (ui : Ui) (commands : ImDrawData) (io : ImGuiIO)
    (created : list EngineCall) : Frame :=
  {| f_vertex_data :=
       rebuilt_snapshot ImDrawVert_zero (vertex_buffer_ ui)
         (TotalVtxCount commands) (vertex_data_ ui);
     f_index_data :=
       rebuilt_snapshot 0 (index_buffer_ ui) (TotalIdxCount commands) (index_data_ ui);
     i_vert := 0; i_ind := 0; i_renderable := 0;
     f_batches := [];
     f_calls := setup_calls ui commands io ++ created |}.

(** [UpdateView] gets past its three early returns. *)
Definition draws (ui : Ui) (commands : ImDrawData) (io : ImGuiIO) : bool :=
  engine_ ui && negb (display_is_zero io) && negb (CmdListsCount commands =? 0).

(** ** Vocabulary of the application *)

(** Invariant of an [App]: with an engine it has a [Ui] on that engine whose
    snapshots have the sizes of its buffers, and an input handler; without
    an engine it has neither. *)
Definition App_inv (app : App) : Prop :=
  if app_engine_ app
  then (exists ui, ui_ app = Some ui /\ engine_ ui = true /\ Ui_inv ui) /\
       (exists h, input_ app = Some h)
  else ui_ app = None /\ input_ app = None.

(** The [Ui] of the app has its material. *)
Definition has_material (app : App) : Prop :=
  forall ui, ui_ app = Some ui -> material_ ui = true.

(** A call made under the conditions the library expects: the engine and the
    material could be created, and the draw data is consistent. *)
Definition expected (c : AppCall) : Prop :=
  match c with
  | CallInit o => engine_created o = true /\ ui_mat_built o = true
  | CallEndUiFrame commands _ => ImDrawData_wf commands
  | _ => True
  end.

(** Everything [Init] asks for is there. *)
Definition init_ok : InitOutcome :=
  {| native_swap_chain := true; engine_created := true; ui_mat_built := true;
     imgui_io := {| WantCaptureMouse := false; WantCaptureKeyboard := false |} |}.

(** The package of the UI material could not be loaded. *)
Definition init_no_material : InitOutcome :=
  {| native_swap_chain := true; engine_created := true; ui_mat_built := false;
     imgui_io := {| WantCaptureMouse := false; WantCaptureKeyboard := false |} |}.

(** The [Ui] of an app whose material could not be built: on an engine,
    without a material, its pool empty. *)
Definition App_without_material (app : App) : Prop :=
  app_engine_ app = true /\
  exists ui, ui_ app = Some ui /\ engine_ ui = true /\ material_ ui = false /\
             material_instances_ ui = [].

(** The high-water mark of a buffer over a sequence of frames: its capacity,
    raised by every frame that is drawn to that frame's demand. *)
Fixpoint high_water (demand : ImDrawData -> Z) (ui : Ui) (capacity : Z)
    (frames : list (ImDrawData * ImGuiIO)) : Z :=
  match frames with
  | [] => capacity
  | (commands, io) :: rest =>
      high_water demand ui
        (if draws ui commands io then Z.max capacity (demand commands) else capacity)
        rest
  end.

(** * Properties of the key table *)

(** Arithmetic with the bounds of the integer types. *)
Ltac int_bounds :=
  unfold int32_range, uint64_range, uint16_range in *;
  change (2 ^ 64) with 18446744073709551616 in *;
  change (2 ^ 63) with 9223372036854775808 in *;
  change (2 ^ 32) with 4294967296 in *;
  change (2 ^ 31) with 2147483648 in *;
  change (2 ^ 16) with 65536 in *.
Ltac int_lia := int_bounds; lia.

Lemma to_size_t_nonneg key : 0 <= key < 2 ^ 64 -> to_size_t key = key.
Proof. intros. unfold to_size_t, wrap_unsigned. apply Z.mod_small. int_lia. Qed.

Lemma to_size_t_negative key : - 2 ^ 31 <= key < 0 -> to_size_t key = key + 2 ^ 64.
Proof.
  intros. unfold to_size_t, wrap_unsigned.
  symmetry. apply (Z.mod_unique_pos _ _ (-1)); int_lia.
Qed.

Lemma to_int64_small v : 0 <= v < 2 ^ 63 -> to_int64 v = v.
Proof.
  intros. unfold to_int64, wrap_signed.
  replace (64 - 1) with 63 by lia. rewrite Z.mod_small; int_lia.
Qed.

Lemma to_int32_small v : 0 <= v < 2 ^ 31 -> to_int32 v = v.
Proof.
  intros. unfold to_int32, wrap_signed.
  replace (32 - 1) with 31 by lia. rewrite Z.mod_small; int_lia.
Qed.

(** The guard [key < size()] holds exactly for the tracked codes. *)
Lemma key_lt_size_tracked ks key :
  int32_range key -> tracked ks key ->
  key_lt_size ks key = true /\ to_size_t key = key.
Proof.
  unfold int32_range, tracked, key_lt_size. intros Hk Ht.
  rewrite to_size_t_nonneg by int_lia. split; [|reflexivity]. apply Z.ltb_lt. lia.
Qed.

Lemma key_lt_size_untracked ks key :
  int32_range key -> size ks <= 2 ^ 31 -> ~ tracked ks key ->
  key_lt_size ks key = false.
Proof.
  unfold int32_range, tracked, key_lt_size. intros Hk Hs Ht.
  apply Z.ltb_ge. destruct (Z.lt_ge_cases key 0).
  - rewrite to_size_t_negative by int_lia. int_lia.
  - rewrite to_size_t_nonneg by int_lia. int_lia.
Qed.

(** Two different [int] codes never share a slot. *)
Lemma slot_injective a b :
  int32_range a -> int32_range b -> a <> b ->
  Z.to_nat (to_size_t a) <> Z.to_nat (to_size_t b).
Proof.
  unfold int32_range. intros Ha Hb Hab E.
  assert (0 <= to_size_t a /\ 0 <= to_size_t b) as [? ?].
  { unfold to_size_t, wrap_unsigned. split; apply Z.mod_pos_bound; lia. }
  apply Z2Nat.inj in E; [|lia|lia].
  destruct (Z.lt_ge_cases a 0);
    [rewrite (to_size_t_negative a) in E by int_lia
    |rewrite (to_size_t_nonneg a) in E by int_lia];
    (destruct (Z.lt_ge_cases b 0);
     [rewrite (to_size_t_negative b) in E by int_lia
     |rewrite (to_size_t_nonneg b) in E by int_lia]); int_lia.
Qed.

Lemma stored_SetKeyEventIndex ks key v :
  int32_range key -> tracked ks key ->
  stored (SetKeyEventIndex ks key v) key = Some v.
Proof.
  intros Hk Ht. destruct (key_lt_size_tracked ks key Hk Ht) as [Hg Hs].
  unfold stored, SetKeyEventIndex. rewrite Hg, Hs. cbn.
  apply list_lookup_insert_eq. unfold tracked, size in Ht. lia.
Qed.

Lemma stored_SetKeyEventIndex_other ks key key' v :
  int32_range key -> 0 <= key -> int32_range key' -> key' <> key ->
  stored (SetKeyEventIndex ks key' v) key = stored ks key.
Proof.
  intros Hk H0 Hk' Hne. unfold stored, SetKeyEventIndex.
  destruct (key_lt_size ks key'); [|reflexivity]. cbn.
  apply list_lookup_insert_ne.
  rewrite <- (to_size_t_nonneg key) at 1 by int_lia.
  by apply slot_injective.
Qed.

Lemma stamp_key_press ks key v :
  stamp_key ks key GLFW_PRESS v = SetKeyEventIndex ks key v.
Proof. reflexivity. Qed.

Lemma stamp_key_release ks key v :
  stamp_key ks key GLFW_RELEASE v = SetKeyEventIndex ks key 0.
Proof. reflexivity. Qed.

Lemma size_SetKeyEventIndex ks key v : size (SetKeyEventIndex ks key v) = size ks.
Proof.
  unfold SetKeyEventIndex, size. destruct (key_lt_size ks key); [|reflexivity].
  cbn. by rewrite length_insert.
Qed.

(** The guarded accesses never leave the vector. *)
Lemma PressedEventIndex_in_bounds ks key :
  PressedEventIndex_checked ks key = Some (PressedEventIndex ks key).
Proof.
  unfold PressedEventIndex_checked, PressedEventIndex, vector_get, key_lt_size, size.
  destruct (Z.ltb_spec (to_size_t key) (Z.of_nat (length (pressed_event_index_ ks))))
    as [Hlt|]; [|reflexivity].
  assert (0 <= to_size_t key).
  { unfold to_size_t, wrap_unsigned. apply Z.mod_pos_bound. lia. }
  destruct (lookup_lt_is_Some_2 (pressed_event_index_ ks) (Z.to_nat (to_size_t key)))
    as [v ->]; [lia|reflexivity].
Qed.

Lemma SetKeyEventIndex_in_bounds ks key v :
  SetKeyEventIndex_checked ks key v = Some (SetKeyEventIndex ks key v).
Proof.
  unfold SetKeyEventIndex_checked, SetKeyEventIndex, key_lt_size, size.
  destruct (Z.ltb_spec (to_size_t key) (Z.of_nat (length (pressed_event_index_ ks))))
    as [Hlt|]; [|reflexivity].
  assert (0 <= to_size_t key).
  { unfold to_size_t, wrap_unsigned. apply Z.mod_pos_bound. lia. }
  rewrite decide_True by lia. reflexivity.
Qed.

Lemma untracked_is_released ks key v :
  int32_range key -> size ks <= 2 ^ 31 -> ~ tracked ks key ->
  PressedEventIndex ks key = 0 /\ IsPressed ks key = false /\
  SetKeyEventIndex ks key v = ks.
Proof.
  intros Hk Hs Ht. pose proof (key_lt_size_untracked ks key Hk Hs Ht) as Hg.
  unfold IsPressed, PressedEventIndex, SetKeyEventIndex. rewrite Hg. auto.
Qed.

(** ** [Axis] *)

Lemma Axis_antisymmetric ks a b : Axis ks a b = - Axis ks b a.
Proof.
  unfold Axis.
  destruct (Z.gtb_spec (to_int32 (PressedEventIndex ks a)) (to_int32 (PressedEventIndex ks b))),
           (Z.gtb_spec (to_int32 (PressedEventIndex ks b)) (to_int32 (PressedEventIndex ks a)));
    lia.
Qed.

Lemma Axis_zero_iff ks a b :
  Axis ks a b = 0 <->
  to_int32 (PressedEventIndex ks a) = to_int32 (PressedEventIndex ks b).
Proof.
  unfold Axis.
  destruct (Z.gtb_spec (to_int32 (PressedEventIndex ks a)) (to_int32 (PressedEventIndex ks b))),
           (Z.gtb_spec (to_int32 (PressedEventIndex ks b)) (to_int32 (PressedEventIndex ks a)));
    split; intros; lia.
Qed.

Lemma Axis_released ks a b :
  PressedEventIndex ks a = 0 -> PressedEventIndex ks b = 0 -> Axis ks a b = 0.
Proof. intros Ha Hb. apply Axis_zero_iff. by rewrite Ha, Hb. Qed.

(** The table invariant. *)
Lemma KeyboardState_new_Some max_key ks :
  KeyboardState_new max_key = Some ks ->
  -1 <= max_key < 2 ^ 31 - 1 /\
  pressed_event_index_ ks = replicate (Z.to_nat (max_key + 1)) 0.
Proof.
  unfold KeyboardState_new.
  destruct (Z.leb_spec (-1) max_key); [|discriminate].
  destruct (Z.ltb_spec max_key (2 ^ 31 - 1)); [|discriminate].
  cbn [andb]. intros [= <-]. auto.
Qed.

Lemma keys_State_new :
  KeyboardState_new GLFW_KEY_LAST = Some (keys State_new) /\
  KeyboardState_new GLFW_KEY_LAST = Some (all_keys State_new).
Proof. split; reflexivity. Qed.

Lemma table_inv_new max_key ks :
  KeyboardState_new max_key = Some ks -> table_inv 0 ks.
Proof.
  intros [_ Hks]%KeyboardState_new_Some. unfold table_inv. rewrite Hks. split.
  - intros i v [-> _]%lookup_replicate. lia.
  - intros i j v _ [-> _]%lookup_replicate _. reflexivity.
Qed.

Lemma table_inv_mono n m ks : n <= m -> table_inv n ks -> table_inv m ks.
Proof.
  intros Hnm [Hb Hd]. split; [|exact Hd].
  intros i v Hv. specialize (Hb i v Hv). lia.
Qed.

Lemma table_inv_SetKeyEventIndex_press n ks key :
  0 <= n -> table_inv n ks -> table_inv (n + 1) (SetKeyEventIndex ks key (n + 1)).
Proof.
  intros Hn [Hb Hd]. unfold SetKeyEventIndex.
  destruct (key_lt_size ks key); [|apply (table_inv_mono n); [lia|by split]].
  split; cbn.
  - intros i v Hv. apply list_lookup_insert_Some in Hv.
    destruct Hv as [(_ & <- & _)|[_ Hv]]; [lia|].
    specialize (Hb i v Hv). lia.
  - intros i j v Hij Hi Hj.
    apply list_lookup_insert_Some in Hi. apply list_lookup_insert_Some in Hj.
    destruct Hi as [(Ei & Ev & _)|[_ Hi]], Hj as [(Ej & Ev' & _)|[_ Hj]].
    + congruence.
    + specialize (Hb j _ Hj). lia.
    + specialize (Hb i _ Hi). lia.
    + by apply (Hd i j).
Qed.

Lemma table_inv_SetKeyEventIndex_release n ks key :
  0 <= n -> table_inv n ks -> table_inv n (SetKeyEventIndex ks key 0).
Proof.
  intros Hn [Hb Hd]. unfold SetKeyEventIndex.
  destruct (key_lt_size ks key); [|by split].
  split; cbn.
  - intros i v Hv. apply list_lookup_insert_Some in Hv.
    destruct Hv as [(_ & <- & _)|[_ Hv]]; [lia|].
    by apply (Hb i).
  - intros i j v Hij Hi Hj.
    apply list_lookup_insert_Some in Hi. apply list_lookup_insert_Some in Hj.
    destruct Hi as [(Ei & Ev & _)|[_ Hi]], Hj as [(Ej & Ev' & _)|[_ Hj]];
      try congruence.
    by apply (Hd i j).
Qed.

Lemma table_inv_stamp_key n ks key action :
  0 <= n -> table_inv n ks -> table_inv (n + 1) (stamp_key ks key action (n + 1)).
Proof.
  intros Hn Hinv. unfold stamp_key.
  destruct (action =? GLFW_PRESS); [by apply table_inv_SetKeyEventIndex_press|].
  destruct (action =? GLFW_RELEASE).
  - apply (table_inv_mono n); [lia|]. by apply table_inv_SetKeyEventIndex_release.
  - apply (table_inv_mono n); [lia|assumption].
Qed.

(** Under the invariant, with fewer than 2^31 callbacks, what
    [PressedEventIndex] returns is the entry itself. *)
Lemma PressedEventIndex_inv n ks key :
  table_inv n ks -> 0 <= n < 2 ^ 31 ->
  0 <= PressedEventIndex ks key <= n /\
  (key_lt_size ks key = true ->
   pressed_event_index_ ks !! Z.to_nat (to_size_t key) = Some (PressedEventIndex ks key)) /\
  (key_lt_size ks key = false -> PressedEventIndex ks key = 0).
Proof.
  intros [Hb Hd] Hn.
  pose proof (PressedEventIndex_in_bounds ks key) as Hc.
  unfold PressedEventIndex_checked in Hc. unfold PressedEventIndex in *.
  destruct (key_lt_size ks key) eqn:Hg.
  - destruct (pressed_event_index_ ks !! Z.to_nat (to_size_t key)) as [v|] eqn:Hv;
      [|discriminate Hc].
    specialize (Hb _ _ Hv). unfold vector_get in *. rewrite Hv in *. cbn in *.
    rewrite to_int64_small by int_lia. repeat split; try lia; done.
  - repeat split; try lia; done.
Qed.

Lemma Axis_zero_iff_released n ks a b :
  table_inv n ks -> 0 <= n < 2 ^ 31 ->
  int32_range a -> int32_range b -> a <> b ->
  Axis ks a b = 0 <-> PressedEventIndex ks a = 0 /\ PressedEventIndex ks b = 0.
Proof.
  intros Hinv Hn Ha Hb Hab. split; [|intros [? ?]; by apply Axis_released].
  rewrite Axis_zero_iff.
  destruct (PressedEventIndex_inv n ks a Hinv Hn) as (Hra & Hta & Hfa).
  destruct (PressedEventIndex_inv n ks b Hinv Hn) as (Hrb & Htb & Hfb).
  rewrite !to_int32_small by int_lia. intros E.
  destruct (key_lt_size ks a) eqn:Hga; [|rewrite <- E; auto].
  destruct (key_lt_size ks b) eqn:Hgb; [|rewrite E; auto].
  destruct Hinv as [_ Hd].
  assert (PressedEventIndex ks a = 0).
  { apply (Hd (Z.to_nat (to_size_t a)) (Z.to_nat (to_size_t b))).
    - by apply slot_injective.
    - by apply Hta.
    - rewrite E. by apply Htb. }
  split; [assumption|congruence].
Qed.

Lemma table_inv_table_after n ks op :
  0 <= n -> table_inv n ks -> table_inv (n + 1) (table_after ks op (n + 1)).
Proof.
  intros Hn Hinv.
  destruct op as [[]|]; cbn [table_after];
    try (apply (table_inv_mono n); [lia|assumption]).
  by apply table_inv_stamp_key.
Qed.

Lemma stamp_key_untracked ks key action v :
  int32_range key -> size ks <= 2 ^ 31 -> ~ tracked ks key ->
  stamp_key ks key action v = ks.
Proof.
  intros Hk Hs Ht. unfold stamp_key.
  destruct (untracked_is_released ks key v Hk Hs Ht) as (_ & _ & ->).
  destruct (untracked_is_released ks key 0 Hk Hs Ht) as (_ & _ & ->).
  destruct (action =? GLFW_PRESS), (action =? GLFW_RELEASE); reflexivity.
Qed.

(** An operation that is neither a press nor a release of [key] leaves the
    entry of [key] alone. *)
Lemma stored_table_after ks op stamp key :
  int32_range key -> 0 <= key -> key_typed op -> writes_key key op = false ->
  stored (table_after ks op stamp) key = stored ks key.
Proof.
  intros Hk H0 Ht Hw. destruct op as [[]|]; cbn [table_after]; try reflexivity.
  cbn [key_typed writes_key] in *. unfold stamp_key.
  destruct (Z.eqb_spec key0 key) as [->|Hne].
  - cbn [andb] in Hw. apply orb_false_elim in Hw as [-> ->]. reflexivity.
  - destruct (action =? GLFW_PRESS); [by apply stored_SetKeyEventIndex_other|].
    destruct (action =? GLFW_RELEASE); [by apply stored_SetKeyEventIndex_other|].
    reflexivity.
Qed.

(** * Properties of the input pipeline *)

Lemma to_uint64_range z : uint64_range (to_uint64 z).
Proof. unfold uint64_range, to_uint64, wrap_unsigned. apply Z.mod_pos_bound. lia. Qed.

Lemma to_uint64_small z : uint64_range z -> to_uint64 z = z.
Proof. unfold uint64_range, to_uint64, wrap_unsigned. intros. apply Z.mod_small. lia. Qed.

Lemma to_uint64_succ z : to_uint64 (to_uint64 z + 1) = to_uint64 (z + 1).
Proof.
  unfold to_uint64, wrap_unsigned.
  rewrite Z.add_mod_idemp_l by lia. reflexivity.
Qed.

Section InputPipeline.
Context {C : Type} `{ChildHandler C}.

(** What [push_event] leaves alone. *)
Lemma push_event_event_index s e : event_index (push_event s e) = event_index s.
Proof. unfold push_event. destruct (child_wants_capture e); reflexivity. Qed.

Lemma push_event_keys s e :
  keys (push_event s e) = keys s /\ all_keys (push_event s e) = all_keys s.
Proof. unfold push_event. destruct (child_wants_capture e); split; reflexivity. Qed.

Lemma push_event_mouse s e :
  mouse_x (push_event s e) = mouse_x s /\ mouse_y (push_event s e) = mouse_y s.
Proof. unfold push_event. destruct (child_wants_capture e); split; reflexivity. Qed.

Lemma push_event_events s e :
  all_events (push_event s e) = all_events s ++ [e] /\
  events (push_event s e) =
    if child_wants_capture e then events s else events s ++ [e].
Proof. unfold push_event. destruct (child_wants_capture e); split; reflexivity. Qed.

(** The [switch] of [OnGlfwKey] writes [mod_keys] only. *)
Lemma track_mod_shape s action bits :
  exists m, track_mod s action bits = set_mod_keys s m.
Proof.
  unfold track_mod.
  destruct (action =? GLFW_PRESS), (action =? GLFW_RELEASE); simpl;
    try (eexists; reflexivity).
  exists (mod_keys s). destruct s; reflexivity.
Qed.

Lemma track_mod_keys_shape s key action :
  exists m, track_mod_keys s key action = set_mod_keys s m.
Proof.
  unfold track_mod_keys.
  repeat match goal with
         | |- context [if ?b then _ else _] => destruct b
         end; try apply track_mod_shape.
  exists (mod_keys s). destruct s; reflexivity.
Qed.

Lemma OnGlfwKey_event_index h w key sc action mods :
  event_index (state_ (OnGlfwKey h w key sc action mods).1) =
    to_uint64 (event_index (state_ h) + 1).
Proof.
  unfold OnGlfwKey.
  destruct (child_OnGlfwKey _ _ _ _ _ _) as [child captured].
  destruct (track_mod_keys_shape (incr_event_index (state_ h)) key action) as [m ->].
  destruct captured; reflexivity.
Qed.

(** Every callback performs [++state_.event_index], once. *)
Lemma dispatch_event_index h cb :
  event_index (state_ (dispatch h cb).1) = to_uint64 (event_index (state_ h) + 1).
Proof.
  destruct cb; cbn [dispatch]; try apply OnGlfwKey_event_index.
  - unfold OnGlfwWindowFocus. destruct (child_OnGlfwWindowFocus _ _ _) as [child captured].
    cbn [fst state_]. rewrite push_event_event_index. destruct (focused =? 0); reflexivity.
  - unfold OnGlfwCursorEnter. destruct (child_OnGlfwCursorEnter _ _ _) as [child captured].
    cbn [fst state_]. apply push_event_event_index.
  - unfold OnGlfwCursorPos. destruct (child_OnGlfwCursorPos _ _ _ _) as [child captured].
    destruct (_ && _); cbn [fst state_]; apply push_event_event_index.
  - unfold OnGlfwMouseButton.
    destruct (child_OnGlfwMouseButton _ _ _ _ _) as [child captured].
    cbn [fst state_]. rewrite push_event_event_index.
    destruct (action =? GLFW_PRESS); [reflexivity|].
    destruct (action =? GLFW_RELEASE); reflexivity.
  - unfold OnGlfwScroll. destruct (child_OnGlfwScroll _ _ _ _) as [child captured].
    cbn [fst state_]. apply push_event_event_index.
  - unfold OnGlfwChar. destruct (child_OnGlfwChar _ _ _) as [child captured].
    cbn [fst state_]. apply push_event_event_index.
Qed.

Lemma ClearEvents_event_index h :
  event_index (state_ (ClearEvents h)) = event_index (state_ h).
Proof. reflexivity. Qed.

Lemma run_cons h op ops : run h (op :: ops) = run (apply_op h op) ops.
Proof. reflexivity. Qed.

Lemma run_snoc h ops op : run h (ops ++ [op]) = apply_op (run h ops) op.
Proof. unfold run. rewrite foldl_app. reflexivity. Qed.

Lemma callbacks_snoc ops op :
  callbacks (ops ++ [op]) = callbacks ops + (if is_callback op then 1 else 0).
Proof.
  unfold callbacks. rewrite filter_app, length_app.
  destruct op; simpl; lia.
Qed.

Lemma callbacks_nonneg ops : 0 <= callbacks ops.
Proof. unfold callbacks. lia. Qed.

Lemma run_event_index h ops :
  uint64_range (event_index (state_ h)) ->
  event_index (state_ (run h ops)) = to_uint64 (event_index (state_ h) + callbacks ops).
Proof.
  intros Hr. induction ops as [|op ops IH] using rev_ind.
  - simpl. unfold callbacks. simpl. rewrite Z.add_0_r. symmetry. by apply to_uint64_small.
  - rewrite run_snoc, callbacks_snoc. destruct op as [cb|]; cbn [apply_op is_callback].
    + rewrite dispatch_event_index, IH, to_uint64_succ. f_equal. lia.
    + rewrite ClearEvents_event_index, IH. f_equal. lia.
Qed.

(** C1 (as amended).  After any sequence of operations on the handler, raw
    callbacks of any kind and captured or not, interleaved with any number of
    [ClearEvents], [state.event_index] is its value before plus the number
    [N] of callbacks, reduced modulo 2^64 (the counter is a [uint64_t]).  So
    it is exactly the value before plus [N] for as long as that sum fits in
    64 bits, and neither [ClearEvents] nor anything else sets it back. *)
Theorem event_index_counts_callbacks (h : Handler C) (ops : list Op) :
  uint64_range (event_index (state_ h)) ->
  event_index (state_ (run h ops)) = (event_index (state_ h) + callbacks ops) mod 2 ^ 64 /\
  (event_index (state_ h) + callbacks ops < 2 ^ 64 ->
   event_index (state_ (run h ops)) = event_index (state_ h) + callbacks ops).
Proof.
  intros Hr. pose proof (run_event_index h ops Hr) as E. split; [exact E|].
  intros Hlt. rewrite E. apply to_uint64_small.
  pose proof (callbacks_nonneg ops). unfold uint64_range in *. lia.
Qed.

(** ** Capture and the two event lists *)

Lemma OnGlfwKey_events h w key sc action mods :
  let r := OnGlfwKey h w key sc action mods in
  r.2 = (child_OnGlfwKey (child_ h) w key sc action mods).2 /\
  exists e, child_wants_capture e = r.2 /\ type e = kKey /\
    all_events (state_ r.1) = all_events (state_ h) ++ [e] /\
    events (state_ r.1) =
      if r.2 then events (state_ h) else events (state_ h) ++ [e].
Proof.
  unfold OnGlfwKey.
  destruct (child_OnGlfwKey _ _ _ _ _ _) as [child captured].
  destruct (track_mod_keys_shape (incr_event_index (state_ h)) key action) as [m ->].
  split; [reflexivity|].
  destruct captured; cbn; eexists; repeat split; reflexivity.
Qed.

(** C2.  Whatever the callback, the handler returns the child's answer and
    logs one [Event] carrying that answer: the event is appended to
    [all_events] always, and to [events] exactly when the child did not
    capture it.  Hence, in every state the operations of the handler can
    reach, [events] is [all_events] without the captured events: no captured
    event is in [events], and every event, captured or not, is in
    [all_events]. *)
Theorem capture_routes_events :
  (forall (h : Handler C) (cb : Callback),
      let r := dispatch h cb in
      r.2 = (ask_child (child_ h) cb).2 /\
      exists e, child_wants_capture e = r.2 /\
        all_events (state_ r.1) = all_events (state_ h) ++ [e] /\
        events (state_ r.1) =
          if r.2 then events (state_ h) else events (state_ h) ++ [e]) /\
  (forall h : Handler C, reachable h ->
      events (state_ h) = filter uncaptured (all_events (state_ h)) /\
      (forall e, e ∈ events (state_ h) -> child_wants_capture e = false) /\
      (forall e, e ∈ events (state_ h) -> e ∈ all_events (state_ h))).
Proof.
  assert (Hstep : forall (h : Handler C) (cb : Callback),
      let r := dispatch h cb in
      r.2 = (ask_child (child_ h) cb).2 /\
      exists e, child_wants_capture e = r.2 /\
        all_events (state_ r.1) = all_events (state_ h) ++ [e] /\
        events (state_ r.1) =
          if r.2 then events (state_ h) else events (state_ h) ++ [e]).
  { intros h cb. destruct cb; cbn [dispatch ask_child].
    - unfold OnGlfwWindowFocus.
      destruct (child_OnGlfwWindowFocus _ _ _) as [child captured].
      split; [reflexivity|]. eexists.
      split; [|destruct (focused =? 0), captured; split; reflexivity]. reflexivity.
    - unfold OnGlfwCursorEnter.
      destruct (child_OnGlfwCursorEnter _ _ _) as [child captured].
      split; [reflexivity|]. eexists.
      split; [|destruct captured; split; reflexivity]. reflexivity.
    - unfold OnGlfwCursorPos.
      destruct (child_OnGlfwCursorPos _ _ _ _) as [child captured].
      destruct (_ && _); (split; [reflexivity|]); eexists;
        (split; [|destruct captured; split; reflexivity]); reflexivity.
    - unfold OnGlfwMouseButton.
      destruct (child_OnGlfwMouseButton _ _ _ _ _) as [child captured].
      split; [reflexivity|]. eexists.
      split; [|destruct (action =? GLFW_PRESS), (action =? GLFW_RELEASE), captured;
               split; reflexivity]. reflexivity.
    - unfold OnGlfwScroll.
      destruct (child_OnGlfwScroll _ _ _ _) as [child captured].
      split; [reflexivity|]. eexists.
      split; [|destruct captured; split; reflexivity]. reflexivity.
    - destruct (OnGlfwKey_events h window0 key scancode action mods)
        as (Hr & e & He & _ & Hall & Hev).
      split; [exact Hr|]. exists e. auto.
    - unfold OnGlfwChar.
      destruct (child_OnGlfwChar _ _ _) as [child captured].
      split; [reflexivity|]. eexists.
      split; [|destruct captured; split; reflexivity]. reflexivity. }
  split; [exact Hstep|].
  assert (Hinv : forall h : Handler C, reachable h ->
      events (state_ h) = filter uncaptured (all_events (state_ h))).
  { induction 1 as [child|h op _ IH]; [reflexivity|].
    destruct op as [cb|]; cbn [apply_op]; [|reflexivity].
    destruct (Hstep h cb) as (_ & e & He & Hall & Hev).
    rewrite Hall, Hev, filter_app, filter_cons, filter_nil, <- IH.
    destruct (dispatch h cb).2 eqn:Hc.
    - rewrite decide_False by (unfold uncaptured; congruence). by rewrite app_nil_r.
    - rewrite decide_True by (unfold uncaptured; congruence). reflexivity. }
  intros h Hh. specialize (Hinv h Hh). split; [exact Hinv|]. split.
  - intros e. rewrite Hinv. intros [He _]%list_elem_of_filter. exact He.
  - intros e. rewrite Hinv. intros [_ He]%list_elem_of_filter. exact He.
Qed.

(** ** The cursor position and its delta *)

Lemma last_snoc_event (l : list Event) e : last (l ++ [e]) = Some e.
Proof. apply last_snoc. Qed.

Lemma logged_push_event s e : logged (push_event s e) = Some e.
Proof.
  unfold logged. destruct (push_event_events s e) as [-> _]. apply last_snoc.
Qed.

(** The event [OnGlfwCursorPos] logs, and the position it stores. *)
Lemma OnGlfwCursorPos_logs (h : Handler C) (w : GLFWwindow) (x y : double) :
  let s := state_ h in
  let r := OnGlfwCursorPos h w x y in
  logged (state_ r.1) =
    Some {| type := kCursorPos; window := w; child_wants_capture := r.2;
            data := e_cursor_pos
              {| cp_x := x; cp_y := y;
                 cp_xoffset :=
                   if position_unknown s then double_zero else double_sub x (mouse_x s);
                 cp_yoffset :=
                   if position_unknown s then double_zero else double_sub y (mouse_y s);
                 cp_buttons := mouse_buttons s; cp_mods := mod_keys s |} |} /\
  mouse_x (state_ r.1) = x /\ mouse_y (state_ r.1) = y.
Proof.
  unfold OnGlfwCursorPos, position_unknown, double_ne.
  destruct (child_OnGlfwCursorPos _ _ _ _) as [child captured].
  cbn [incr_event_index set_event_index mouse_x mouse_y].
  destruct (SFeqb (mouse_x (state_ h)) kDoubleInf),
           (SFeqb (mouse_y (state_ h)) kDoubleInf);
    cbn [negb andb orb fst snd state_]; rewrite logged_push_event;
    (split; [reflexivity|]);
    match goal with
    | |- context [push_event ?s ?e] => destruct (push_event_mouse s e) as [-> ->]
    end; split; reflexivity.
Qed.

(** C6.  A cursor-position callback logs a [kCursorPos] event whose delta
    [(xoffset, yoffset)] is [(0, 0)] when the stored mouse position is
    unknown (a coordinate is the [kDoubleInf] sentinel) and otherwise is
    [(x - mouse_x, y - mouse_y)], the differences being those of [double];
    either way the stored position becomes [(x, y)]. *)
Theorem cursor_pos_delta (h : Handler C) (w : GLFWwindow) (x y : double) :
  let s := state_ h in
  let r := OnGlfwCursorPos h w x y in
  logged (state_ r.1) =
    Some {| type := kCursorPos; window := w; child_wants_capture := r.2;
            data := e_cursor_pos
              {| cp_x := x; cp_y := y;
                 cp_xoffset :=
                   if position_unknown s then double_zero else double_sub x (mouse_x s);
                 cp_yoffset :=
                   if position_unknown s then double_zero else double_sub y (mouse_y s);
                 cp_buttons := mouse_buttons s; cp_mods := mod_keys s |} |} /\
  mouse_x (state_ r.1) = x /\ mouse_y (state_ r.1) = y.
Proof. exact (OnGlfwCursorPos_logs h w x y). Qed.

(** What a callback other than a cursor position does to the stored mouse
    position: nothing, except that a focus gain sets the sentinel. *)
Lemma OnGlfwKey_mouse h w key sc action mods :
  let s' := state_ (OnGlfwKey h w key sc action mods).1 in
  mouse_x s' = mouse_x (state_ h) /\ mouse_y s' = mouse_y (state_ h).
Proof.
  unfold OnGlfwKey.
  destruct (child_OnGlfwKey _ _ _ _ _ _) as [child captured].
  destruct (track_mod_keys_shape (incr_event_index (state_ h)) key action) as [m ->].
  destruct captured; split; reflexivity.
Qed.

Lemma OnGlfwWindowFocus_mouse h w focused :
  let s' := state_ (OnGlfwWindowFocus h w focused).1 in
  (focused <> 0 -> mouse_x s' = kDoubleInf /\ mouse_y s' = kDoubleInf) /\
  (focused = 0 -> mouse_x s' = mouse_x (state_ h) /\ mouse_y s' = mouse_y (state_ h)).
Proof.
  unfold OnGlfwWindowFocus.
  destruct (child_OnGlfwWindowFocus _ _ _) as [child captured].
  cbn [fst state_].
  match goal with
  | |- context [push_event ?s ?e] => destruct (push_event_mouse s e) as [-> ->]
  end.
  destruct (Z.eqb_spec focused 0) as [->|Hne]; cbn [negb]; split; intros; try done.
Qed.

Lemma apply_op_keeps_sentinel h op :
  is_cursor_pos op = false ->
  mouse_x (state_ h) = kDoubleInf /\ mouse_y (state_ h) = kDoubleInf ->
  mouse_x (state_ (apply_op h op)) = kDoubleInf /\
  mouse_y (state_ (apply_op h op)) = kDoubleInf.
Proof.
  intros Hop Hs. destruct op as [cb|]; [|exact Hs].
  destruct cb; try discriminate Hop; cbn [apply_op dispatch].
  - destruct (OnGlfwWindowFocus_mouse h window0 focused) as [Hgain Hloss].
    destruct (Z.eq_dec focused 0) as [E|E]; [|by apply Hgain].
    destruct (Hloss E) as [-> ->]. exact Hs.
  - unfold OnGlfwCursorEnter. destruct (child_OnGlfwCursorEnter _ _ _) as [child captured].
    cbn [fst state_].
    match goal with
    | |- context [push_event ?s ?e] => destruct (push_event_mouse s e) as [-> ->]
    end. exact Hs.
  - unfold OnGlfwMouseButton.
    destruct (child_OnGlfwMouseButton _ _ _ _ _) as [child captured].
    cbn [fst state_].
    match goal with
    | |- context [push_event ?s ?e] => destruct (push_event_mouse s e) as [-> ->]
    end.
    destruct (action =? GLFW_PRESS), (action =? GLFW_RELEASE); exact Hs.
  - unfold OnGlfwScroll. destruct (child_OnGlfwScroll _ _ _ _) as [child captured].
    cbn [fst state_].
    match goal with
    | |- context [push_event ?s ?e] => destruct (push_event_mouse s e) as [-> ->]
    end. exact Hs.
  - destruct (OnGlfwKey_mouse h window0 key scancode action mods) as [-> ->]. exact Hs.
  - unfold OnGlfwChar. destruct (child_OnGlfwChar _ _ _) as [child captured].
    cbn [fst state_].
    match goal with
    | |- context [push_event ?s ?e] => destruct (push_event_mouse s e) as [-> ->]
    end. exact Hs.
Qed.

Lemma run_keeps_sentinel ops : forall h,
  Forall (fun op => is_cursor_pos op = false) ops ->
  mouse_x (state_ h) = kDoubleInf /\ mouse_y (state_ h) = kDoubleInf ->
  mouse_x (state_ (run h ops)) = kDoubleInf /\ mouse_y (state_ (run h ops)) = kDoubleInf.
Proof.
  induction ops as [|op ops IH]; intros h Hops Hs; [exact Hs|].
  inversion Hops; subst. rewrite run_cons. apply IH; [assumption|].
  by apply apply_op_keeps_sentinel.
Qed.

(** C10.  A focus callback with [focused] true sets the stored mouse position
    to the sentinel [(kDoubleInf, kDoubleInf)], and one with [focused] false
    leaves it as it was.  After a focus gain, whatever is processed next that
    is not a cursor position, the first cursor-position callback logs an
    event whose delta is exactly [(0, 0)]. *)
Theorem focus_gain_forgets_mouse_position (h : Handler C) (w : GLFWwindow) (focused : Z) :
  let h1 := (OnGlfwWindowFocus h w focused).1 in
  (focused <> 0 ->
     mouse_x (state_ h1) = kDoubleInf /\ mouse_y (state_ h1) = kDoubleInf) /\
  (focused = 0 ->
     mouse_x (state_ h1) = mouse_x (state_ h) /\ mouse_y (state_ h1) = mouse_y (state_ h)) /\
  (focused <> 0 ->
     forall (between : list Op) (w' : GLFWwindow) (x y : double),
       Forall (fun op => is_cursor_pos op = false) between ->
       exists e cp,
         logged (state_ (OnGlfwCursorPos (run h1 between) w' x y).1) = Some e /\
         data e = e_cursor_pos cp /\
         cp_xoffset cp = double_zero /\ cp_yoffset cp = double_zero).
Proof.
  destruct (OnGlfwWindowFocus_mouse h w focused) as [Hgain Hloss].
  split; [exact Hgain|]. split; [exact Hloss|].
  intros Hf between w' x y Hb.
  destruct (run_keeps_sentinel between _ Hb (Hgain Hf)) as [Hx Hy].
  destruct (OnGlfwCursorPos_logs (run (OnGlfwWindowFocus h w focused).1 between) w' x y)
    as [Hlog _].
  eexists. eexists. split; [exact Hlog|].
  unfold position_unknown. rewrite Hx, Hy. cbn. auto.
Qed.

(** ** The key tables *)

Lemma OnGlfwKey_tables h w key sc action mods :
  let r := OnGlfwKey h w key sc action mods in
  let stamp := to_uint64 (event_index (state_ h) + 1) in
  all_keys (state_ r.1) = stamp_key (all_keys (state_ h)) key action stamp /\
  keys (state_ r.1) =
    if r.2 then keys (state_ h) else stamp_key (keys (state_ h)) key action stamp.
Proof.
  unfold OnGlfwKey.
  destruct (child_OnGlfwKey _ _ _ _ _ _) as [child captured].
  destruct (track_mod_keys_shape (incr_event_index (state_ h)) key action) as [m ->].
  destruct captured; split; reflexivity.
Qed.

(** Only a key callback writes a key table. *)
Lemma apply_op_tables h op :
  let stamp := to_uint64 (event_index (state_ h) + 1) in
  all_keys (state_ (apply_op h op)) = table_after (all_keys (state_ h)) op stamp /\
  (keys (state_ (apply_op h op)) = keys (state_ h) \/
   keys (state_ (apply_op h op)) = table_after (keys (state_ h)) op stamp).
Proof.
  destruct op as [cb|]; [|split; [reflexivity|left; reflexivity]].
  destruct cb; cbn [apply_op dispatch table_after].
  - unfold OnGlfwWindowFocus. destruct (child_OnGlfwWindowFocus _ _ _) as [child captured].
    cbn [fst state_].
    match goal with
    | |- context [push_event ?s ?e] => destruct (push_event_keys s e) as [-> ->]
    end. destruct (focused =? 0); split; auto.
  - unfold OnGlfwCursorEnter. destruct (child_OnGlfwCursorEnter _ _ _) as [child captured].
    cbn [fst state_].
    match goal with
    | |- context [push_event ?s ?e] => destruct (push_event_keys s e) as [-> ->]
    end. split; auto.
  - unfold OnGlfwCursorPos. destruct (child_OnGlfwCursorPos _ _ _ _) as [child captured].
    destruct (_ && _); cbn [fst state_];
    match goal with
    | |- context [push_event ?s ?e] => destruct (push_event_keys s e) as [-> ->]
    end; split; auto.
  - unfold OnGlfwMouseButton.
    destruct (child_OnGlfwMouseButton _ _ _ _ _) as [child captured].
    cbn [fst state_].
    match goal with
    | |- context [push_event ?s ?e] => destruct (push_event_keys s e) as [-> ->]
    end.
    destruct (action =? GLFW_PRESS), (action =? GLFW_RELEASE); split; auto.
  - unfold OnGlfwScroll. destruct (child_OnGlfwScroll _ _ _ _) as [child captured].
    cbn [fst state_].
    match goal with
    | |- context [push_event ?s ?e] => destruct (push_event_keys s e) as [-> ->]
    end. split; auto.
  - destruct (OnGlfwKey_tables h window0 key scancode action mods) as [-> ->].
    split; [reflexivity|]. destruct (OnGlfwKey _ _ _ _ _ _).2; auto.
  - unfold OnGlfwChar. destruct (child_OnGlfwChar _ _ _) as [child captured].
    cbn [fst state_].
    match goal with
    | |- context [push_event ?s ?e] => destruct (push_event_keys s e) as [-> ->]
    end. split; auto.
Qed.

Lemma apply_op_event_index h op :
  event_index (state_ (apply_op h op)) =
    if is_callback op then to_uint64 (event_index (state_ h) + 1)
    else event_index (state_ h).
Proof.
  destruct op as [cb|]; cbn [apply_op is_callback]; [apply dispatch_event_index|reflexivity].
Qed.

Lemma apply_op_State_inv h op :
  State_inv (state_ h) ->
  (is_callback op = true -> event_index (state_ h) + 1 < 2 ^ 64) ->
  State_inv (state_ (apply_op h op)).
Proof.
  intros (Hn & Hk & Hak) Hlt.
  destruct (apply_op_tables h op) as [Hall Hkeys].
  unfold State_inv. rewrite apply_op_event_index, Hall.
  destruct op as [cb|].
  - cbn [is_callback] in *. specialize (Hlt eq_refl).
    rewrite to_uint64_small in * by int_lia.
    split; [lia|]. split; [|by apply table_inv_table_after].
    destruct Hkeys as [->| ->]; [|by apply table_inv_table_after].
    apply (table_inv_mono (event_index (state_ h))); [lia|assumption].
  - cbn [is_callback table_after] in *. split; [assumption|]. split; [|assumption].
    destruct Hkeys as [->| ->]; assumption.
Qed.

Lemma run_State_inv h ops :
  State_inv (state_ h) ->
  event_index (state_ h) + callbacks ops < 2 ^ 64 ->
  State_inv (state_ (run h ops)) /\
  event_index (state_ (run h ops)) = event_index (state_ h) + callbacks ops.
Proof.
  intros Hinv. induction ops as [|op ops IH] using rev_ind; intros Hlt.
  - split; [exact Hinv|]. unfold callbacks. cbn. lia.
  - rewrite run_snoc. rewrite callbacks_snoc in *.
    pose proof (callbacks_nonneg ops).
    destruct IH as [IH1 IH2]; [destruct (is_callback op); lia|].
    split.
    + apply apply_op_State_inv; [assumption|]. intros Hc. rewrite Hc in Hlt. lia.
    + rewrite apply_op_event_index, IH2. destruct (is_callback op); [|lia].
      rewrite to_uint64_small by (destruct Hinv; int_lia). lia.
Qed.

Lemma State_inv_new : State_inv State_new.
Proof.
  split; [cbn; lia|].
  split; [exact (table_inv_new _ _ (proj1 keys_State_new))
         |exact (table_inv_new _ _ (proj2 keys_State_new))].
Qed.

(** C4 (as amended).  [Axis(a, b) == -Axis(b, a)] for every pair of keys and
    every table, and [Axis(a, b)] is 0 whenever both keys are released (a
    key outside the table counting as released).  Conversely, in a state
    reached from a new handler by fewer than 2^31 callbacks, [Axis(a, b)]
    is 0 for two different keys only if both are released; this holds of
    [state.keys] and of [state.all_keys].  ([Axis(a, a)] is 0 whether or
    not [a] is pressed.) *)
Theorem Axis_antisymmetric_zero_iff_released :
  (forall ks a b, Axis ks a b = - Axis ks b a) /\
  (forall ks a b,
      PressedEventIndex ks a = 0 -> PressedEventIndex ks b = 0 -> Axis ks a b = 0) /\
  (forall (child : C) (ops : list Op) (a b : Z),
      int32_range a -> int32_range b -> a <> b ->
      callbacks ops < 2 ^ 31 ->
      let s := state_ (run (Handler_new child) ops) in
      (Axis (keys s) a b = 0 <->
         PressedEventIndex (keys s) a = 0 /\ PressedEventIndex (keys s) b = 0) /\
      (Axis (all_keys s) a b = 0 <->
         PressedEventIndex (all_keys s) a = 0 /\ PressedEventIndex (all_keys s) b = 0)).
Proof.
  split; [exact Axis_antisymmetric|]. split; [exact Axis_released|].
  intros child ops a b Ha Hb Hab Hn.
  destruct (run_State_inv (Handler_new child) ops State_inv_new) as [(H0 & Hk & Hak) He].
  { cbn [Handler_new state_ State_new event_index]. int_lia. }
  cbn [Handler_new state_ State_new event_index] in He.
  cbv zeta. rewrite He in *.
  split; apply (Axis_zero_iff_released (0 + callbacks ops)); try assumption; lia.
Qed.

(** C5 (as amended).  For a key the tables track: a press callback stores
    the event index it has just incremented, and a release callback stores
    0, in [state.all_keys] whatever the child answered and in [state.keys]
    when the child did not capture the event; when the child captured it,
    [state.keys] is left as it was.  The stored index of a key then stays
    as it is through every operation that is not a press or a release of
    that key. *)
Theorem key_tables_record_presses :
  (forall (h : Handler C) w key sc mods,
      int32_range key ->
      tracked (keys (state_ h)) key -> tracked (all_keys (state_ h)) key ->
      let r := OnGlfwKey h w key sc GLFW_PRESS mods in
      event_index (state_ r.1) = to_uint64 (event_index (state_ h) + 1) /\
      stored (all_keys (state_ r.1)) key = Some (event_index (state_ r.1)) /\
      stored (keys (state_ r.1)) key =
        if r.2 then stored (keys (state_ h)) key else Some (event_index (state_ r.1))) /\
  (forall (h : Handler C) w key sc mods,
      int32_range key ->
      tracked (keys (state_ h)) key -> tracked (all_keys (state_ h)) key ->
      let r := OnGlfwKey h w key sc GLFW_RELEASE mods in
      stored (all_keys (state_ r.1)) key = Some 0 /\
      stored (keys (state_ r.1)) key =
        if r.2 then stored (keys (state_ h)) key else Some 0) /\
  (forall (h : Handler C) w key sc action mods,
      let r := OnGlfwKey h w key sc action mods in
      r.2 = true -> keys (state_ r.1) = keys (state_ h)) /\
  (forall (h : Handler C) (ops : list Op) key,
      int32_range key -> 0 <= key ->
      Forall key_typed ops ->
      Forall (fun op => writes_key key op = false) ops ->
      stored (keys (state_ (run h ops))) key = stored (keys (state_ h)) key /\
      stored (all_keys (state_ (run h ops))) key = stored (all_keys (state_ h)) key).
Proof.
  split; [|split; [|split]].
  - intros h w key sc mods Hk Ht Hat. cbv zeta.
    destruct (OnGlfwKey_tables h w key sc GLFW_PRESS mods) as [Hall Hkeys].
    cbv zeta in Hall, Hkeys.
    rewrite OnGlfwKey_event_index, Hall, Hkeys, !stamp_key_press.
    split; [reflexivity|]. split; [by apply stored_SetKeyEventIndex|].
    destruct (OnGlfwKey _ _ _ _ _ _).2; [reflexivity|by apply stored_SetKeyEventIndex].
  - intros h w key sc mods Hk Ht Hat. cbv zeta.
    destruct (OnGlfwKey_tables h w key sc GLFW_RELEASE mods) as [Hall Hkeys].
    cbv zeta in Hall, Hkeys. rewrite Hall, Hkeys, !stamp_key_release.
    split; [by apply stored_SetKeyEventIndex|].
    destruct (OnGlfwKey _ _ _ _ _ _).2; [reflexivity|by apply stored_SetKeyEventIndex].
  - intros h w key sc action mods. cbv zeta. intros Hc.
    destruct (OnGlfwKey_tables h w key sc action mods) as [_ Hkeys].
    cbv zeta in Hkeys. by rewrite Hkeys, Hc.
  - intros h ops key Hk H0 Hty Hw. revert h.
    induction ops as [|op ops IH]; intros h; [split; reflexivity|].
    inversion Hty; inversion Hw; subst. rewrite run_cons.
    destruct (IH ltac:(assumption) ltac:(assumption) (apply_op h op)) as [-> ->].
    destruct (apply_op_tables h op) as [-> Hkeys].
    split; [|by apply stored_table_after].
    destruct Hkeys as [->| ->]; [reflexivity|by apply stored_table_after].
Qed.

(** *** Which operations are defined *)

Lemma stamp_key_checked_ok ks key action event_index :
  stamp_key_checked ks key action event_index = Some (stamp_key ks key action event_index).
Proof.
  unfold stamp_key_checked, stamp_key.
  destruct (action =? GLFW_PRESS); [apply SetKeyEventIndex_in_bounds|].
  destruct (action =? GLFW_RELEASE); [apply SetKeyEventIndex_in_bounds|reflexivity].
Qed.

Lemma OnGlfwKey_checked_ok (h : Handler C) w key sc action mods :
  OnGlfwKey_checked h w key sc action mods = Some (OnGlfwKey h w key sc action mods).
Proof.
  unfold OnGlfwKey_checked, OnGlfwKey.
  destruct (child_OnGlfwKey (child_ h) w key sc action mods) as [child capture].
  cbv zeta. destruct capture; cbn [negb].
  - rewrite stamp_key_checked_ok. reflexivity.
  - rewrite stamp_key_checked_ok. cbn [fmap option_fmap option_map].
    rewrite stamp_key_checked_ok. reflexivity.
Qed.

Lemma ButtonToBits_checked_cases button :
  ButtonToBits_checked button =
    if (0 <=? button) && (button <=? 31) then Some (ButtonToBits button) else None.
Proof. reflexivity. Qed.

Lemma OnGlfwMouseButton_checked_cases (h : Handler C) w button action mods :
  OnGlfwMouseButton_checked h w button action mods =
    if callback_defined (MouseButtonAction w button action mods)
    then Some (OnGlfwMouseButton h w button action mods)
    else None.
Proof.
  unfold OnGlfwMouseButton_checked, OnGlfwMouseButton, callback_defined.
  destruct (child_OnGlfwMouseButton (child_ h) w button action mods) as [child capture].
  cbv zeta. rewrite ButtonToBits_checked_cases.
  destruct (action =? GLFW_PRESS), (action =? GLFW_RELEASE),
           ((0 <=? button) && (button <=? 31)); reflexivity.
Qed.

Lemma dispatch_checked_cases (h : Handler C) cb :
  dispatch_checked h cb = if callback_defined cb then Some (dispatch h cb) else None.
Proof.
  destruct cb; cbn [dispatch_checked dispatch]; try reflexivity.
  - apply OnGlfwMouseButton_checked_cases.
  - apply OnGlfwKey_checked_ok.
Qed.

Lemma apply_op_checked_cases (h : Handler C) op :
  apply_op_checked h op = if op_defined op then Some (apply_op h op) else None.
Proof.
  destruct op as [cb|]; cbn [apply_op_checked apply_op op_defined]; [|reflexivity].
  rewrite dispatch_checked_cases. by destruct (callback_defined cb).
Qed.

Lemma run_checked_defined ops : forall h : Handler C,
  Forall (fun op => op_defined op = true) ops -> run_checked h ops = Some (run h ops).
Proof.
  induction ops as [|op ops IH]; intros h Hall; [reflexivity|].
  apply Forall_cons in Hall. destruct Hall as [Hop Hall].
  cbn [run_checked]. rewrite apply_op_checked_cases, Hop, run_cons. by apply IH.
Qed.

Lemma run_checked_undefined ops : forall h : Handler C,
  Exists (fun op => op_defined op = false) ops -> run_checked h ops = None.
Proof.
  induction ops as [|op ops IH]; intros h Hex; [by apply Exists_nil in Hex|].
  cbn [run_checked]. rewrite apply_op_checked_cases.
  destruct (op_defined op) eqn:Hop; [|reflexivity].
  apply IH. apply Exists_cons in Hex. destruct Hex as [Hex|Hex]; [congruence|exact Hex].
Qed.

Lemma Axis_checked_ok ks a b : Axis_checked ks a b = Some (Axis ks a b).
Proof.
  unfold Axis_checked. by rewrite !PressedEventIndex_in_bounds.
Qed.

(** C9 (as amended).  The key operations never fail and never touch memory
    outside the table: with the vector access checked, [PressedEventIndex],
    [IsPressed], [Axis] and [SetKeyEventIndex] still return, and return what
    the unchecked code returns, for every key and every table.  For a key
    code outside the tracked range, negative codes included,
    [PressedEventIndex] is 0, [IsPressed] is false and [SetKeyEventIndex]
    changes nothing; and a key callback for such a code leaves both key
    tables of the handler as they were, while it is still counted and logged
    like any other.  Of the handler's operations, [ClearEvents] and every
    callback return on every input but one: a press or release of a mouse
    button outside 0..31, for which [1 << button] is undefined, as it is in
    [HasGlfwButton]; so a sequence of operations is carried out to its end
    exactly when it holds no such mouse-button callback.  A toplevel callback
    needs the user pointer of the window to be set, and the constructor of
    [KeyboardState] a [max_key] from -1 to [INT32_MAX] - 1. *)
Theorem input_operations_total_but_shift :
  (forall ks key v a b,
      PressedEventIndex_checked ks key = Some (PressedEventIndex ks key) /\
      IsPressed_checked ks key = Some (IsPressed ks key) /\
      Axis_checked ks a b = Some (Axis ks a b) /\
      SetKeyEventIndex_checked ks key v = Some (SetKeyEventIndex ks key v)) /\
  (forall ks key v,
      int32_range key -> size ks <= 2 ^ 31 -> ~ tracked ks key ->
      PressedEventIndex ks key = 0 /\ IsPressed ks key = false /\
      SetKeyEventIndex ks key v = ks) /\
  (forall (h : Handler C) w key sc action mods,
      int32_range key ->
      size (keys (state_ h)) <= 2 ^ 31 -> size (all_keys (state_ h)) <= 2 ^ 31 ->
      ~ tracked (keys (state_ h)) key -> ~ tracked (all_keys (state_ h)) key ->
      let r := OnGlfwKey h w key sc action mods in
      OnGlfwKey_checked h w key sc action mods = Some r /\
      keys (state_ r.1) = keys (state_ h) /\
      all_keys (state_ r.1) = all_keys (state_ h) /\
      event_index (state_ r.1) = to_uint64 (event_index (state_ h) + 1) /\
      exists e, logged (state_ r.1) = Some e /\ type e = kKey) /\
  (forall (h : Handler C) cb,
      dispatch_checked h cb =
        if callback_defined cb then Some (dispatch h cb) else None) /\
  (forall (h : Handler C) w button action mods,
      (action = GLFW_PRESS \/ action = GLFW_RELEASE) ->
      (button < 0 \/ 31 < button) ->
      OnGlfwMouseButton_checked h w button action mods = None) /\
  (forall mask button,
      HasGlfwButton_checked mask button =
        if (0 <=? button) && (button <=? 31)
        then Some (HasGlfwButton mask button) else None) /\
  (forall (h : Handler C) ops,
      (Forall (fun op => op_defined op = true) ops ->
       run_checked h ops = Some (run h ops)) /\
      (Exists (fun op => op_defined op = false) ops -> run_checked h ops = None)) /\
  (forall (h : Handler C) cb,
      toplevel_callback None cb = None /\
      toplevel_callback (Some h) cb =
        if callback_defined cb then Some (apply_op h (Deliver cb)) else None) /\
  (forall max_key,
      (exists ks, KeyboardState_new max_key = Some ks) <-> -1 <= max_key < 2 ^ 31 - 1).
Proof.
  split; [|split; [|split; [|split; [|split; [|split; [|split; [|split]]]]]]].
  - intros ks key v a b. split; [apply PressedEventIndex_in_bounds|].
    split; [unfold IsPressed_checked; by rewrite PressedEventIndex_in_bounds|].
    split; [apply Axis_checked_ok|apply SetKeyEventIndex_in_bounds].
  - exact untracked_is_released.
  - intros h w key sc action mods Hk Hs Has Ht Hat. cbv zeta.
    split; [apply OnGlfwKey_checked_ok|].
    destruct (OnGlfwKey_tables h w key sc action mods) as [Hall Hkeys].
    destruct (OnGlfwKey_events h w key sc action mods) as (_ & e & _ & Hty & Hlog & _).
    cbv zeta in Hall, Hkeys.
    rewrite OnGlfwKey_event_index, Hall, Hkeys, !stamp_key_untracked by assumption.
    split; [by destruct (OnGlfwKey _ _ _ _ _ _).2|].
    split; [reflexivity|]. split; [reflexivity|].
    exists e. split; [|exact Hty]. unfold logged. rewrite Hlog. apply last_snoc.
  - exact dispatch_checked_cases.
  - intros h w button action mods Ha Hb. rewrite OnGlfwMouseButton_checked_cases.
    unfold callback_defined.
    assert (((0 <=? button) && (button <=? 31)) = false) as ->.
    { apply andb_false_iff. destruct Hb; [left; by apply Z.leb_gt|right; by apply Z.leb_gt]. }
    destruct Ha as [-> | ->]; reflexivity.
  - intros mask button. unfold HasGlfwButton_checked. rewrite ButtonToBits_checked_cases.
    by destruct ((0 <=? button) && (button <=? 31)).
  - intros h ops. split; [apply run_checked_defined|apply run_checked_undefined].
  - intros h cb. split; [reflexivity|]. cbn [toplevel_callback apply_op].
    rewrite dispatch_checked_cases. by destruct (callback_defined cb).
  - intros max_key. unfold KeyboardState_new.
    destruct (Z.leb_spec (-1) max_key), (Z.ltb_spec max_key (2 ^ 31 - 1)); cbn [andb];
      split; try (intros [ks Hks]; discriminate Hks); try lia; intros _; by eexists.
Qed.

End InputPipeline.

(** ** The input pipeline on concrete runs *)

(** The scenario of the specification: press A, press B, release A; B is the
    more recent before and after the release. *)
Example Axis_scenario :
  let before := state_ (run (Handler_new NoOp) [press GLFW_KEY_S; press GLFW_KEY_W]) in
  let after := state_ (run (Handler_new NoOp)
                         [press GLFW_KEY_S; press GLFW_KEY_W; release GLFW_KEY_S]) in
  Axis (keys before) GLFW_KEY_S GLFW_KEY_W = 1 /\
  Axis (keys after) GLFW_KEY_S GLFW_KEY_W = 1.
Proof. vm_compute. split; reflexivity. Qed.

Example cursor_delta_scenario :
  let h := run (Handler_new NoOp) [move_to 3 4] in
  (cp_xoffset <$> (match logged (state_ h) with
                   | Some {| data := e_cursor_pos cp |} => Some cp
                   | _ => None
                   end)) = Some double_zero /\
  (match logged (state_ (run h [move_to 5 1])) with
   | Some {| data := e_cursor_pos cp |} => Some (cp_xoffset cp, cp_yoffset cp)
   | _ => None
   end) = Some (double_of_int 2, double_of_int (-3)).
Proof. vm_compute. split; reflexivity. Qed.

Lemma event_index_counts_callbacks_witness :
  uint64_range (event_index (state_ (Handler_new NoOp))) /\
  event_index (state_ (run (Handler_new NoOp) [press GLFW_KEY_W; Clear; scroll_up])) =
    (0 + 2) mod 2 ^ 64 /\
  (0 + 2 < 2 ^ 64 ->
   event_index (state_ (run (Handler_new NoOp) [press GLFW_KEY_W; Clear; scroll_up])) = 0 + 2).
Proof.
  assert (Hr : uint64_range (event_index (state_ (Handler_new NoOp)))).
  { vm_compute. split; [discriminate|reflexivity]. }
  split; [exact Hr|].
  exact (event_index_counts_callbacks (Handler_new NoOp)
           [press GLFW_KEY_W; Clear; scroll_up] Hr).
Defined.

(** C1 as stated fails once the counter is at the end of its range: one more
    callback takes it from 2^64 - 1 to 0, not to 2^64. *)
Lemma event_index_wraps_counterexample :
  event_index (state_ h_last) = 2 ^ 64 - 1 /\
  event_index (state_ (run h_last [Deliver (WindowFocus 0 1)])) = 0 /\
  event_index (state_ (run h_last [Deliver (WindowFocus 0 1)])) <>
    event_index (state_ h_last) + callbacks [Deliver (WindowFocus 0 1)].
Proof. vm_compute. repeat split; discriminate. Qed.

Lemma capture_routes_events_witness :
  let h := run (Handler_new captures_keyboard) [press GLFW_KEY_S; scroll_up] in
  reachable h /\
  events (state_ h) = filter uncaptured (all_events (state_ h)) /\
  (forall e, e ∈ events (state_ h) -> child_wants_capture e = false) /\
  (forall e, e ∈ events (state_ h) -> e ∈ all_events (state_ h)).
Proof.
  assert (Hr : reachable (run (Handler_new captures_keyboard)
                            [press GLFW_KEY_S; scroll_up])).
  { exact (reachable_op _ scroll_up
             (reachable_op _ (press GLFW_KEY_S) (reachable_new captures_keyboard))). }
  split; [exact Hr|].
  exact (proj2 capture_routes_events _ Hr).
Defined.

(** A captured press is logged in [all_events] and stamps [all_keys] only. *)
Example capture_scenario :
  let s := state_ (run (Handler_new captures_keyboard) [press GLFW_KEY_S; scroll_up]) in
  type <$> all_events s = [kKey; kScroll] /\ type <$> events s = [kScroll] /\
  stored (keys s) GLFW_KEY_S = Some 0 /\ stored (all_keys s) GLFW_KEY_S = Some 1 /\
  event_index s = 2.
Proof. vm_compute. repeat split; reflexivity. Qed.

Lemma Axis_antisymmetric_zero_iff_released_witness :
  let ops := [press GLFW_KEY_S; press GLFW_KEY_W; release GLFW_KEY_S] in
  let s := state_ (run (Handler_new NoOp) ops) in
  (PressedEventIndex (keys State_new) GLFW_KEY_S = 0 /\
   PressedEventIndex (keys State_new) GLFW_KEY_W = 0 /\
   Axis (keys State_new) GLFW_KEY_S GLFW_KEY_W = 0) /\
  (int32_range GLFW_KEY_S /\ int32_range GLFW_KEY_W /\ GLFW_KEY_S <> GLFW_KEY_W /\
   callbacks ops < 2 ^ 31 /\
   (Axis (keys s) GLFW_KEY_S GLFW_KEY_W = 0 <->
      PressedEventIndex (keys s) GLFW_KEY_S = 0 /\ PressedEventIndex (keys s) GLFW_KEY_W = 0) /\
   (Axis (all_keys s) GLFW_KEY_S GLFW_KEY_W = 0 <->
      PressedEventIndex (all_keys s) GLFW_KEY_S = 0 /\
      PressedEventIndex (all_keys s) GLFW_KEY_W = 0)).
Proof.
  assert (Hs : int32_range GLFW_KEY_S) by (vm_compute; split; [discriminate|reflexivity]).
  assert (Hw : int32_range GLFW_KEY_W) by (vm_compute; split; [discriminate|reflexivity]).
  assert (Hne : GLFW_KEY_S <> GLFW_KEY_W) by discriminate.
  assert (Hn : callbacks [press GLFW_KEY_S; press GLFW_KEY_W; release GLFW_KEY_S] < 2 ^ 31)
    by reflexivity.
  assert (H0s : PressedEventIndex (keys State_new) GLFW_KEY_S = 0) by reflexivity.
  assert (H0w : PressedEventIndex (keys State_new) GLFW_KEY_W = 0) by reflexivity.
  split.
  - split; [exact H0s|]. split; [exact H0w|].
    exact (proj1 (proj2 (Axis_antisymmetric_zero_iff_released (C:=NoOpHandler)))
             _ _ _ H0s H0w).
  - split; [exact Hs|]. split; [exact Hw|]. split; [exact Hne|]. split; [exact Hn|].
    exact (proj2 (proj2 Axis_antisymmetric_zero_iff_released)
             NoOp _ _ _ Hs Hw Hne Hn).
Defined.

(** C4 as stated fails.  A key compared with itself gives 0 while it is
    pressed; and, the indices being cut to an [int], so do two different keys
    when one is released and the other was pressed by the 2^32-th callback. *)
Lemma Axis_zero_while_pressed_counterexample :
  (let s := state_ (run (Handler_new NoOp) [press GLFW_KEY_W]) in
   Axis (keys s) GLFW_KEY_W GLFW_KEY_W = 0 /\
   PressedEventIndex (keys s) GLFW_KEY_W = 1 /\
   ~ (Axis (keys s) GLFW_KEY_W GLFW_KEY_W = 0 <->
      PressedEventIndex (keys s) GLFW_KEY_W = 0 /\
      PressedEventIndex (keys s) GLFW_KEY_W = 0)) /\
  (let s := state_ (run h_2_32 [press GLFW_KEY_W]) in
   Axis (keys s) GLFW_KEY_W GLFW_KEY_S = 0 /\
   PressedEventIndex (keys s) GLFW_KEY_W = 2 ^ 32 /\
   PressedEventIndex (keys s) GLFW_KEY_S = 0 /\
   ~ (Axis (keys s) GLFW_KEY_W GLFW_KEY_S = 0 <->
      PressedEventIndex (keys s) GLFW_KEY_W = 0 /\
      PressedEventIndex (keys s) GLFW_KEY_S = 0)).
Proof.
  split; cbv zeta.
  - assert (E : PressedEventIndex
                  (keys (state_ (run (Handler_new NoOp) [press GLFW_KEY_W]))) GLFW_KEY_W = 1)
      by reflexivity.
    assert (A : Axis (keys (state_ (run (Handler_new NoOp) [press GLFW_KEY_W])))
                  GLFW_KEY_W GLFW_KEY_W = 0) by reflexivity.
    split; [exact A|]. split; [exact E|].
    intros [Hz _]. destruct (Hz A) as [Hz1 _]. rewrite E in Hz1. discriminate.
  - assert (E : PressedEventIndex
                  (keys (state_ (run h_2_32 [press GLFW_KEY_W]))) GLFW_KEY_W = 2 ^ 32)
      by (vm_compute; reflexivity).
    assert (A : Axis (keys (state_ (run h_2_32 [press GLFW_KEY_W])))
                  GLFW_KEY_W GLFW_KEY_S = 0) by (vm_compute; reflexivity).
    split; [exact A|]. split; [exact E|]. split; [vm_compute; reflexivity|].
    intros [Hz _]. destruct (Hz A) as [Hz1 _]. rewrite E in Hz1. discriminate.
Qed.

Lemma key_tables_record_presses_witness :
  let h := Handler_new NoOp in
  let hc := Handler_new captures_keyboard in
  let h1 := run h [press GLFW_KEY_W] in
  let later := [scroll_up; press GLFW_KEY_S; Clear; move_to 1 2; release GLFW_KEY_S] in
  (int32_range GLFW_KEY_W /\
   tracked (keys (state_ h)) GLFW_KEY_W /\ tracked (all_keys (state_ h)) GLFW_KEY_W) /\
  (let r := OnGlfwKey h 0 GLFW_KEY_W 0 GLFW_PRESS 0 in
   event_index (state_ r.1) = to_uint64 (event_index (state_ h) + 1) /\
   stored (all_keys (state_ r.1)) GLFW_KEY_W = Some (event_index (state_ r.1)) /\
   stored (keys (state_ r.1)) GLFW_KEY_W =
     if r.2 then stored (keys (state_ h)) GLFW_KEY_W else Some (event_index (state_ r.1))) /\
  (let r := OnGlfwKey h1 0 GLFW_KEY_W 0 GLFW_RELEASE 0 in
   tracked (keys (state_ h1)) GLFW_KEY_W /\ tracked (all_keys (state_ h1)) GLFW_KEY_W /\
   stored (all_keys (state_ r.1)) GLFW_KEY_W = Some 0 /\
   stored (keys (state_ r.1)) GLFW_KEY_W =
     if r.2 then stored (keys (state_ h1)) GLFW_KEY_W else Some 0) /\
  (let r := OnGlfwKey hc 0 GLFW_KEY_W 0 GLFW_PRESS 0 in
   r.2 = true /\ keys (state_ r.1) = keys (state_ hc)) /\
  (0 <= GLFW_KEY_W /\ Forall key_typed later /\
   Forall (fun op => writes_key GLFW_KEY_W op = false) later /\
   stored (keys (state_ (run h1 later))) GLFW_KEY_W = stored (keys (state_ h1)) GLFW_KEY_W /\
   stored (all_keys (state_ (run h1 later))) GLFW_KEY_W =
     stored (all_keys (state_ h1)) GLFW_KEY_W).
Proof.
  cbv zeta.
  assert (Hk : int32_range GLFW_KEY_W) by (vm_compute; split; [discriminate|reflexivity]).
  assert (Hs : int32_range GLFW_KEY_S) by (vm_compute; split; [discriminate|reflexivity]).
  assert (Ht : tracked (keys (state_ (Handler_new NoOp))) GLFW_KEY_W)
    by (vm_compute; split; [discriminate|reflexivity]).
  assert (Hat : tracked (all_keys (state_ (Handler_new NoOp))) GLFW_KEY_W)
    by (vm_compute; split; [discriminate|reflexivity]).
  assert (Ht1 : tracked (keys (state_ (run (Handler_new NoOp) [press GLFW_KEY_W]))) GLFW_KEY_W)
    by (vm_compute; split; [discriminate|reflexivity]).
  assert (Hat1 : tracked (all_keys (state_ (run (Handler_new NoOp) [press GLFW_KEY_W])))
                   GLFW_KEY_W)
    by (vm_compute; split; [discriminate|reflexivity]).
  assert (Hc : (OnGlfwKey (Handler_new captures_keyboard) 0 GLFW_KEY_W 0 GLFW_PRESS 0).2 = true)
    by reflexivity.
  assert (H0 : 0 <= GLFW_KEY_W) by discriminate.
  assert (Hty : Forall key_typed
                  [scroll_up; press GLFW_KEY_S; Clear; move_to 1 2; release GLFW_KEY_S]).
  { repeat first [apply Forall_nil_2 | apply Forall_cons_2]; first [exact Hs | exact I]. }
  assert (Hw : Forall (fun op => writes_key GLFW_KEY_W op = false)
                 [scroll_up; press GLFW_KEY_S; Clear; move_to 1 2; release GLFW_KEY_S]).
  { repeat first [apply Forall_nil_2 | apply Forall_cons_2]; reflexivity. }
  pose proof (key_tables_record_presses (C:=NoOpHandler)) as (Hpress & Hrelease & _ & Hkeep).
  pose proof (key_tables_record_presses (C:=ToImGui)) as (_ & _ & Hcap & _).
  split; [auto|].
  split; [exact (Hpress (Handler_new NoOp) 0 GLFW_KEY_W 0 0 Hk Ht Hat)|].
  split; [split; [exact Ht1|]; split; [exact Hat1|];
          exact (Hrelease _ 0 GLFW_KEY_W 0 0 Hk Ht1 Hat1)|].
  split; [split; [exact Hc|];
          exact (Hcap (Handler_new captures_keyboard) 0 GLFW_KEY_W 0 GLFW_PRESS 0 Hc)|].
  split; [exact H0|]. split; [exact Hty|]. split; [exact Hw|].
  exact (Hkeep _ _ GLFW_KEY_W Hk H0 Hty Hw).
Defined.

(** C5 as stated fails in its last clause: a second press of a key that was
    not released in between stores its own, newer index. *)
Lemma repeated_press_restamps_counterexample :
  let h1 := run (Handler_new NoOp) [press GLFW_KEY_W] in
  let later := [press GLFW_KEY_W] in
  stored (keys (state_ h1)) GLFW_KEY_W = Some 1 /\
  Forall (fun op => match op with
                    | Deliver (KeyAction _ k _ action _) =>
                        ~ (k = GLFW_KEY_W /\ action = GLFW_RELEASE)
                    | _ => True
                    end) later /\
  stored (keys (state_ (run h1 later))) GLFW_KEY_W = Some 2 /\
  stored (all_keys (state_ (run h1 later))) GLFW_KEY_W = Some 2 /\
  stored (keys (state_ (run h1 later))) GLFW_KEY_W <> stored (keys (state_ h1)) GLFW_KEY_W.
Proof.
  cbv zeta. split; [reflexivity|]. split.
  - apply Forall_cons_2; [|apply Forall_nil_2]. intros [_ E]. discriminate E.
  - split; [reflexivity|]. split; [reflexivity|]. vm_compute. discriminate.
Qed.

Lemma input_operations_total_but_shift_witness :
  let ks := keys State_new in
  let h := Handler_new NoOp in
  let ops := [press GLFW_KEY_W; Deliver (MouseButtonAction 0 31 GLFW_PRESS 0);
              Deliver (MouseButtonAction 0 32 GLFW_REPEAT 0); Clear] in
  (int32_range (-1) /\ size ks <= 2 ^ 31 /\ ~ tracked ks (-1) /\
   PressedEventIndex ks (-1) = 0 /\ IsPressed ks (-1) = false /\
   SetKeyEventIndex ks (-1) 7 = ks) /\
  (int32_range 349 /\
   size (keys (state_ h)) <= 2 ^ 31 /\ size (all_keys (state_ h)) <= 2 ^ 31 /\
   ~ tracked (keys (state_ h)) 349 /\ ~ tracked (all_keys (state_ h)) 349 /\
   let r := OnGlfwKey h 0 349 0 GLFW_PRESS 0 in
   OnGlfwKey_checked h 0 349 0 GLFW_PRESS 0 = Some r /\
   keys (state_ r.1) = keys (state_ h) /\
   all_keys (state_ r.1) = all_keys (state_ h) /\
   event_index (state_ r.1) = to_uint64 (event_index (state_ h) + 1) /\
   exists e, logged (state_ r.1) = Some e /\ type e = kKey) /\
  (Forall (fun op => op_defined op = true) ops /\
   run_checked h ops = Some (run h ops)).
Proof.
  cbv zeta.
  assert (Hm : int32_range (-1)) by (vm_compute; split; [discriminate|reflexivity]).
  assert (Hk : int32_range 349) by (vm_compute; split; [discriminate|reflexivity]).
  assert (Hs : size (keys State_new) <= 2 ^ 31) by (vm_compute; discriminate).
  assert (Has : size (all_keys State_new) <= 2 ^ 31) by (vm_compute; discriminate).
  assert (Hu : ~ tracked (keys State_new) (-1)).
  { intros [Hlo _]. vm_compute in Hlo. apply Hlo. reflexivity. }
  assert (Ht : ~ tracked (keys State_new) 349).
  { intros [_ Hhi]. vm_compute in Hhi. discriminate Hhi. }
  assert (Hat : ~ tracked (all_keys State_new) 349).
  { intros [_ Hhi]. vm_compute in Hhi. discriminate Hhi. }
  assert (Hops : Forall (fun op => op_defined op = true)
            [press GLFW_KEY_W; Deliver (MouseButtonAction 0 31 GLFW_PRESS 0);
             Deliver (MouseButtonAction 0 32 GLFW_REPEAT 0); Clear]).
  { repeat first [apply Forall_nil_2 | apply Forall_cons_2]; reflexivity. }
  pose proof (input_operations_total_but_shift (C:=NoOpHandler))
    as (_ & Hout & Hcb & _ & _ & _ & Hrun & _ & _).
  split; [|split].
  - split; [exact Hm|]. split; [exact Hs|]. split; [exact Hu|].
    exact (Hout (keys State_new) (-1) 7 Hm Hs Hu).
  - split; [exact Hk|]. split; [exact Hs|]. split; [exact Has|].
    split; [exact Ht|]. split; [exact Hat|].
    exact (Hcb (Handler_new NoOp) 0 349 0 GLFW_PRESS 0 Hk Hs Has Ht Hat).
  - split; [exact Hops|]. exact (proj1 (Hrun (Handler_new NoOp) _) Hops).
Defined.

(** C9 as stated fails in its last clause: not every operation returns on
    every input.  A press of mouse button 32, or a release of button -1,
    shifts 1 by the button, which is undefined; so does [HasGlfwButton] for
    such a button; and one such callback stops the sequence it is in. *)
Lemma mouse_button_shift_counterexample :
  let h := Handler_new NoOp in
  OnGlfwMouseButton_checked h 0 32 GLFW_PRESS 0 = None /\
  OnGlfwMouseButton_checked h 0 (-1) GLFW_RELEASE 0 = None /\
  HasGlfwButton_checked (mouse_buttons (state_ h)) 32 = None /\
  run_checked h [press GLFW_KEY_W; Deliver (MouseButtonAction 0 32 GLFW_PRESS 0); Clear]
    = None /\
  ~ (forall cb, exists r, dispatch_checked h cb = Some r).
Proof.
  cbv zeta. split; [reflexivity|]. split; [reflexivity|]. split; [reflexivity|].
  split; [reflexivity|].
  intros Hall. destruct (Hall (MouseButtonAction 0 32 GLFW_PRESS 0)) as [r Hr].
  discriminate Hr.
Qed.


Lemma focus_gain_forgets_mouse_position_witness :
  let h := run (Handler_new NoOp) [move_to 3 4] in
  let between := [press GLFW_KEY_W; Deliver (WindowFocus 0 0); scroll_up] in
  (1 <> 0 /\
   mouse_x (state_ (OnGlfwWindowFocus h 0 1).1) = kDoubleInf /\
   mouse_y (state_ (OnGlfwWindowFocus h 0 1).1) = kDoubleInf) /\
  (mouse_x (state_ (OnGlfwWindowFocus h 0 0).1) = mouse_x (state_ h) /\
   mouse_y (state_ (OnGlfwWindowFocus h 0 0).1) = mouse_y (state_ h)) /\
  (Forall (fun op => is_cursor_pos op = false) between /\
   exists e cp,
     logged (state_ (OnGlfwCursorPos (run (OnGlfwWindowFocus h 0 1).1 between) 0
                       (double_of_int 5) (double_of_int 1)).1) = Some e /\
     data e = e_cursor_pos cp /\
     cp_xoffset cp = double_zero /\ cp_yoffset cp = double_zero).
Proof.
  cbv zeta.
  assert (H1 : 1 <> 0) by discriminate.
  assert (Hb : Forall (fun op => is_cursor_pos op = false)
                 [press GLFW_KEY_W; Deliver (WindowFocus 0 0); scroll_up]).
  { repeat first [apply Forall_nil_2 | apply Forall_cons_2]; reflexivity. }
  pose proof (focus_gain_forgets_mouse_position (C:=NoOpHandler)
                (run (Handler_new NoOp) [move_to 3 4]) 0 1) as (Hgain & _ & Hnext).
  pose proof (focus_gain_forgets_mouse_position (C:=NoOpHandler)
                (run (Handler_new NoOp) [move_to 3 4]) 0 0) as (_ & Hloss & _).
  split; [split; [exact H1|exact (Hgain H1)]|].
  split; [exact (Hloss eq_refl)|].
  split; [exact Hb|].
  exact (Hnext H1 _ 0 (double_of_int 5) (double_of_int 1) Hb).
Defined.

(** * Properties of the draw translator *)

Section Splice.
Context {A : Type}.
Implicit Types dst src : list A.
Local Open Scope nat_scope.

Lemma length_splice dst off src :
  off + length src <= length dst -> length (splice dst off src) = length dst.
Proof.
  intros. unfold splice. rewrite !length_app, length_take, length_drop. lia.
Qed.

Lemma splice_nil dst off : splice dst off [] = dst.
Proof.
  unfold splice. cbn [length app]. rewrite Nat.add_0_r. apply take_drop.
Qed.

Lemma take_splice dst off src :
  off + length src <= length dst ->
  take (off + length src) (splice dst off src) = take off dst ++ src.
Proof.
  intros. unfold splice. rewrite app_assoc.
  apply take_app_length'. rewrite length_app, length_take. lia.
Qed.

Lemma splice_splice dst off s1 s2 :
  off + length s1 + length s2 <= length dst ->
  splice (splice dst off s1) (off + length s1) s2 = splice dst off (s1 ++ s2).
Proof.
  intros. unfold splice at 1. rewrite take_splice by lia.
  unfold splice. rewrite length_app, <- !app_assoc. do 3 f_equal.
  rewrite (app_assoc (take off dst)).
  rewrite drop_app_ge by (rewrite length_app, length_take; lia).
  rewrite length_app, length_take, drop_drop. f_equal. lia.
Qed.

Lemma insert_splice dst i a : i < length dst -> <[i:=a]> dst = splice dst i [a].
Proof.
  intros. unfold splice. cbn [length app]. rewrite insert_take_drop by lia.
  replace (i + 1) with (S i) by lia. reflexivity.
Qed.

Lemma memcpy_at_splice dst (off : Z) src :
  (0 <= off)%Z -> (off + Z.of_nat (length src) <= Z.of_nat (length dst))%Z ->
  memcpy_at dst off src = Some (splice dst (Z.to_nat off) src).
Proof.
  intros H0 Hle. unfold memcpy_at.
  destruct (Z.leb_spec 0 off); [|lia].
  destruct (Z.leb_spec (off + Z.of_nat (length src)) (Z.of_nat (length dst))); [|lia].
  reflexivity.
Qed.

Lemma store_at_splice dst (i : Z) a :
  (0 <= i < Z.of_nat (length dst))%Z ->
  store_at dst i a = Some (splice dst (Z.to_nat i) [a]).
Proof.
  intros Hi. unfold store_at.
  destruct (Z.leb_spec 0 i); [|lia].
  destruct (Z.ltb_spec i (Z.of_nat (length dst))); [|lia].
  cbn [andb]. rewrite insert_splice by lia. reflexivity.
Qed.

End Splice.

(** The rewriting loop writes the rebased indices where [memcpy] would have
    written the raw ones. *)
Lemma rewrite_indices_splice src : forall index_data i_ind i_vert i,
  0 <= i_ind + i ->
  i_ind + i + Z.of_nat (length src) <= Z.of_nat (length index_data) ->
  rewrite_indices index_data i_ind i_vert i src =
    Some (splice index_data (Z.to_nat (i_ind + i))
            ((fun idx => to_uint16 (idx + i_vert)) <$> src)).
Proof.
  induction src as [|idx rest IH]; intros index_data i_ind i_vert i H0 Hle.
  - cbn. by rewrite splice_nil.
  - cbn [rewrite_indices]. cbn [length] in Hle.
    rewrite store_at_splice by lia.
    rewrite IH; [|lia|].
    2:{ rewrite length_splice; [lia|]. cbn [length]. lia. }
    f_equal. cbn [fmap list_fmap].
    replace (Z.to_nat (i_ind + (i + 1)))
      with (Z.to_nat (i_ind + i) + length [to_uint16 (idx + i_vert)])%nat
      by (cbn [length]; lia).
    rewrite splice_splice; [reflexivity|].
    cbn [length]. rewrite length_fmap. lia.
Qed.

Lemma length_resize {A} (d : A) n v : length (resize d n v) = Z.to_nat n.
Proof. unfold resize. rewrite length_app, length_take, length_replicate. lia. Qed.

Lemma length_all_vertices lists :
  Z.of_nat (length (all_vertices lists)) = vertex_total lists.
Proof.
  unfold all_vertices. induction lists as [|l rest IH]; [reflexivity|].
  cbn [fmap list_fmap concat vertex_total foldr]. rewrite length_app.
  unfold vertex_total in IH. fold (fmap VtxBuffer rest). lia.
Qed.

Lemma length_reindex rebase lists : forall first offset,
  Z.of_nat (length (reindex rebase first offset lists)) = index_total lists.
Proof.
  induction lists as [|l rest IH]; intros first offset; [reflexivity|].
  cbn [reindex index_total foldr]. rewrite length_app.
  specialize (IH false (offset + Z.of_nat (length (VtxBuffer l)))).
  unfold index_total in IH.
  destruct first; rewrite ?length_fmap; lia.
Qed.

Lemma vertex_total_nonneg lists : 0 <= vertex_total lists.
Proof. rewrite <- length_all_vertices. lia. Qed.

Lemma index_total_nonneg lists : 0 <= index_total lists.
Proof. rewrite <- (length_reindex (fun _ i => i) lists true 0). lia. Qed.

(** [count_renderables] adds up the sizes of the command buffers. *)
Lemma count_renderables_from n lists :
  foldl (fun n l => n + Z.of_nat (length (CmdBuffer l))) n lists =
    n + count_renderables lists.
Proof.
  unfold count_renderables. revert n.
  induction lists as [|l rest IH]; intros n; cbn [foldl]; [lia|].
  rewrite (IH (n + _)), (IH (0 + _)). lia.
Qed.

Lemma count_renderables_cons l rest :
  count_renderables (l :: rest) = Z.of_nat (length (CmdBuffer l)) + count_renderables rest.
Proof.
  unfold count_renderables at 1. cbn [foldl]. rewrite count_renderables_from. lia.
Qed.

Lemma count_renderables_nonneg lists : 0 <= count_renderables lists.
Proof.
  induction lists as [|l rest IH]; [reflexivity|]. rewrite count_renderables_cons. lia.
Qed.

Lemma quiet_nil : quiet [].
Proof. split; reflexivity. Qed.

Lemma quiet_app a b : quiet a -> quiet b -> quiet (a ++ b).
Proof. intros [Ha Ha'] [Hb Hb']. split; rewrite filter_app; [rewrite Ha, Hb|rewrite Ha', Hb']; done. Qed.

(** ** The loop over the commands of one list *)

Lemma emit_cmds_shape pool height_px cmds : forall f f',
  emit_cmds pool height_px f cmds = Some f' ->
  f_vertex_data f' = f_vertex_data f /\ f_index_data f' = f_index_data f /\
  i_vert f' = i_vert f /\ i_ind f' = i_ind f /\
  exists extra, f_calls f' = f_calls f ++ extra /\ quiet extra.
Proof.
  induction cmds as [|cmd rest IH]; intros f f' Hrun; cbn [emit_cmds] in Hrun.
  - injection Hrun as <-. repeat split; try reflexivity.
    exists []. split; [by rewrite app_nil_r|apply quiet_nil].
  - destruct (emit_cmd pool height_px f cmd) as [f1|] eqn:Hcmd; [|discriminate].
    destruct (IH _ _ Hrun) as (Hv & Hi & Hiv & Hii & extra & Hcalls & Hq).
    unfold emit_cmd in Hcmd.
    destruct (UserCallback cmd) as [callback|].
    + injection Hcmd as <-. cbn in *. repeat split; try assumption.
      eexists. rewrite Hcalls, <- app_assoc. split; [reflexivity|].
      apply quiet_app; [split; reflexivity|assumption].
    + destruct (pool !! Z.to_nat (i_renderable f)) as [mat|]; [|discriminate].
      injection Hcmd as <-. cbn in *. repeat split; try assumption.
      eexists. rewrite Hcalls, <- app_assoc. split; [reflexivity|].
      apply quiet_app; [split; reflexivity|assumption].
Qed.

Lemma emit_cmds_ok pool height_px cmds : forall f,
  0 <= i_renderable f ->
  i_renderable f + Z.of_nat (length cmds) <= Z.of_nat (length pool) ->
  exists f', emit_cmds pool height_px f cmds = Some f' /\
    i_renderable f <= i_renderable f' <= i_renderable f + Z.of_nat (length cmds).
Proof.
  induction cmds as [|cmd rest IH]; intros f H0 Hle; cbn [emit_cmds length] in *.
  - exists f. split; [reflexivity|lia].
  - unfold emit_cmd. destruct (UserCallback cmd) as [callback|].
    + edestruct IH as (f' & -> & Hr); [| |exists f'; split; [reflexivity|]].
      * cbn. exact H0.
      * cbn. lia.
      * cbn in Hr. lia.
    + destruct (lookup_lt_is_Some_2 pool (Z.to_nat (i_renderable f))) as [mat ->]; [lia|].
      edestruct IH as (f' & -> & Hr); [| |exists f'; split; [reflexivity|]].
      * cbn. lia.
      * cbn. lia.
      * cbn in Hr. lia.
Qed.

(** ** The loop over the lists *)

Lemma copy_list_shape pool height_px first f l f' :
  copy_list pool height_px first f l = Some f' ->
  exists extra, f_calls f' = f_calls f ++ extra /\ quiet extra.
Proof.
  unfold copy_list. intros Hrun.
  destruct (memcpy_at _ _ _) as [vertex_data|]; [|discriminate].
  destruct (if first then _ else _) as [index_data|]; [|discriminate].
  destruct (emit_cmds _ _ _ _) as [f1|] eqn:Hcmds; [|discriminate].
  injection Hrun as <-. cbn.
  destruct (emit_cmds_shape _ _ _ _ _ Hcmds) as (_ & _ & _ & _ & extra & Hcalls & Hq).
  exists extra. by split.
Qed.

Lemma copy_lists_shape pool height_px lists : forall first f f',
  copy_lists pool height_px first f lists = Some f' ->
  exists extra, f_calls f' = f_calls f ++ extra /\ quiet extra.
Proof.
  induction lists as [|l rest IH]; intros first f f' Hrun; cbn [copy_lists] in Hrun.
  - injection Hrun as <-. exists []. split; [by rewrite app_nil_r|apply quiet_nil].
  - destruct (copy_list pool height_px first f l) as [f1|] eqn:Hl; [|discriminate].
    destruct (copy_list_shape _ _ _ _ _ _ Hl) as (e1 & Hc1 & Hq1).
    destruct (IH _ _ _ Hrun) as (e2 & Hc2 & Hq2).
    exists (e1 ++ e2). rewrite Hc2, Hc1, app_assoc. split; [reflexivity|by apply quiet_app].
Qed.

Lemma copy_list_ok pool height_px first f l :
  0 <= i_vert f -> 0 <= i_ind f -> 0 <= i_renderable f ->
  i_vert f + Z.of_nat (length (VtxBuffer l)) <= Z.of_nat (length (f_vertex_data f)) ->
  i_ind f + Z.of_nat (length (IdxBuffer l)) <= Z.of_nat (length (f_index_data f)) ->
  i_renderable f + Z.of_nat (length (CmdBuffer l)) <= Z.of_nat (length pool) ->
  exists f', copy_list pool height_px first f l = Some f' /\
    f_vertex_data f' = splice (f_vertex_data f) (Z.to_nat (i_vert f)) (VtxBuffer l) /\
    f_index_data f' =
      splice (f_index_data f) (Z.to_nat (i_ind f))
        (if first then IdxBuffer l
         else (fun idx => to_uint16 (idx + i_vert f)) <$> IdxBuffer l) /\
    i_vert f' = i_vert f + Z.of_nat (length (VtxBuffer l)) /\
    i_ind f' = i_ind f + Z.of_nat (length (IdxBuffer l)) /\
    i_renderable f <= i_renderable f' <=
      i_renderable f + Z.of_nat (length (CmdBuffer l)).
Proof.
  intros Hv Hi Hr Hvl Hil Hrl. unfold copy_list.
  rewrite memcpy_at_splice by lia.
  assert (Hidx : (if first
                  then memcpy_at (f_index_data f) (i_ind f) (IdxBuffer l)
                  else rewrite_indices (f_index_data f) (i_ind f) (i_vert f) 0 (IdxBuffer l)) =
                 Some (splice (f_index_data f) (Z.to_nat (i_ind f))
                         (if first then IdxBuffer l
                          else (fun idx => to_uint16 (idx + i_vert f)) <$> IdxBuffer l))).
  { destruct first; [by rewrite memcpy_at_splice by lia|].
    rewrite rewrite_indices_splice by lia. by rewrite Z.add_0_r. }
  rewrite Hidx.
  match goal with
  | |- context [emit_cmds pool height_px ?f0 ?cmds] =>
      destruct (emit_cmds_ok pool height_px cmds f0) as (f1 & Hcmds & Hr1);
        [exact Hr|exact Hrl|]
  end.
  rewrite Hcmds.
  destruct (emit_cmds_shape _ _ _ _ _ Hcmds) as (Ev & Ei & Eiv & Eii & _).
  cbn in Ev, Ei, Eiv, Eii, Hr1.
  eexists. split; [reflexivity|]. cbn.
  rewrite Ev, Ei, Eiv, Eii. repeat split; try reflexivity; lia.
Qed.

Lemma copy_lists_ok pool height_px lists : forall first f,
  0 <= i_vert f -> 0 <= i_ind f -> 0 <= i_renderable f ->
  i_vert f + vertex_total lists <= Z.of_nat (length (f_vertex_data f)) ->
  i_ind f + index_total lists <= Z.of_nat (length (f_index_data f)) ->
  i_renderable f + count_renderables lists <= Z.of_nat (length pool) ->
  exists f', copy_lists pool height_px first f lists = Some f' /\
    f_vertex_data f' =
      splice (f_vertex_data f) (Z.to_nat (i_vert f)) (all_vertices lists) /\
    f_index_data f' =
      splice (f_index_data f) (Z.to_nat (i_ind f))
        (reindex (fun offset idx => to_uint16 (idx + offset)) first (i_vert f) lists) /\
    i_vert f' = i_vert f + vertex_total lists /\
    i_ind f' = i_ind f + index_total lists.
Proof.
  induction lists as [|l rest IH]; intros first f Hv Hi Hr Hvl Hil Hrl.
  - exists f. cbn [copy_lists all_vertices fmap list_fmap concat reindex vertex_total
                   index_total foldr].
    rewrite !splice_nil, !Z.add_0_r. auto.
  - cbn [copy_lists]. rewrite count_renderables_cons in Hrl.
    pose proof (vertex_total_nonneg rest). pose proof (index_total_nonneg rest).
    pose proof (count_renderables_nonneg rest).
    cbn [vertex_total index_total foldr] in Hvl, Hil.
    fold (vertex_total rest) in Hvl. fold (index_total rest) in Hil.
    destruct (copy_list_ok pool height_px first f l) as (f1 & -> & Ev & Ei & Eiv & Eii & Er);
      try lia.
    destruct (IH false f1) as (f' & -> & Ev' & Ei' & Eiv' & Eii'); try lia.
    { rewrite Ev, length_splice; lia. }
    { rewrite Ei, length_splice; [lia|]. destruct first; rewrite ?length_fmap; lia. }
    exists f'. split; [reflexivity|].
    cbn [vertex_total index_total foldr all_vertices fmap list_fmap concat reindex].
    fold (vertex_total rest). fold (index_total rest).
    fold (fmap VtxBuffer rest). fold (all_vertices rest).
    pose proof (length_all_vertices rest) as Lv.
    pose proof (length_reindex (fun offset idx => to_uint16 (idx + offset)) rest false
                  (i_vert f + Z.of_nat (length (VtxBuffer l)))) as Li.
    split; [|split; [|split; lia]].
    + rewrite Ev', Ev, Eiv.
      replace (Z.to_nat (i_vert f + Z.of_nat (length (VtxBuffer l))))
        with (Z.to_nat (i_vert f) + length (VtxBuffer l))%nat by lia.
      apply splice_splice. lia.
    + rewrite Ei', Ei, Eii, Eiv.
      set (first_part := if first then IdxBuffer l else _).
      assert (length first_part = length (IdxBuffer l)) as Hlen.
      { subst first_part. destruct first; rewrite ?length_fmap; reflexivity. }
      replace (Z.to_nat (i_ind f + Z.of_nat (length (IdxBuffer l))))
        with (Z.to_nat (i_ind f) + length first_part)%nat by lia.
      apply splice_splice. lia.
Qed.

(** ** [UpdateView], past its early returns *)

Lemma UpdateView_frame ui commands io :
  engine_ ui = true -> display_is_zero io = false -> CmdListsCount commands <> 0 ->
  UpdateView ui commands io =
    match counted_lists commands with
    | None => None
    | Some lists =>
        match extend_pool (material_ ui) (material_instances_ ui) (count_renderables lists) with
        | None => None
        | Some (pool, created) =>
            match copy_lists pool (height_px io) true
                    {| f_vertex_data :=
                         rebuilt_snapshot ImDrawVert_zero (vertex_buffer_ ui)
                           (TotalVtxCount commands) (vertex_data_ ui);
                       f_index_data :=
                         rebuilt_snapshot 0 (index_buffer_ ui)
                           (TotalIdxCount commands) (index_data_ ui);
                       i_vert := 0; i_ind := 0; i_renderable := 0;
                       f_batches := [];
                       f_calls := setup_calls ui commands io ++ created |}
                    lists with
            | None => None
            | Some f =>
                Some ({| engine_ := engine_ ui; material_ := material_ ui;
                         vertex_buffer_ :=
                           rebuilt_buffer (vertex_buffer_ ui) (TotalVtxCount commands);
                         index_buffer_ :=
                           rebuilt_buffer (index_buffer_ ui) (TotalIdxCount commands);
                         material_instances_ := pool;
                         vertex_data_ := f_vertex_data f;
                         index_data_ := f_index_data f |},
                      f_calls f ++ closing_calls (count_renderables lists) f)
            end
        end
    end.
Proof.
  intros He Hd Hn. unfold UpdateView.
  unfold display_is_zero in Hd. rewrite He, Hd. cbn [negb].
  apply Z.eqb_neq in Hn. rewrite Hn.
  unfold rebuilt_snapshot, rebuilt_buffer, setup_calls, vertex_buffer_calls,
    index_buffer_calls, closing_calls, height_px, prologue.
  destruct (rebuild_needed (vertex_buffer_ ui) (TotalVtxCount commands)),
           (rebuild_needed (index_buffer_ ui) (TotalIdxCount commands)),
           (Fonts_IsBuilt io);
    cbn [orb app];
    (destruct (counted_lists commands) as [lists|]; [|reflexivity]);
    (destruct (extend_pool _ _ _) as [[pool created]|]; [|reflexivity]);
    cbn [app];
    (destruct (copy_lists _ _ _ _ _) as [f|]; [|reflexivity]);
    rewrite <- ?app_assoc; reflexivity.
Qed.

Lemma to_size_t_count n : 0 <= n < 2 ^ 31 -> to_size_t n = n.
Proof. intros. apply to_size_t_nonneg. int_lia. Qed.

Lemma rebuilt_snapshot_length {A} (d : A) buffer total snapshot :
  sized buffer snapshot -> 0 <= total < 2 ^ 31 ->
  total <= Z.of_nat (length (rebuilt_snapshot d buffer total snapshot)).
Proof.
  intros Hs Ht. unfold rebuilt_snapshot, rebuild_needed.
  destruct buffer as [count|].
  - rewrite to_size_t_count by assumption.
    destruct (Z.ltb_spec count total).
    + rewrite length_resize. lia.
    + rewrite (Hs count eq_refl). lia.
  - rewrite length_resize, to_size_t_count by assumption. lia.
Qed.

Lemma rebuilt_sized {A} (d : A) buffer total snapshot :
  sized buffer snapshot -> 0 <= total < 2 ^ 31 ->
  sized (rebuilt_buffer buffer total) (rebuilt_snapshot d buffer total snapshot).
Proof.
  intros Hs Ht. unfold rebuilt_buffer, rebuilt_snapshot.
  destruct (rebuild_needed buffer total); [|exact Hs].
  intros count [= <-]. rewrite length_resize.
  rewrite to_size_t_count by assumption. lia.
Qed.

Lemma counted_lists_all commands :
  CmdListsCount commands = Z.of_nat (length (CmdLists commands)) ->
  counted_lists commands = Some (CmdLists commands).
Proof.
  intros E. unfold counted_lists. rewrite E, Z.leb_refl, Nat2Z.id.
  by rewrite take_ge.
Qed.

Lemma extend_pool_shape material pool n pool' created :
  extend_pool material pool n = Some (pool', created) ->
  quiet created /\ (length pool <= length pool')%nat /\
  Z.of_nat (length created) = Z.of_nat (length pool') - Z.of_nat (length pool).
Proof.
  unfold extend_pool. destruct (Z.ltb_spec (Z.of_nat (length pool)) n).
  - destruct material; [|discriminate]. intros [= <- <-].
    rewrite length_app, length_fmap, length_seq, length_replicate.
    split; [|lia].
    generalize (Z.to_nat n - length pool)%nat. intros k.
    induction k as [|k IH]; [apply quiet_nil|].
    destruct IH as [IH1 IH2]. split; cbn [replicate]; rewrite filter_cons.
    + rewrite decide_False by (intros []). exact IH1.
    + rewrite decide_False by (intros []). exact IH2.
  - intros [= <- <-]. split; [apply quiet_nil|]. cbn [length]. lia.
Qed.

Lemma extend_pool_ok pool n :
  exists pool' created,
    extend_pool true pool n = Some (pool', created) /\ n <= Z.of_nat (length pool').
Proof.
  unfold extend_pool. destruct (Z.ltb_spec (Z.of_nat (length pool)) n).
  - eexists. eexists. split; [reflexivity|].
    rewrite length_app, length_fmap, length_seq. lia.
  - eexists. eexists. split; [reflexivity|]. lia.
Qed.

(** ** Rebased indices *)

Lemma to_uint16_small z : 0 <= z < 2 ^ 16 -> to_uint16 z = z.
Proof. intros. unfold to_uint16, wrap_unsigned. apply Z.mod_small. lia. Qed.

Lemma to_uint16_bound z : 0 <= to_uint16 z < 2 ^ 16.
Proof. unfold to_uint16, wrap_unsigned. apply Z.mod_pos_bound. lia. Qed.

Lemma reindex_no_wrap lists : forall first offset,
  0 <= offset -> offset + vertex_total lists <= 2 ^ 16 ->
  Forall indices_in_range lists ->
  reindex (fun offset idx => to_uint16 (idx + offset)) first offset lists =
  reindex (fun offset idx => idx + offset) first offset lists.
Proof.
  induction lists as [|l rest IH]; intros first offset H0 Hle Hr; [reflexivity|].
  cbn [reindex]. cbn [vertex_total foldr] in Hle. fold (vertex_total rest) in Hle.
  pose proof (vertex_total_nonneg rest).
  apply Forall_cons in Hr as [Hl Hrest].
  rewrite IH by (assumption || lia). f_equal.
  destruct first; [reflexivity|].
  unfold indices_in_range in Hl.
  induction Hl as [|idx idxs Hidx _ IHl]; [reflexivity|].
  cbn [fmap list_fmap]. cbn [fmap] in IHl. rewrite IHl.
  rewrite to_uint16_small by lia. reflexivity.
Qed.

Lemma reindex_in_range total lists : forall first offset,
  0 <= offset -> offset + vertex_total lists <= total ->
  Forall indices_in_range lists ->
  Forall (fun idx => 0 <= idx < total)
    (reindex (fun offset idx => to_uint16 (idx + offset)) first offset lists).
Proof.
  induction lists as [|l rest IH]; intros first offset H0 Hle Hr; [constructor|].
  cbn [reindex]. cbn [vertex_total foldr] in Hle. fold (vertex_total rest) in Hle.
  pose proof (vertex_total_nonneg rest).
  apply Forall_cons in Hr as [Hl Hrest].
  apply Forall_app. split; [|apply IH; (assumption || lia)].
  unfold indices_in_range in Hl.
  destruct first.
  - eapply Forall_impl; [exact Hl|]. cbn. intros idx Hidx. lia.
  - apply Forall_fmap. eapply Forall_impl; [exact Hl|]. cbn. intros idx Hidx.
    pose proof (to_uint16_bound (idx + offset)).
    destruct (Z.le_gt_cases total (2 ^ 16)).
    + rewrite to_uint16_small by lia. lia.
    + lia.
Qed.

(** ** The translation of a frame *)

(** C3 (as amended).  Given consistent draw data with at least one list, each
    raw index addressing a vertex of its own list, [UpdateView] returns, with
    the first [sum Vk] entries of the vertex snapshot being the vertices of
    all lists in order (each list at its running vertex offset), and the first
    [sum Ik] entries of the index snapshot being the indices of the first list
    as they are followed by those of every later list, each incremented by that
    list's vertex offset and reduced modulo 2^16, the index type being 16 bits
    wide.  When [sum Vk] is at most 2^16 nothing is reduced and each index is
    exactly incremented.  Every resulting index lies in [0, sum Vk).  These
    two prefixes are what is uploaded, when they are not empty. *)
Theorem UpdateView_merges_lists (ui : Ui) (commands : ImDrawData) (io : ImGuiIO) :
  engine_ ui = true -> material_ ui = true -> display_is_zero io = false ->
  Ui_inv ui -> ImDrawData_wf commands -> CmdLists commands <> [] ->
  Forall indices_in_range (CmdLists commands) ->
  let lists := CmdLists commands in
  exists ui' calls,
    UpdateView ui commands io = Some (ui', calls) /\
    take (Z.to_nat (vertex_total lists)) (vertex_data_ ui') = all_vertices lists /\
    Z.of_nat (length (all_vertices lists)) = vertex_total lists /\
    take (Z.to_nat (index_total lists)) (index_data_ ui') = wrapped_indices lists /\
    Z.of_nat (length (wrapped_indices lists)) = index_total lists /\
    (vertex_total lists <= 2 ^ 16 -> wrapped_indices lists = incremented_indices lists) /\
    Forall (fun idx => 0 <= idx < vertex_total lists) (wrapped_indices lists) /\
    (vertex_total lists <> 0 -> setBufferAt (all_vertices lists) ∈ calls) /\
    (index_total lists <> 0 -> setBuffer (wrapped_indices lists) ∈ calls) /\
    Ui_inv ui'.
Proof.
  intros He Hm Hd [Hsv Hsi] (Hc & Hv & Hi & Hvb & Hib) Hne Hr lists.
  pose proof (vertex_total_nonneg lists) as Hv0.
  pose proof (index_total_nonneg lists) as Hi0.
  assert (Hn : CmdListsCount commands <> 0).
  { rewrite Hc. destruct (CmdLists commands); [done|cbn [length]; lia]. }
  rewrite (UpdateView_frame ui commands io He Hd Hn), (counted_lists_all commands Hc), Hm.
  destruct (extend_pool_ok (material_instances_ ui) (count_renderables (CmdLists commands)))
    as (pool & created & -> & Hpool).
  fold lists in Hv, Hi, Hpool |- *.
  pose proof (rebuilt_snapshot_length ImDrawVert_zero (vertex_buffer_ ui)
                (TotalVtxCount commands) (vertex_data_ ui) Hsv ltac:(lia)) as Lv.
  pose proof (rebuilt_snapshot_length 0 (index_buffer_ ui)
                (TotalIdxCount commands) (index_data_ ui) Hsi ltac:(lia)) as Li.
  match goal with
  | |- context [copy_lists pool ?h true ?f0 lists] =>
      destruct (copy_lists_ok pool h lists true f0) as (f & Hrun & Ev & Ei & Eiv & Eii);
        cbn [i_vert i_ind i_renderable f_vertex_data f_index_data]; try lia
  end.
  rewrite Hrun. cbn [i_vert i_ind f_vertex_data f_index_data] in Ev, Ei, Eiv, Eii.
  change (Z.to_nat 0) with 0%nat in Ev, Ei.
  rewrite Z.add_0_l in Eiv, Eii.
  pose proof (length_all_vertices lists) as Lall.
  pose proof (length_reindex (fun offset idx => to_uint16 (idx + offset)) lists true 0) as Lre.
  fold (wrapped_indices lists) in Ei, Lre.
  assert (Tv : take (Z.to_nat (vertex_total lists)) (f_vertex_data f) = all_vertices lists).
  { rewrite Ev. unfold splice. rewrite take_0. cbn [app].
    apply take_app_length'. lia. }
  assert (Ti : take (Z.to_nat (index_total lists)) (f_index_data f) = wrapped_indices lists).
  { rewrite Ei. unfold splice. rewrite take_0. cbn [app].
    apply take_app_length'. lia. }
  eexists. eexists. split; [reflexivity|]. cbn [vertex_data_ index_data_].
  split; [exact Tv|]. split; [exact Lall|]. split; [exact Ti|]. split; [exact Lre|].
  split; [|split; [|split; [|split; [|split]]]].
  - intros Hsmall. apply reindex_no_wrap; [lia|lia|exact Hr].
  - apply reindex_in_range; [lia|lia|exact Hr].
  - intros Hnz. unfold closing_calls. rewrite Eiv.
    destruct (Z.eqb_spec (vertex_total lists) 0); [done|]. rewrite Tv.
    rewrite !elem_of_app. right. right. left. by apply list_elem_of_singleton.
  - intros Hnz. unfold closing_calls. rewrite Eii.
    destruct (Z.eqb_spec (index_total lists) 0); [done|]. rewrite Ti.
    rewrite !elem_of_app. right. right. right. by apply list_elem_of_singleton.
  - cbn [vertex_buffer_ vertex_data_]. intros count Hcount.
    pose proof (rebuilt_sized ImDrawVert_zero (vertex_buffer_ ui) (TotalVtxCount commands)
                  (vertex_data_ ui) Hsv ltac:(lia) count Hcount) as Hsz.
    rewrite <- Hsz, Ev, length_splice; [reflexivity|]. cbn [Nat.add]. lia.
  - cbn [index_buffer_ index_data_]. intros count Hcount.
    pose proof (rebuilt_sized 0 (index_buffer_ ui) (TotalIdxCount commands)
                  (index_data_ ui) Hsi ltac:(lia) count Hcount) as Hsz.
    rewrite <- Hsz, Ei, length_splice; [reflexivity|]. cbn [Nat.add]. lia.
Qed.

(** ** Buffer capacities *)

Lemma filter_setup_calls ui commands io :
  filter is_vertex_buffer_call (setup_calls ui commands io) = vertex_buffer_calls ui commands /\
  filter is_index_buffer_call (setup_calls ui commands io) = index_buffer_calls ui commands.
Proof.
  unfold setup_calls, vertex_buffer_calls, index_buffer_calls, prologue.
  destruct (rebuild_needed (vertex_buffer_ ui) (TotalVtxCount commands)),
           (rebuild_needed (index_buffer_ ui) (TotalIdxCount commands)),
           (Fonts_IsBuilt io); split; reflexivity.
Qed.

Lemma quiet_closing_calls n f : quiet (closing_calls n f).
Proof.
  unfold closing_calls. destruct (i_vert f =? 0), (i_ind f =? 0); split; reflexivity.
Qed.

Lemma quiet_prologue io : quiet (prologue io).
Proof. split; reflexivity. Qed.

(** What a frame that gets past the early returns does to the two buffers. *)
Lemma UpdateView_frame_buffers ui commands io ui' calls :
  engine_ ui = true -> display_is_zero io = false -> CmdListsCount commands <> 0 ->
  UpdateView ui commands io = Some (ui', calls) ->
  vertex_buffer_ ui' = rebuilt_buffer (vertex_buffer_ ui) (TotalVtxCount commands) /\
  index_buffer_ ui' = rebuilt_buffer (index_buffer_ ui) (TotalIdxCount commands) /\
  filter is_vertex_buffer_call calls = vertex_buffer_calls ui commands /\
  filter is_index_buffer_call calls = index_buffer_calls ui commands.
Proof.
  intros He Hd Hn. rewrite (UpdateView_frame ui commands io He Hd Hn).
  destruct (counted_lists commands) as [lists|]; [|discriminate].
  destruct (extend_pool _ _ _) as [[pool created]|] eqn:Hpool; [|discriminate].
  destruct (copy_lists _ _ _ _ _) as [f|] eqn:Hrun; [|discriminate].
  intros [= <- <-]. cbn [vertex_buffer_ index_buffer_].
  split; [reflexivity|]. split; [reflexivity|].
  destruct (copy_lists_shape _ _ _ _ _ _ Hrun) as (extra & -> & Hq1 & Hq2).
  destruct (extend_pool_shape _ _ _ _ _ Hpool) as ((Hc1 & Hc2) & _).
  destruct (quiet_closing_calls (count_renderables lists) f) as (Hz1 & Hz2).
  destruct (filter_setup_calls ui commands io) as (Hs1 & Hs2).
  cbn [f_calls]. rewrite !filter_app, Hq1, Hq2, Hc1, Hc2, Hz1, Hz2, Hs1, Hs2.
  by rewrite !app_nil_r.
Qed.

(** The early returns leave the [Ui] as it is and neither create nor destroy
    a buffer. *)
Lemma UpdateView_returns_early ui commands io :
  engine_ ui = false \/ display_is_zero io = true \/ CmdListsCount commands = 0 ->
  exists calls, UpdateView ui commands io = Some (ui, calls) /\ quiet calls.
Proof.
  intros Hearly. unfold UpdateView. fold (display_is_zero io).
  destruct (engine_ ui); cbn [negb]; [|exists []; split; [reflexivity|apply quiet_nil]].
  destruct (display_is_zero io); [exists []; split; [reflexivity|apply quiet_nil]|].
  destruct Hearly as [?|[?|E]]; try discriminate.
  rewrite E. cbn [Z.eqb]. eexists. split; [reflexivity|]. apply (quiet_prologue io).
Qed.

Lemma rebuilt_buffer_cases buffer total :
  0 <= total < 2 ^ 31 ->
  (rebuild_needed buffer total = false /\ rebuilt_buffer buffer total = buffer /\
   total <= capacity buffer) \/
  (rebuild_needed buffer total = true /\ rebuilt_buffer buffer total = Some total /\
   (buffer = None \/ capacity buffer < total)).
Proof.
  intros Ht. unfold rebuilt_buffer, rebuild_needed.
  rewrite to_size_t_count by assumption.
  destruct buffer as [count|]; [|right; auto].
  destruct (Z.ltb_spec count total); [right|left]; unfold capacity; cbn; auto.
Qed.

Lemma rebuilt_buffer_grows buffer total :
  0 <= total < 2 ^ 31 -> capacity buffer <= capacity (rebuilt_buffer buffer total).
Proof.
  intros Ht.
  destruct (rebuilt_buffer_cases buffer total Ht) as [(_ & -> & _)|(_ & -> & [->|Hlt])];
    unfold capacity in *; cbn in *; lia.
Qed.

Lemma UpdateView_buffers ui commands io ui' calls :
  counts_typed commands ->
  UpdateView ui commands io = Some (ui', calls) ->
  ((vertex_buffer_ ui' = vertex_buffer_ ui /\ filter is_vertex_buffer_call calls = []) \/
   (vertex_buffer_ ui' = Some (TotalVtxCount commands) /\
    filter is_vertex_buffer_call calls =
      [destroyVertexBuffer (vertex_buffer_ ui);
       createVertexBuffer (TotalVtxCount commands)] /\
    (vertex_buffer_ ui = None \/
     capacity (vertex_buffer_ ui) < TotalVtxCount commands))) /\
  ((index_buffer_ ui' = index_buffer_ ui /\ filter is_index_buffer_call calls = []) \/
   (index_buffer_ ui' = Some (TotalIdxCount commands) /\
    filter is_index_buffer_call calls =
      [destroyIndexBuffer (index_buffer_ ui);
       createIndexBuffer (TotalIdxCount commands)] /\
    (index_buffer_ ui = None \/
     capacity (index_buffer_ ui) < TotalIdxCount commands))) /\
  capacity (vertex_buffer_ ui) <= capacity (vertex_buffer_ ui') /\
  capacity (index_buffer_ ui) <= capacity (index_buffer_ ui') /\
  (CmdListsCount commands = 0 -> ui' = ui /\ quiet calls).
Proof.
  intros [Hv Hi] Hrun.
  destruct (engine_ ui) eqn:He, (display_is_zero io) eqn:Hd,
           (Z.eq_dec (CmdListsCount commands) 0) as [Hn|Hn];
    try (destruct (UpdateView_returns_early ui commands io) as (calls0 & E & Hq1 & Hq2);
         [auto|]; rewrite E in Hrun; injection Hrun as <- <-;
         repeat split; try (left; split; [reflexivity|assumption]); try lia; assumption).
  destruct (UpdateView_frame_buffers ui commands io ui' calls He Hd Hn Hrun)
    as (-> & -> & -> & ->).
  unfold vertex_buffer_calls, index_buffer_calls.
  rewrite !to_size_t_count by assumption.
  pose proof (rebuilt_buffer_grows (vertex_buffer_ ui) _ Hv).
  pose proof (rebuilt_buffer_grows (index_buffer_ ui) _ Hi).
  split; [|split; [|split; [assumption|split; [assumption|done]]]].
  - destruct (rebuilt_buffer_cases (vertex_buffer_ ui) _ Hv)
      as [(-> & -> & _)|(-> & -> & Hwhy)]; [left|right]; auto.
  - destruct (rebuilt_buffer_cases (index_buffer_ ui) _ Hi)
      as [(-> & -> & _)|(-> & -> & Hwhy)]; [left|right]; auto.
Qed.

(** C8.  Neither degenerate input is an error.  With a display size of zero
    [UpdateView] returns having changed nothing and called nothing.  With a
    display size that is not zero and zero command lists it updates the
    viewport and the projection, destroys the renderable of the previous
    frame and returns: the [Ui], with its buffers, snapshots and
    material-instance pool, is as it was, and nothing else is called, so no
    renderable is built. *)
Theorem UpdateView_degenerate_inputs (ui : Ui) (commands : ImDrawData) (io : ImGuiIO) :
  (display_is_zero io = true -> UpdateView ui commands io = Some (ui, [])) /\
  (engine_ ui = true -> display_is_zero io = false -> CmdListsCount commands = 0 ->
   UpdateView ui commands io =
     Some (ui,
           [setViewport
              (wrap_unsigned 32
                 (float_to_int
                    (float_mul (x (DisplaySize io)) (x (DisplayFramebufferScale io)))))
              (wrap_unsigned 32
                 (float_to_int
                    (float_mul (y (DisplaySize io)) (y (DisplayFramebufferScale io)))));
            setProjection (x (DisplaySize io)) (y (DisplaySize io));
            destroyRenderable])).
Proof.
  unfold UpdateView. fold (display_is_zero io). split.
  - intros ->. destruct (engine_ ui); reflexivity.
  - intros -> -> ->. reflexivity.
Qed.

(** ** The draw translator on concrete frames *)

(** The scenario of the specification: one list of 4 vertices and 6 indices,
    one draw call over all 6, no texture. *)
Example single_quad_scenario :
  (fun r => (filter is_buildRenderable r.2,
             vertex_buffer_ r.1, index_buffer_ r.1))
    <$> UpdateView (Ui_new true true) (frame_of [quad]) io_200 =
  Some ([buildRenderable 1
           [{| batch_index := 0; batch_offset := 0; batch_count := 6;
               batch_blend_order := 0; batch_material := 0 |}]],
        Some 4, Some 6).
Proof. vm_compute. reflexivity. Qed.

Lemma UpdateView_merges_lists_witness :
  (engine_ (Ui_new true true) = true /\ material_ (Ui_new true true) = true /\
   display_is_zero io_200 = false /\ Ui_inv (Ui_new true true) /\
   ImDrawData_wf two_lists /\ CmdLists two_lists <> [] /\
   Forall indices_in_range (CmdLists two_lists)) /\
  exists ui' calls,
    UpdateView (Ui_new true true) two_lists io_200 = Some (ui', calls) /\
    take 7 (vertex_data_ ui') =
      [vert 10; vert 11; vert 12; vert 13; vert 20; vert 21; vert 22] /\
    take 9 (index_data_ ui') = [0; 1; 2; 0; 2; 3; 4; 5; 6] /\
    Forall (fun idx => 0 <= idx < 7) (wrapped_indices (CmdLists two_lists)) /\
    setBufferAt (all_vertices (CmdLists two_lists)) ∈ calls /\
    setBuffer (wrapped_indices (CmdLists two_lists)) ∈ calls.
Proof.
  assert (He : engine_ (Ui_new true true) = true) by reflexivity.
  assert (Hm : material_ (Ui_new true true) = true) by reflexivity.
  assert (Hd : display_is_zero io_200 = false) by (vm_compute; reflexivity).
  assert (Hinv : Ui_inv (Ui_new true true)).
  { split; intros count Hc; discriminate Hc. }
  assert (Hwf : ImDrawData_wf two_lists).
  { repeat split. }
  assert (Hne : CmdLists two_lists <> []) by discriminate.
  assert (Hr : Forall indices_in_range (CmdLists two_lists)).
  { repeat first [apply Forall_nil_2 | apply Forall_cons_2]; cbn; lia. }
  split; [auto 10|].
  destruct (UpdateView_merges_lists (Ui_new true true) two_lists io_200
              He Hm Hd Hinv Hwf Hne Hr)
    as (ui' & calls & Hrun & Tv & _ & Ti & _ & _ & Hrange & Hup & Hupi & _).
  exists ui', calls. split; [exact Hrun|].
  split; [exact Tv|]. split; [exact Ti|]. split; [exact Hrange|].
  split; [apply Hup; discriminate|apply Hupi; discriminate].
Defined.

(** C3 as stated fails past 2^16 vertices: after a list of 65536 vertices, the
    indices 0, 1, 2 of the next list should become 65536, 65537, 65538 and are
    stored as 0, 1, 2, the triangle of the first list. *)
Lemma index_wraps_counterexample :
  ImDrawData_wf past_16_bits /\
  Forall indices_in_range (CmdLists past_16_bits) /\
  vertex_total (CmdLists past_16_bits) = 65539 /\
  index_total (CmdLists past_16_bits) = 6 /\
  incremented_indices (CmdLists past_16_bits) = [0; 1; 2; 65536; 65537; 65538] /\
  (fun r => take 6 (index_data_ r.1)) <$> UpdateView (Ui_new true true) past_16_bits io_200 =
    Some [0; 1; 2; 0; 1; 2] /\
  (fun r => take 6 (index_data_ r.1)) <$> UpdateView (Ui_new true true) past_16_bits io_200 <>
    Some (incremented_indices (CmdLists past_16_bits)).
Proof.
  split; [repeat split|].
  split.
  { repeat first [apply Forall_nil_2 | apply Forall_cons_2];
      (vm_compute; split; [discriminate|reflexivity]). }
  split; [vm_compute; reflexivity|]. split; [reflexivity|]. split; [reflexivity|].
  assert (E : (fun r => take 6 (index_data_ r.1)) <$>
                UpdateView (Ui_new true true) past_16_bits io_200 = Some [0; 1; 2; 0; 1; 2])
    by (vm_compute; reflexivity).
  split; [exact E|]. rewrite E. discriminate.
Qed.

Lemma UpdateView_degenerate_inputs_witness :
  (display_is_zero io_minimized = true /\
   UpdateView (Ui_new true true) two_lists io_minimized = Some (Ui_new true true, [])) /\
  (engine_ (Ui_new true true) = true /\ display_is_zero io_200 = false /\
   CmdListsCount no_lists = 0 /\
   UpdateView (Ui_new true true) no_lists io_200 =
     Some (Ui_new true true,
           [setViewport 200 200;
            setProjection (float_of_int 200) (float_of_int 200);
            destroyRenderable])).
Proof.
  assert (Hz : display_is_zero io_minimized = true) by (vm_compute; reflexivity).
  assert (He : engine_ (Ui_new true true) = true) by reflexivity.
  assert (Hd : display_is_zero io_200 = false) by (vm_compute; reflexivity).
  assert (Hn : CmdListsCount no_lists = 0) by reflexivity.
  split.
  - split; [exact Hz|].
    exact (proj1 (UpdateView_degenerate_inputs (Ui_new true true) two_lists io_minimized) Hz).
  - split; [exact He|]. split; [exact Hd|]. split; [exact Hn|].
    exact (proj2 (UpdateView_degenerate_inputs (Ui_new true true) no_lists io_200) He Hd Hn).
Defined.

(** * Further properties of the input pipeline *)

(** ** Bit masks *)

Lemma land_lor_same m bits : Z.land (Z.lor m bits) bits = bits.
Proof.
  apply Z.bits_inj'. intros n Hn.
  rewrite Z.land_spec, Z.lor_spec. destruct (Z.testbit m n), (Z.testbit bits n); reflexivity.
Qed.

Lemma land_clear_same m bits : Z.land (Z.land m (Z.lnot bits)) bits = 0.
Proof.
  apply Z.bits_inj'. intros n Hn.
  rewrite !Z.land_spec, Z.lnot_spec, Z.bits_0 by assumption.
  destruct (Z.testbit m n), (Z.testbit bits n); reflexivity.
Qed.

Lemma land_lor_disjoint m bits bits' :
  Z.land bits bits' = 0 -> Z.land (Z.lor m bits) bits' = Z.land m bits'.
Proof.
  intros Hd. rewrite Z.land_lor_distr_l, Hd. apply Z.lor_0_r.
Qed.

Lemma land_clear_disjoint m bits bits' :
  Z.land bits bits' = 0 -> Z.land (Z.land m (Z.lnot bits)) bits' = Z.land m bits'.
Proof.
  intros Hd. apply Z.bits_inj'. intros n Hn.
  assert (Hb : Z.testbit (Z.land bits bits') n = false) by (rewrite Hd; apply Z.bits_0).
  rewrite Z.land_spec in Hb.
  rewrite !Z.land_spec, Z.lnot_spec by assumption.
  destruct (Z.testbit m n), (Z.testbit bits n), (Z.testbit bits' n); try reflexivity;
    discriminate Hb.
Qed.

Lemma mask_laws (mask bits : Z) :
  HasBits (SetBits mask bits) bits = true /\
  (bits <> 0 -> HasBits (ClearBits mask bits) bits = false) /\
  HasBits mask 0 = true /\
  SetBits (SetBits mask bits) bits = SetBits mask bits /\
  ClearBits (ClearBits mask bits) bits = ClearBits mask bits /\
  (forall bits', Z.land bits bits' = 0 ->
     HasBits (SetBits mask bits) bits' = HasBits mask bits' /\
     HasBits (ClearBits mask bits) bits' = HasBits mask bits').
Proof.
  unfold HasBits, SetBits, ClearBits. repeat split.
  - rewrite land_lor_same. apply Z.eqb_refl.
  - intros Hne. rewrite land_clear_same. apply Z.eqb_neq. congruence.
  - rewrite Z.land_0_r. reflexivity.
  - rewrite <- Z.lor_assoc, Z.lor_diag. reflexivity.
  - rewrite <- Z.land_assoc, Z.land_diag. reflexivity.
  - by rewrite land_lor_disjoint.
  - by rewrite land_clear_disjoint.
Qed.

(** X1.  The three mask helpers: after [SetBits] the bits are there, after
    [ClearBits] they are not (unless [bits] is 0, which every mask "has"),
    both are idempotent, and neither touches bits disjoint from the ones it
    is given. *)
Theorem mask_set_clear (mask bits : Z) :
  HasBits (SetBits mask bits) bits = true /\
  (bits <> 0 -> HasBits (ClearBits mask bits) bits = false) /\
  HasBits mask 0 = true /\
  SetBits (SetBits mask bits) bits = SetBits mask bits /\
  ClearBits (ClearBits mask bits) bits = ClearBits mask bits /\
  (forall bits', Z.land bits bits' = 0 ->
     HasBits (SetBits mask bits) bits' = HasBits mask bits' /\
     HasBits (ClearBits mask bits) bits' = HasBits mask bits').
Proof. exact (mask_laws mask bits). Qed.

Lemma mask_set_clear_witness :
  Z.land 4 1 = 0 /\ 4 <> 0 /\
  HasBits (SetBits 3 4) 1 = HasBits 3 1 /\ HasBits (ClearBits 7 4) 1 = HasBits 7 1 /\
  HasBits (ClearBits 7 4) 4 = false.
Proof.
  assert (Hd : Z.land 4 1 = 0) by reflexivity.
  assert (Hn : 4 <> 0) by discriminate.
  destruct (mask_set_clear 3 4) as (_ & _ & _ & _ & _ & Hs).
  destruct (mask_set_clear 7 4) as (_ & Hc & _ & _ & _ & Hc').
  split; [exact Hd|]. split; [exact Hn|].
  split; [exact (proj1 (Hs 1 Hd))|]. split; [exact (proj2 (Hc' 1 Hd))|exact (Hc Hn)].
Defined.

(** ** Mouse buttons *)

Lemma ButtonToBits_pow2 button : 0 <= button <= 30 -> ButtonToBits button = 2 ^ button.
Proof.
  intros Hb. unfold ButtonToBits. rewrite Z.shiftl_1_l.
  apply to_int32_small. split; [apply Z.pow_nonneg; lia|].
  apply Z.pow_lt_mono_r; lia.
Qed.

Lemma pow2_disjoint a b : 0 <= a -> 0 <= b -> a <> b -> Z.land (2 ^ a) (2 ^ b) = 0.
Proof.
  intros Ha Hb Hab. apply Z.bits_inj'. intros n Hn.
  rewrite Z.land_spec, !Z.pow2_bits_eqb, Z.bits_0 by assumption.
  destruct (Z.eqb_spec a n), (Z.eqb_spec b n); try reflexivity. congruence.
Qed.

Lemma pow2_nonzero a : 0 <= a -> 2 ^ a <> 0.
Proof. intros Ha. pose proof (Z.pow_pos_nonneg 2 a). lia. Qed.

Section MoreInput.
Context {C : Type} `{ChildHandler C}.

Lemma OnGlfwMouseButton_buttons h w button action mods :
  let s' := state_ (OnGlfwMouseButton h w button action mods).1 in
  mouse_buttons s' =
    if action =? GLFW_PRESS
    then SetBits (mouse_buttons (state_ h)) (ButtonToBits button)
    else if action =? GLFW_RELEASE
    then ClearBits (mouse_buttons (state_ h)) (ButtonToBits button)
    else mouse_buttons (state_ h).
Proof.
  unfold OnGlfwMouseButton.
  destruct (child_OnGlfwMouseButton _ _ _ _ _) as [child captured].
  cbn [fst state_]. unfold push_event.
  destruct (action =? GLFW_PRESS), (action =? GLFW_RELEASE), captured; reflexivity.
Qed.

(** X2.  Mouse buttons follow the device whatever the child answers: for a
    button 0..30, a press makes [HasGlfwButton] true for it, a release makes
    it false, any other action leaves the mask as it is, and no other button
    0..30 changes. *)
Theorem mouse_buttons_follow_device (h : Handler C) (w : GLFWwindow)
    (button action mods : Z) :
  0 <= button <= 30 ->
  let s := state_ h in
  let s' := state_ (OnGlfwMouseButton h w button action mods).1 in
  (action = GLFW_PRESS -> HasGlfwButton (mouse_buttons s') button = true) /\
  (action = GLFW_RELEASE -> HasGlfwButton (mouse_buttons s') button = false) /\
  (action <> GLFW_PRESS -> action <> GLFW_RELEASE -> mouse_buttons s' = mouse_buttons s) /\
  (forall other, 0 <= other <= 30 -> other <> button ->
     HasGlfwButton (mouse_buttons s') other = HasGlfwButton (mouse_buttons s) other).
Proof.
  intros Hb. cbv zeta. rewrite OnGlfwMouseButton_buttons.
  destruct (mask_laws (mouse_buttons (state_ h)) (ButtonToBits button))
    as (Hset & Hclear & _ & _ & _ & Hother).
  unfold HasGlfwButton. repeat split.
  - intros ->. exact Hset.
  - intros ->. cbn [Z.eqb GLFW_RELEASE GLFW_PRESS]. apply Hclear.
    rewrite ButtonToBits_pow2 by assumption. apply pow2_nonzero. lia.
  - intros Hp Hr. apply Z.eqb_neq in Hp, Hr. by rewrite Hp, Hr.
  - intros other Ho Hne.
    destruct (Hother (ButtonToBits other)) as [Hs Hc].
    { rewrite !ButtonToBits_pow2 by assumption. apply pow2_disjoint; lia. }
    destruct (action =? GLFW_PRESS); [exact Hs|].
    destruct (action =? GLFW_RELEASE); [exact Hc|reflexivity].
Qed.

(** ** Modifier keys *)

Lemma track_mod_keys_mods_after s key action :
  track_mod_keys s key action = set_mod_keys s (mods_after (mod_keys s) key action).
Proof.
  unfold track_mod_keys, mods_after, modifier_bits, track_mod, mod_after.
  repeat match goal with
         | |- context [if is_one_of ?k ?a ?b then _ else _] => destruct (is_one_of k a b)
         | |- context [if key =? ?a then _ else _] => destruct (key =? a)
         end;
    destruct (action =? GLFW_PRESS), (action =? GLFW_RELEASE); destruct s; reflexivity.
Qed.

(** The state a key callback leaves, field by field. *)
Lemma OnGlfwKey_state h w key sc action mods :
  let s := state_ h in
  let r := OnGlfwKey h w key sc action mods in
  let captured := (child_OnGlfwKey (child_ h) w key sc action mods).2 in
  let stamp := to_uint64 (event_index s + 1) in
  let m := mods_after (mod_keys s) key action in
  let e := {| type := kKey; window := w; child_wants_capture := captured;
              data := e_key {| k_key := key; k_scancode := sc; k_action := action;
                               k_mods := m |} |} in
  r.2 = captured /\
  state_ r.1 =
    {| event_index := stamp;
       events := if captured then events s else events s ++ [e];
       keys := if captured then keys s else stamp_key (keys s) key action stamp;
       all_events := all_events s ++ [e];
       all_keys := stamp_key (all_keys s) key action stamp;
       mod_keys := m;
       mouse_x := mouse_x s; mouse_y := mouse_y s;
       mouse_buttons := mouse_buttons s |}.
Proof.
  unfold OnGlfwKey.
  destruct (child_OnGlfwKey _ _ _ _ _ _) as [child captured].
  rewrite track_mod_keys_mods_after. cbn [snd].
  split; [reflexivity|]. destruct captured; reflexivity.
Qed.

Lemma modifier_bits_disjoint key bits bits' :
  modifier_bits key = Some bits -> is_modifier_bit bits' -> bits' <> bits ->
  bits <> 0 /\ Z.land bits bits' = 0.
Proof.
  unfold modifier_bits, is_modifier_bit. intros Hk Hb Hne.
  repeat match type of Hk with
         | (if ?c then _ else _) = _ => destruct c
         end; try discriminate Hk; injection Hk as <-;
    repeat (apply elem_of_cons in Hb as [->|Hb]; [first [done | by split]|]);
    by apply elem_of_nil in Hb.
Qed.

Lemma modifier_bits_nonzero key bits : modifier_bits key = Some bits -> bits <> 0.
Proof.
  unfold modifier_bits. intros Hk.
  repeat match type of Hk with
         | (if ?c then _ else _) = _ => destruct c
         end; try discriminate Hk; injection Hk as <-; discriminate.
Qed.

(** X3.  The modifier mask is derived from the modifier keys themselves, not
    from the [mods] argument, and whatever the child answers.  A press of a
    modifier key sets its bit and a release clears it (so releasing one of
    two held shift keys clears SHIFT); the other five modifier bits are
    untouched; a key that is not a modifier leaves the mask as it is; and the
    event logged carries the mask as just updated. *)
Theorem modifiers_follow_modifier_keys (h : Handler C) (w : GLFWwindow)
    (key sc action mods : Z) :
  let s := state_ h in
  let r := OnGlfwKey h w key sc action mods in
  let s' := state_ r.1 in
  (forall bits, modifier_bits key = Some bits ->
     (action = GLFW_PRESS -> HasBits (mod_keys s') bits = true) /\
     (action = GLFW_RELEASE -> HasBits (mod_keys s') bits = false) /\
     (forall bits', is_modifier_bit bits' -> bits' <> bits ->
        HasBits (mod_keys s') bits' = HasBits (mod_keys s) bits')) /\
  (modifier_bits key = None -> mod_keys s' = mod_keys s) /\
  (action <> GLFW_PRESS -> action <> GLFW_RELEASE -> mod_keys s' = mod_keys s) /\
  logged s' =
    Some {| type := kKey; window := w; child_wants_capture := r.2;
            data := e_key {| k_key := key; k_scancode := sc; k_action := action;
                             k_mods := mod_keys s' |} |}.
Proof.
  cbv zeta. destruct (OnGlfwKey_state h w key sc action mods) as [-> ->].
  cbn [mod_keys]. unfold logged. cbn [all_events]. rewrite last_snoc.
  unfold mods_after. split; [|split; [|split; [|reflexivity]]].
  - intros bits Hk. rewrite Hk. unfold mod_after.
    destruct (mask_laws (mod_keys (state_ h)) bits) as (Hset & Hclear & _ & _ & _ & Hd).
    split; [|split].
    + intros ->. exact Hset.
    + intros ->. cbn [Z.eqb GLFW_RELEASE GLFW_PRESS]. apply Hclear.
      exact (modifier_bits_nonzero key bits Hk).
    + intros bits' Hb Hne.
      destruct (Hd bits') as [Hs Hc].
      { exact (proj2 (modifier_bits_disjoint key bits bits' Hk Hb Hne)). }
      destruct (Z.eqb_spec action GLFW_PRESS) as [->|_]; [exact Hs|].
      destruct (action =? GLFW_RELEASE); [exact Hc|reflexivity].
  - intros Hk. rewrite Hk. reflexivity.
  - intros Hp Hr. apply Z.eqb_neq in Hp, Hr.
    destruct (modifier_bits key); [|reflexivity]. unfold mod_after. by rewrite Hp, Hr.
Qed.

(** ** What one callback does *)

Lemma dispatch_effect h cb :
  let s := state_ h in
  let r := dispatch h cb in
  let s' := state_ r.1 in
  let captured := (ask_child (child_ h) cb).2 in
  let stamp := to_uint64 (event_index s + 1) in
  r.2 = captured /\ child_ r.1 = (ask_child (child_ h) cb).1 /\
  (exists e, type e = tag cb /\ window e = window_of cb /\
     child_wants_capture e = captured /\
     all_events s' = all_events s ++ [e] /\
     events s' = if captured then events s else events s ++ [e]) /\
  all_keys s' = table_after (all_keys s) (Deliver cb) stamp /\
  keys s' = (if captured then keys s else table_after (keys s) (Deliver cb) stamp) /\
  (is_key_op (Deliver cb) = false -> mod_keys s' = mod_keys s) /\
  (is_mouse_button_op (Deliver cb) = false -> mouse_buttons s' = mouse_buttons s) /\
  (is_cursor_pos (Deliver cb) = false -> is_focus_op (Deliver cb) = false ->
   mouse_x s' = mouse_x s /\ mouse_y s' = mouse_y s).
Proof.
  destruct cb; cbn [dispatch ask_child tag window_of table_after is_key_op
                    is_mouse_button_op is_cursor_pos is_focus_op].
  - unfold OnGlfwWindowFocus. destruct (child_OnGlfwWindowFocus _ _ _) as [child captured].
    unfold push_event. destruct (focused =? 0), captured; cbn;
      (split; [reflexivity|]); (split; [reflexivity|]);
      (split; [eexists; repeat split; reflexivity|]); repeat split; try reflexivity;
      discriminate.
  - unfold OnGlfwCursorEnter. destruct (child_OnGlfwCursorEnter _ _ _) as [child captured].
    unfold push_event. destruct captured; cbn;
      (split; [reflexivity|]); (split; [reflexivity|]);
      (split; [eexists; repeat split; reflexivity|]); repeat split; reflexivity.
  - unfold OnGlfwCursorPos. destruct (child_OnGlfwCursorPos _ _ _ _) as [child captured].
    unfold push_event. destruct (_ && _), captured; cbn;
      (split; [reflexivity|]); (split; [reflexivity|]);
      (split; [eexists; repeat split; reflexivity|]); repeat split; try reflexivity;
      discriminate.
  - unfold OnGlfwMouseButton.
    destruct (child_OnGlfwMouseButton _ _ _ _ _) as [child captured].
    unfold push_event.
    destruct (action =? GLFW_PRESS), (action =? GLFW_RELEASE), captured; cbn;
      (split; [reflexivity|]); (split; [reflexivity|]);
      (split; [eexists; repeat split; reflexivity|]); repeat split; try reflexivity;
      discriminate.
  - unfold OnGlfwScroll. destruct (child_OnGlfwScroll _ _ _ _) as [child captured].
    unfold push_event. destruct captured; cbn;
      (split; [reflexivity|]); (split; [reflexivity|]);
      (split; [eexists; repeat split; reflexivity|]); repeat split; reflexivity.
  - destruct (OnGlfwKey_state h window0 key scancode action mods) as [Hr Hs].
    rewrite Hr, Hs. cbn [all_events events keys all_keys mod_keys mouse_buttons mouse_x mouse_y].
    split; [reflexivity|]. split.
    { unfold OnGlfwKey. by destruct (child_OnGlfwKey _ _ _ _ _ _). }
    split; [eexists; repeat split; reflexivity|]. repeat split; try reflexivity; discriminate.
  - unfold OnGlfwChar. destruct (child_OnGlfwChar _ _ _) as [child captured].
    unfold push_event. destruct captured; cbn;
      (split; [reflexivity|]); (split; [reflexivity|]);
      (split; [eexists; repeat split; reflexivity|]); repeat split; reflexivity.
Qed.

Lemma apply_op_rolling h op :
  let s := state_ h in
  let s' := state_ (apply_op h op) in
  (is_key_op op = false ->
   mod_keys s' = mod_keys s /\ keys s' = keys s /\ all_keys s' = all_keys s) /\
  (is_mouse_button_op op = false -> mouse_buttons s' = mouse_buttons s) /\
  (is_cursor_pos op = false -> is_focus_op op = false ->
   mouse_x s' = mouse_x s /\ mouse_y s' = mouse_y s).
Proof.
  destruct op as [cb|]; [|cbn; auto].
  cbn [apply_op].
  destruct (dispatch_effect h cb) as (_ & _ & _ & Hall & Hkeys & Hmod & Hbtn & Hmouse).
  cbv zeta in *. split; [|split; assumption].
  intros Hk. rewrite Hall, Hkeys. split; [by apply Hmod|].
  destruct cb; try discriminate Hk; cbn [table_after];
    (split; [by destruct (ask_child _ _).2|reflexivity]).
Qed.

(** X4.  Each part of the rolling state has its own writers.  Through any
    operations that include no key callback the modifier mask and both key
    tables stay as they are; through any that include no mouse-button
    callback the button mask stays; through any that include neither a
    cursor position nor a focus callback the stored mouse position stays.
    [ClearEvents] writes none of them. *)
Theorem rolling_state_writers (ops : list Op) (h : Handler C) :
  (Forall (fun op => is_key_op op = false) ops ->
   mod_keys (state_ (run h ops)) = mod_keys (state_ h) /\
   keys (state_ (run h ops)) = keys (state_ h) /\
   all_keys (state_ (run h ops)) = all_keys (state_ h)) /\
  (Forall (fun op => is_mouse_button_op op = false) ops ->
   mouse_buttons (state_ (run h ops)) = mouse_buttons (state_ h)) /\
  (Forall (fun op => is_cursor_pos op = false /\ is_focus_op op = false) ops ->
   mouse_x (state_ (run h ops)) = mouse_x (state_ h) /\
   mouse_y (state_ (run h ops)) = mouse_y (state_ h)).
Proof.
  revert h. induction ops as [|op ops IH]; intros h; [cbn; auto|].
  rewrite !run_cons. destruct (IH (apply_op h op)) as (IHk & IHb & IHm).
  destruct (apply_op_rolling h op) as (Hk & Hb & Hm). cbv zeta in *.
  split; [|split].
  - intros [Hop Hops]%Forall_cons.
    destruct (IHk Hops) as (-> & -> & ->). by apply Hk.
  - intros [Hop Hops]%Forall_cons. rewrite (IHb Hops). by apply Hb.
  - intros [[Hop Hop'] Hops]%Forall_cons.
    destruct (IHm Hops) as (-> & ->). by apply Hm.
Qed.

(** ** One poll *)

Lemma deliver_log (cbs : list Callback) : forall h : Handler C,
  events (state_ h) = filter uncaptured (all_events (state_ h)) ->
  let s' := state_ (run h (Deliver <$> cbs)) in
  type <$> all_events s' = (type <$> all_events (state_ h)) ++ (tag <$> cbs) /\
  window <$> all_events s' = (window <$> all_events (state_ h)) ++ (window_of <$> cbs) /\
  events s' = filter uncaptured (all_events s').
Proof.
  induction cbs as [|cb cbs IH]; intros h Hinv.
  - cbn. rewrite !app_nil_r. auto.
  - cbn [fmap list_fmap]. fold (fmap Deliver cbs). rewrite run_cons. cbn [apply_op].
    destruct (dispatch_effect h cb) as (_ & _ & (e & Hty & Hw & Hc & Hall & Hev) & _).
    cbv zeta in *.
    destruct (IH (dispatch h cb).1) as (Ht' & Hw' & Hf').
    { rewrite Hall, Hev, filter_app, filter_cons, filter_nil, <- Hinv.
      destruct (ask_child (child_ h) cb).2.
      - rewrite decide_False by (unfold uncaptured; congruence). by rewrite app_nil_r.
      - rewrite decide_True by (unfold uncaptured; congruence). reflexivity. }
    cbv zeta in *. rewrite Ht', Hw', Hall, !fmap_app. cbn [fmap list_fmap].
    rewrite Hty, Hw, <- !app_assoc. auto.
Qed.

End MoreInput.

Lemma callbacks_deliver (cbs : list Callback) :
  callbacks (Deliver <$> cbs) = Z.of_nat (length cbs).
Proof.
  unfold callbacks. f_equal.
  induction cbs as [|cb cbs IH]; [reflexivity|].
  cbn [fmap list_fmap]. rewrite filter_cons, decide_True by exact I.
  cbn [length]. f_equal. exact IH.
Qed.

(** X5.  [App::PollEvents] on an initialised app clears the log and then
    records the poll: the returned state has in [all_events] exactly one
    event per callback delivered, in delivery order, each with the type
    constant and the window of its callback; [events] is that list without
    the captured events; and the counter has advanced by the number of
    callbacks (modulo 2^64).  Without an engine it returns [nullptr] and
    does nothing. *)
Theorem PollEvents_records_the_poll (app : App) (delivered : list Callback) :
  (app_engine_ app = false -> PollEvents app delivered = Some (app, None)) /\
  (forall h, app_engine_ app = true -> input_ app = Some h ->
     uint64_range (event_index (state_ h)) ->
     exists h',
       PollEvents app delivered =
         Some ({| window_ := window_ app; app_engine_ := true; ui_ := ui_ app;
                 input_ := Some h' |}, Some (state_ h')) /\
       type <$> all_events (state_ h') = tag <$> delivered /\
       window <$> all_events (state_ h') = window_of <$> delivered /\
       events (state_ h') = filter uncaptured (all_events (state_ h')) /\
       event_index (state_ h') =
         (event_index (state_ h) + Z.of_nat (length delivered)) mod 2 ^ 64).
Proof.
  unfold PollEvents. split; [intros ->; reflexivity|].
  intros h -> -> Hr. cbn [negb]. eexists. split; [reflexivity|].
  destruct (deliver_log delivered (ClearEvents h) eq_refl) as (Ht & Hw & Hf).
  cbv zeta in *. split; [exact Ht|]. split; [exact Hw|]. split; [exact Hf|].
  rewrite run_event_index by exact Hr. rewrite callbacks_deliver. reflexivity.
Qed.

(** ** A handler with no child *)

(** X6.  With the default [NoOpHandler] child nothing is ever captured: in
    every state the handler can reach, [events] is [all_events], [keys] is
    [all_keys], and no logged event is marked as captured. *)
Theorem NoOpHandler_captures_nothing (h : Handler NoOpHandler) :
  reachable h ->
  events (state_ h) = all_events (state_ h) /\
  keys (state_ h) = all_keys (state_ h) /\
  Forall (fun e => child_wants_capture e = false) (all_events (state_ h)).
Proof.
  induction 1 as [child|h op _ (IHe & IHk & IHc)]; [repeat split; constructor|].
  destruct op as [cb|]; [|split; [reflexivity|]; split; [exact IHk|constructor]].
  cbn [apply_op].
  destruct (dispatch_effect h cb) as (_ & _ & (e & _ & _ & Hc & Hall & Hev) & Hak & Hk & _).
  cbv zeta in *.
  assert (Hno : (ask_child (child_ h) cb).2 = false) by (destruct cb; reflexivity).
  rewrite Hno in *. rewrite Hall, Hev, Hak, Hk, IHe, IHk.
  repeat split. apply Forall_app. split; [assumption|]. by apply Forall_singleton.
Qed.

Lemma NoOpHandler_captures_nothing_witness :
  let h := run (Handler_new NoOp) [press GLFW_KEY_W; scroll_up; release GLFW_KEY_W] in
  reachable h /\
  events (state_ h) = all_events (state_ h) /\
  keys (state_ h) = all_keys (state_ h) /\
  Forall (fun e => child_wants_capture e = false) (all_events (state_ h)).
Proof.
  assert (Hr : reachable (run (Handler_new NoOp)
                            [press GLFW_KEY_W; scroll_up; release GLFW_KEY_W])).
  { exact (reachable_op _ (release GLFW_KEY_W)
             (reachable_op _ scroll_up
                (reachable_op _ (press GLFW_KEY_W) (reachable_new NoOp)))). }
  split; [exact Hr|]. exact (NoOpHandler_captures_nothing _ Hr).
Defined.

(** ** Setting and reading a key *)

Lemma PressedEventIndex_set_same ks key v :
  int32_range key -> tracked ks key ->
  PressedEventIndex (SetKeyEventIndex ks key v) key = to_int64 v.
Proof.
  intros Hk Ht. destruct (key_lt_size_tracked ks key Hk Ht) as [Hg Hs].
  unfold PressedEventIndex, SetKeyEventIndex, key_lt_size in *.
  rewrite Hg. unfold size. cbn [pressed_event_index_]. rewrite length_insert.
  fold (size ks). rewrite Hg. unfold vector_get.
  rewrite list_lookup_insert_eq; [reflexivity|].
  unfold tracked, size in Ht. rewrite Hs. lia.
Qed.

Lemma PressedEventIndex_set_other ks key key' v :
  int32_range key -> int32_range key' -> key' <> key ->
  PressedEventIndex (SetKeyEventIndex ks key v) key' = PressedEventIndex ks key'.
Proof.
  intros Hk Hk' Hne. unfold PressedEventIndex, key_lt_size.
  rewrite size_SetKeyEventIndex. destruct (to_size_t key' <? size ks); [|reflexivity].
  unfold SetKeyEventIndex. destruct (key_lt_size ks key); [|reflexivity].
  cbn [pressed_event_index_]. unfold vector_get.
  rewrite list_lookup_insert_ne; [reflexivity|]. by apply slot_injective.
Qed.

Lemma PressedEventIndex_new max_key ks key :
  KeyboardState_new max_key = Some ks -> PressedEventIndex ks key = 0.
Proof.
  intros [_ Hks]%KeyboardState_new_Some.
  unfold PressedEventIndex, vector_get. rewrite Hks.
  destruct (key_lt_size _ _); [|reflexivity].
  destruct (replicate _ 0 !! _) as [v|] eqn:Hv; [|reflexivity].
  apply lookup_replicate in Hv as [-> _]. reflexivity.
Qed.

(** X7.  The constructor of [KeyboardState] is defined for
    -1 <= [max_key] < [INT32_MAX], and there it builds a table of
    [max_key] + 1 keys, all released; for any other [max_key] the size
    [max_key + 1] it asks for overflows or is negative, and no table is
    built.  [SetKeyEventIndex] on a tracked key is read back by
    [PressedEventIndex] (as the [int64_t] of what was stored), so the key
    counts as pressed exactly when a non-zero index was stored; no other key
    reads differently, and the size of the table never changes. *)
Theorem KeyboardState_set_then_read :
  (forall max_key, -1 <= max_key < 2 ^ 31 - 1 ->
     exists ks,
       KeyboardState_new max_key = Some ks /\
       size ks = max_key + 1 /\
       forall key, PressedEventIndex ks key = 0 /\ IsPressed ks key = false) /\
  (forall max_key, max_key < -1 \/ 2 ^ 31 - 1 <= max_key ->
     KeyboardState_new max_key = None) /\
  (forall ks key v,
     size (SetKeyEventIndex ks key v) = size ks /\
     (int32_range key -> tracked ks key ->
      PressedEventIndex (SetKeyEventIndex ks key v) key = to_int64 v /\
      (uint64_range v -> IsPressed (SetKeyEventIndex ks key v) key = negb (v =? 0))) /\
     (forall key', int32_range key -> int32_range key' -> key' <> key ->
      PressedEventIndex (SetKeyEventIndex ks key v) key' = PressedEventIndex ks key' /\
      IsPressed (SetKeyEventIndex ks key v) key' = IsPressed ks key')).
Proof.
  split; [|split].
  - intros max_key Hm.
    destruct (KeyboardState_new max_key) as [ks|] eqn:Hnew.
    + exists ks. split; [reflexivity|].
      pose proof (KeyboardState_new_Some _ _ Hnew) as [_ Hks].
      split; [unfold size; rewrite Hks, length_replicate; lia|].
      intros key. unfold IsPressed. rewrite (PressedEventIndex_new _ _ key Hnew).
      split; reflexivity.
    + unfold KeyboardState_new in Hnew.
      destruct (Z.leb_spec (-1) max_key); [|lia].
      destruct (Z.ltb_spec max_key (2 ^ 31 - 1)); [discriminate Hnew|lia].
  - intros max_key Hm. unfold KeyboardState_new.
    destruct (Z.leb_spec (-1) max_key); [|reflexivity].
    destruct (Z.ltb_spec max_key (2 ^ 31 - 1)); [lia|reflexivity].
  - intros ks key v. split; [apply size_SetKeyEventIndex|]. split.
    + intros Hk Ht. unfold IsPressed. rewrite PressedEventIndex_set_same by assumption.
      split; [reflexivity|]. intros Hv. f_equal.
      unfold to_int64, wrap_signed. replace (64 - 1) with 63 by lia.
      destruct (Z.eqb_spec v 0) as [->|Hne]; [reflexivity|].
      apply Z.eqb_neq. int_bounds.
      destruct (Z.lt_ge_cases v 9223372036854775808).
      * rewrite Z.mod_small; lia.
      * rewrite <- (Z.mod_unique_pos (v + 9223372036854775808) 18446744073709551616 1
                      (v - 9223372036854775808)); lia.
    + intros key' Hk Hk' Hne. unfold IsPressed.
      rewrite PressedEventIndex_set_other by assumption. auto.
Qed.

Lemma KeyboardState_set_then_read_witness :
  (-1 <= GLFW_KEY_LAST < 2 ^ 31 - 1 /\
   KeyboardState_new GLFW_KEY_LAST = Some (keys State_new) /\
   size (keys State_new) = GLFW_KEY_LAST + 1) /\
  (2 ^ 31 - 1 <= 2 ^ 31 - 1 /\ KeyboardState_new (2 ^ 31 - 1) = None) /\
  (int32_range GLFW_KEY_W /\ tracked (keys State_new) GLFW_KEY_W /\ uint64_range 5 /\
   PressedEventIndex (SetKeyEventIndex (keys State_new) GLFW_KEY_W 5) GLFW_KEY_W = to_int64 5 /\
   IsPressed (SetKeyEventIndex (keys State_new) GLFW_KEY_W 5) GLFW_KEY_W = negb (5 =? 0)) /\
  (int32_range GLFW_KEY_S /\ GLFW_KEY_S <> GLFW_KEY_W /\
   IsPressed (SetKeyEventIndex (keys State_new) GLFW_KEY_W 5) GLFW_KEY_S =
     IsPressed (keys State_new) GLFW_KEY_S).
Proof.
  assert (Hm : -1 <= GLFW_KEY_LAST < 2 ^ 31 - 1) by (split; [discriminate|reflexivity]).
  assert (Hx : 2 ^ 31 - 1 <= 2 ^ 31 - 1) by lia.
  assert (Hw : int32_range GLFW_KEY_W) by (vm_compute; split; [discriminate|reflexivity]).
  assert (Hs : int32_range GLFW_KEY_S) by (vm_compute; split; [discriminate|reflexivity]).
  assert (Ht : tracked (keys State_new) GLFW_KEY_W)
    by (vm_compute; split; [discriminate|reflexivity]).
  assert (Hv : uint64_range 5) by (vm_compute; split; [discriminate|reflexivity]).
  assert (Hne : GLFW_KEY_S <> GLFW_KEY_W) by discriminate.
  destruct KeyboardState_set_then_read as (Hnew & Hnone & Hset).
  destruct (Hset (keys State_new) GLFW_KEY_W 5) as (_ & Hsame & Hother).
  destruct (Hsame Hw Ht) as [Hread Hpressed].
  destruct (Hnew GLFW_KEY_LAST Hm) as (ks & Hks & Hsize & _).
  assert (ks = keys State_new) as -> by (vm_compute in Hks; by injection Hks as <-).
  split; [split; [exact Hm|split; [exact Hks|exact Hsize]]|].
  split; [split; [exact Hx|exact (Hnone _ (or_intror Hx))]|].
  split; [split; [exact Hw|]; split; [exact Ht|]; split; [exact Hv|];
          split; [exact Hread|exact (Hpressed Hv)]|].
  split; [exact Hs|]. split; [exact Hne|].
  exact (proj2 (Hother GLFW_KEY_S Hw Hs Hne)).
Defined.

(** ** The key tables over a run *)

Lemma size_stamp_key ks key action stamp : size (stamp_key ks key action stamp) = size ks.
Proof.
  unfold stamp_key. destruct (action =? GLFW_PRESS), (action =? GLFW_RELEASE);
    rewrite ?size_SetKeyEventIndex; reflexivity.
Qed.

Lemma size_table_after ks op stamp : size (table_after ks op stamp) = size ks.
Proof. destruct op as [[]|]; cbn [table_after]; rewrite ?size_stamp_key; reflexivity. Qed.

Lemma Axis_after_press n ks a b :
  table_inv n ks -> 0 <= n -> n + 1 < 2 ^ 31 ->
  int32_range a -> int32_range b -> a <> b -> tracked ks b ->
  Axis (SetKeyEventIndex ks b (n + 1)) a b = 1 /\
  Axis (SetKeyEventIndex ks b (n + 1)) b a = -1.
Proof.
  intros Hinv H0 Hn Ha Hb Hab Ht. unfold Axis.
  rewrite PressedEventIndex_set_same by assumption.
  rewrite PressedEventIndex_set_other by assumption.
  destruct (PressedEventIndex_inv n ks a Hinv ltac:(int_lia)) as (Hr & _).
  rewrite to_int64_small by int_lia. rewrite !to_int32_small by int_lia.
  destruct (Z.gtb_spec (PressedEventIndex ks a) (n + 1)); [lia|].
  destruct (Z.gtb_spec (n + 1) (PressedEventIndex ks a)); [|lia]. auto.
Qed.

Lemma Axis_after_release n ks a b :
  table_inv n ks -> 0 <= n < 2 ^ 31 ->
  int32_range a -> int32_range b -> a <> b -> tracked ks b ->
  Axis (SetKeyEventIndex ks b 0) a b = (if IsPressed ks a then -1 else 0) /\
  Axis (SetKeyEventIndex ks b 0) b a = (if IsPressed ks a then 1 else 0).
Proof.
  intros Hinv Hn Ha Hb Hab Ht. unfold Axis, IsPressed.
  rewrite PressedEventIndex_set_same by assumption.
  rewrite PressedEventIndex_set_other by assumption.
  destruct (PressedEventIndex_inv n ks a Hinv Hn) as (Hr & _).
  change (to_int64 0) with 0. change (to_int32 0) with 0.
  rewrite !to_int32_small by int_lia.
  destruct (Z.eqb_spec (PressedEventIndex ks a) 0) as [->|Hne]; [split; reflexivity|].
  cbn [negb].
  destruct (Z.gtb_spec (PressedEventIndex ks a) 0); [|lia].
  destruct (Z.gtb_spec 0 (PressedEventIndex ks a)); [lia|]. auto.
Qed.

Lemma size_State_new :
  size (keys State_new) = GLFW_KEY_LAST + 1 /\ size (all_keys State_new) = GLFW_KEY_LAST + 1.
Proof. split; vm_compute; reflexivity. Qed.

Section MoreKeys.
Context {C : Type} `{ChildHandler C}.

Lemma apply_op_sizes (h : Handler C) op :
  size (keys (state_ (apply_op h op))) = size (keys (state_ h)) /\
  size (all_keys (state_ (apply_op h op))) = size (all_keys (state_ h)).
Proof.
  destruct (apply_op_tables h op) as [-> Hk]. rewrite size_table_after.
  destruct Hk as [->| ->]; rewrite ?size_table_after; auto.
Qed.

Lemma run_sizes ops : forall h : Handler C,
  size (keys (state_ (run h ops))) = size (keys (state_ h)) /\
  size (all_keys (state_ (run h ops))) = size (all_keys (state_ h)).
Proof.
  induction ops as [|op ops IH]; intros h; [auto|].
  rewrite run_cons. destruct (IH (apply_op h op)) as [-> ->]. apply apply_op_sizes.
Qed.

(** X8.  Invariant of the two key tables.  In the state reached from a new
    handler by any operations with fewer than 2^64 callbacks among them:
    [event_index] is the number of callbacks; each table still has
    [GLFW_KEY_LAST + 1] entries; every entry is 0 or the index of a callback
    already processed, so never above [event_index]; and no two keys of a
    table carry the same non-zero index. *)
Theorem key_tables_invariant (child : C) (ops : list Op) :
  callbacks ops < 2 ^ 64 ->
  let s := state_ (run (Handler_new child) ops) in
  event_index s = callbacks ops /\
  size (keys s) = GLFW_KEY_LAST + 1 /\ size (all_keys s) = GLFW_KEY_LAST + 1 /\
  (forall ks, ks = keys s \/ ks = all_keys s ->
     (forall key v, stored ks key = Some v -> 0 <= v <= event_index s) /\
     (forall key key' v, 0 <= key -> 0 <= key' -> key <> key' ->
        stored ks key = Some v -> stored ks key' = Some v -> v = 0)).
Proof.
  intros Hn.
  destruct (run_State_inv (Handler_new child) ops State_inv_new) as [(H0 & Hk & Hak) He].
  { cbn [Handler_new state_ State_new event_index]. lia. }
  destruct (run_sizes ops (Handler_new child)) as [Sk Sak].
  cbv zeta. split; [rewrite He; reflexivity|].
  split; [rewrite Sk; exact (proj1 size_State_new)|].
  split; [rewrite Sak; exact (proj2 size_State_new)|].
  intros ks Hks.
  assert (Hinv : table_inv (event_index (state_ (run (Handler_new child) ops))) ks)
    by (destruct Hks as [->| ->]; assumption).
  destruct Hinv as [Hb Hd]. unfold stored. split.
  - intros key v. apply Hb.
  - intros key key' v Hk0 Hk0' Hne. apply Hd. lia.
Qed.

(** X9.  The key pressed last wins.  Fewer than 2^31 - 1 callbacks after a
    new handler, right after a press of a tracked key [b], [Axis(a, b)] is 1
    and [Axis(b, a)] is -1 for every other key [a], held or not: in
    [all_keys] always, in [keys] when the press was not captured. *)
Theorem last_pressed_key_wins (child : C) (ops : list Op) (w : GLFWwindow)
    (a b sc mods : Z) :
  int32_range a -> 0 <= b <= GLFW_KEY_LAST -> a <> b ->
  callbacks ops + 1 < 2 ^ 31 ->
  let r := OnGlfwKey (run (Handler_new child) ops) w b sc GLFW_PRESS mods in
  (Axis (all_keys (state_ r.1)) a b = 1 /\ Axis (all_keys (state_ r.1)) b a = -1) /\
  (r.2 = false ->
   Axis (keys (state_ r.1)) a b = 1 /\ Axis (keys (state_ r.1)) b a = -1).
Proof.
  intros Ha Hb Hab Hn. pose proof (callbacks_nonneg ops) as Hc0.
  destruct (run_State_inv (Handler_new child) ops State_inv_new) as [(H0 & Hk & Hak) He].
  { cbn [Handler_new state_ State_new event_index]. int_lia. }
  destruct (run_sizes ops (Handler_new child)) as [Sk Sak].
  cbn [Handler_new state_ State_new event_index] in He. rewrite Z.add_0_l in He.
  assert (Hb32 : int32_range b) by (unfold GLFW_KEY_LAST, GLFW_KEY_MENU in Hb; int_lia).
  cbv zeta. destruct (OnGlfwKey_state (run (Handler_new child) ops) w b sc GLFW_PRESS mods)
    as [-> ->].
  cbn [keys all_keys]. rewrite !stamp_key_press, He, to_uint64_small by int_lia.
  rewrite He in Hk, Hak. split.
  - apply Axis_after_press; try assumption; try lia.
    unfold tracked. rewrite Sak. cbn [Handler_new state_].
    rewrite (proj2 size_State_new). lia.
  - intros ->. apply Axis_after_press; try assumption; try lia.
    unfold tracked. rewrite Sk. cbn [Handler_new state_].
    rewrite (proj1 size_State_new). lia.
Qed.

(** X10.  Right after a release of a tracked key [b], under the same bound,
    [Axis(a, b)] is -1 if the other key [a] is held and 0 if it is not, and
    [Axis(b, a)] is the opposite: in [all_keys] always, in [keys] when the
    release was not captured. *)
Theorem released_key_yields (child : C) (ops : list Op) (w : GLFWwindow)
    (a b sc mods : Z) :
  int32_range a -> 0 <= b <= GLFW_KEY_LAST -> a <> b ->
  callbacks ops < 2 ^ 31 ->
  let h := run (Handler_new child) ops in
  let r := OnGlfwKey h w b sc GLFW_RELEASE mods in
  (Axis (all_keys (state_ r.1)) a b = (if IsPressed (all_keys (state_ h)) a then -1 else 0) /\
   Axis (all_keys (state_ r.1)) b a = (if IsPressed (all_keys (state_ h)) a then 1 else 0)) /\
  (r.2 = false ->
   Axis (keys (state_ r.1)) a b = (if IsPressed (keys (state_ h)) a then -1 else 0) /\
   Axis (keys (state_ r.1)) b a = (if IsPressed (keys (state_ h)) a then 1 else 0)).
Proof.
  intros Ha Hb Hab Hn. pose proof (callbacks_nonneg ops) as Hc0.
  destruct (run_State_inv (Handler_new child) ops State_inv_new) as [(H0 & Hk & Hak) He].
  { cbn [Handler_new state_ State_new event_index]. int_lia. }
  destruct (run_sizes ops (Handler_new child)) as [Sk Sak].
  cbn [Handler_new state_ State_new event_index] in He. rewrite Z.add_0_l in He.
  assert (Hb32 : int32_range b) by (unfold GLFW_KEY_LAST, GLFW_KEY_MENU in Hb; int_lia).
  cbv zeta. destruct (OnGlfwKey_state (run (Handler_new child) ops) w b sc GLFW_RELEASE mods)
    as [-> ->].
  cbn [keys all_keys]. rewrite !stamp_key_release.
  rewrite He in Hk, Hak. split.
  - apply (Axis_after_release (callbacks ops)); try assumption; try lia.
    unfold tracked. rewrite Sak. cbn [Handler_new state_].
    rewrite (proj2 size_State_new). lia.
  - intros ->. apply (Axis_after_release (callbacks ops)); try assumption; try lia.
    unfold tracked. rewrite Sk. cbn [Handler_new state_].
    rewrite (proj1 size_State_new). lia.
Qed.

End MoreKeys.

(** ** The further properties on concrete runs *)

Lemma mouse_buttons_follow_device_witness :
  let h := Handler_new captures_mouse in
  let s' := state_ (OnGlfwMouseButton h 0 GLFW_MOUSE_BUTTON_LEFT GLFW_PRESS 0).1 in
  0 <= GLFW_MOUSE_BUTTON_LEFT <= 30 /\
  (0 <= GLFW_MOUSE_BUTTON_RIGHT <= 30 /\ GLFW_MOUSE_BUTTON_RIGHT <> GLFW_MOUSE_BUTTON_LEFT) /\
  HasGlfwButton (mouse_buttons s') GLFW_MOUSE_BUTTON_LEFT = true /\
  HasGlfwButton (mouse_buttons s') GLFW_MOUSE_BUTTON_RIGHT =
    HasGlfwButton (mouse_buttons (state_ h)) GLFW_MOUSE_BUTTON_RIGHT.
Proof.
  cbv zeta.
  assert (Hl : 0 <= GLFW_MOUSE_BUTTON_LEFT <= 30) by (split; discriminate).
  assert (Hr : 0 <= GLFW_MOUSE_BUTTON_RIGHT <= 30) by (split; discriminate).
  assert (Hne : GLFW_MOUSE_BUTTON_RIGHT <> GLFW_MOUSE_BUTTON_LEFT) by discriminate.
  destruct (mouse_buttons_follow_device (Handler_new captures_mouse) 0
              GLFW_MOUSE_BUTTON_LEFT GLFW_PRESS 0 Hl) as (Hp & _ & _ & Ho).
  split; [exact Hl|]. split; [split; [exact Hr|exact Hne]|].
  split; [exact (Hp eq_refl)|exact (Ho GLFW_MOUSE_BUTTON_RIGHT Hr Hne)].
Defined.

Lemma modifiers_follow_modifier_keys_witness :
  let h := run (Handler_new captures_keyboard)
             [press GLFW_KEY_LEFT_SHIFT; press GLFW_KEY_RIGHT_SHIFT;
              press GLFW_KEY_LEFT_CONTROL] in
  let s' := state_ (OnGlfwKey h 0 GLFW_KEY_LEFT_SHIFT 0 GLFW_RELEASE 0).1 in
  (modifier_bits GLFW_KEY_LEFT_SHIFT = Some GLFW_MOD_SHIFT /\
   is_modifier_bit GLFW_MOD_CONTROL /\ GLFW_MOD_CONTROL <> GLFW_MOD_SHIFT) /\
  HasBits (mod_keys (state_ h)) GLFW_MOD_SHIFT = true /\
  HasBits (mod_keys s') GLFW_MOD_SHIFT = false /\
  HasBits (mod_keys s') GLFW_MOD_CONTROL = HasBits (mod_keys (state_ h)) GLFW_MOD_CONTROL /\
  (modifier_bits GLFW_KEY_W = None /\
   mod_keys (state_ (OnGlfwKey h 0 GLFW_KEY_W 0 GLFW_PRESS 0).1) = mod_keys (state_ h)).
Proof.
  cbv zeta.
  assert (Hk : modifier_bits GLFW_KEY_LEFT_SHIFT = Some GLFW_MOD_SHIFT) by reflexivity.
  assert (Hb : is_modifier_bit GLFW_MOD_CONTROL).
  { unfold is_modifier_bit. apply elem_of_cons. right. apply elem_of_cons. left. reflexivity. }
  assert (Hne : GLFW_MOD_CONTROL <> GLFW_MOD_SHIFT) by discriminate.
  assert (Hw : modifier_bits GLFW_KEY_W = None) by reflexivity.
  destruct (modifiers_follow_modifier_keys
              (run (Handler_new captures_keyboard)
                 [press GLFW_KEY_LEFT_SHIFT; press GLFW_KEY_RIGHT_SHIFT;
                  press GLFW_KEY_LEFT_CONTROL])
              0 GLFW_KEY_LEFT_SHIFT 0 GLFW_RELEASE 0) as (Hmod & _).
  destruct (Hmod GLFW_MOD_SHIFT Hk) as (_ & Hrel & Hoth).
  destruct (modifiers_follow_modifier_keys
              (run (Handler_new captures_keyboard)
                 [press GLFW_KEY_LEFT_SHIFT; press GLFW_KEY_RIGHT_SHIFT;
                  press GLFW_KEY_LEFT_CONTROL])
              0 GLFW_KEY_W 0 GLFW_PRESS 0) as (_ & Hnone & _).
  split; [auto|]. split; [reflexivity|]. split; [exact (Hrel eq_refl)|].
  split; [exact (Hoth GLFW_MOD_CONTROL Hb Hne)|]. split; [exact Hw|exact (Hnone Hw)].
Defined.

Lemma rolling_state_writers_witness :
  let h := run (Handler_new NoOp) [press GLFW_KEY_LEFT_SHIFT; click 0; move_to 3 4] in
  let ops := [scroll_up; Deliver (CursorEnter 0 1); Clear; Deliver (CharInput 0 97)] in
  (Forall (fun op => is_key_op op = false) ops /\
   Forall (fun op => is_mouse_button_op op = false) ops /\
   Forall (fun op => is_cursor_pos op = false /\ is_focus_op op = false) ops) /\
  (mod_keys (state_ (run h ops)) = mod_keys (state_ h) /\
   keys (state_ (run h ops)) = keys (state_ h) /\
   all_keys (state_ (run h ops)) = all_keys (state_ h)) /\
  mouse_buttons (state_ (run h ops)) = mouse_buttons (state_ h) /\
  (mouse_x (state_ (run h ops)) = mouse_x (state_ h) /\
   mouse_y (state_ (run h ops)) = mouse_y (state_ h)).
Proof.
  cbv zeta.
  assert (Hk : Forall (fun op => is_key_op op = false)
                 [scroll_up; Deliver (CursorEnter 0 1); Clear; Deliver (CharInput 0 97)]).
  { repeat first [apply Forall_nil_2 | apply Forall_cons_2]; reflexivity. }
  assert (Hb : Forall (fun op => is_mouse_button_op op = false)
                 [scroll_up; Deliver (CursorEnter 0 1); Clear; Deliver (CharInput 0 97)]).
  { repeat first [apply Forall_nil_2 | apply Forall_cons_2]; reflexivity. }
  assert (Hm : Forall (fun op => is_cursor_pos op = false /\ is_focus_op op = false)
                 [scroll_up; Deliver (CursorEnter 0 1); Clear; Deliver (CharInput 0 97)]).
  { repeat first [apply Forall_nil_2 | apply Forall_cons_2]; split; reflexivity. }
  destruct (rolling_state_writers
              [scroll_up; Deliver (CursorEnter 0 1); Clear; Deliver (CharInput 0 97)]
              (run (Handler_new NoOp) [press GLFW_KEY_LEFT_SHIFT; click 0; move_to 3 4]))
    as (Wk & Wb & Wm).
  split; [auto|]. split; [exact (Wk Hk)|]. split; [exact (Wb Hb)|exact (Wm Hm)].
Defined.

Lemma PollEvents_records_the_poll_witness :
  let delivered := [CursorPosition 7 (double_of_int 1) (double_of_int 2);
                    KeyAction 7 GLFW_KEY_W 0 GLFW_PRESS 0; CharInput 7 119] in
  (app_engine_ app_ready = true /\ input_ app_ready = Some (Handler_new captures_mouse) /\
   uint64_range (event_index (state_ (Handler_new captures_mouse)))) /\
  exists h',
    PollEvents app_ready delivered =
      Some ({| window_ := true; app_engine_ := true; ui_ := Some (Ui_new true true);
              input_ := Some h' |}, Some (state_ h')) /\
    type <$> all_events (state_ h') = [kCursorPos; kKey; kChar] /\
    type <$> events (state_ h') = [kKey; kChar] /\
    event_index (state_ h') = 3.
Proof.
  cbv zeta.
  assert (He : app_engine_ app_ready = true) by reflexivity.
  assert (Hi : input_ app_ready = Some (Handler_new captures_mouse)) by reflexivity.
  assert (Hr : uint64_range (event_index (state_ (Handler_new captures_mouse))))
    by (vm_compute; split; [discriminate|reflexivity]).
  split; [auto|].
  destruct (proj2 (PollEvents_records_the_poll app_ready
                     [CursorPosition 7 (double_of_int 1) (double_of_int 2);
                      KeyAction 7 GLFW_KEY_W 0 GLFW_PRESS 0; CharInput 7 119])
              _ He Hi Hr) as (h' & Hrun & Ht & _ & Hf & Hx).
  exists h'. split; [exact Hrun|]. split; [exact Ht|].
  split; [|exact Hx].
  vm_compute in Hrun. injection Hrun as <-. reflexivity.
Defined.

Lemma key_tables_invariant_witness :
  let ops := [press GLFW_KEY_S; press GLFW_KEY_W; release GLFW_KEY_S; scroll_up] in
  let s := state_ (run (Handler_new captures_mouse) ops) in
  callbacks ops < 2 ^ 64 /\
  event_index s = callbacks ops /\
  size (keys s) = GLFW_KEY_LAST + 1 /\ size (all_keys s) = GLFW_KEY_LAST + 1 /\
  (forall key v, stored (keys s) key = Some v -> 0 <= v <= event_index s).
Proof.
  cbv zeta.
  assert (Hn : callbacks [press GLFW_KEY_S; press GLFW_KEY_W; release GLFW_KEY_S; scroll_up]
               < 2 ^ 64) by reflexivity.
  destruct (key_tables_invariant captures_mouse
              [press GLFW_KEY_S; press GLFW_KEY_W; release GLFW_KEY_S; scroll_up] Hn)
    as (He & Sk & Sak & Htab).
  split; [exact Hn|]. split; [exact He|]. split; [exact Sk|]. split; [exact Sak|].
  exact (proj1 (Htab _ (or_introl eq_refl))).
Defined.

Lemma last_pressed_key_wins_witness :
  let ops := [press GLFW_KEY_S; scroll_up] in
  let r := OnGlfwKey (run (Handler_new NoOp) ops) 0 GLFW_KEY_W 0 GLFW_PRESS 0 in
  (int32_range GLFW_KEY_S /\ 0 <= GLFW_KEY_W <= GLFW_KEY_LAST /\ GLFW_KEY_S <> GLFW_KEY_W /\
   callbacks ops + 1 < 2 ^ 31 /\ r.2 = false) /\
  (Axis (all_keys (state_ r.1)) GLFW_KEY_S GLFW_KEY_W = 1 /\
   Axis (all_keys (state_ r.1)) GLFW_KEY_W GLFW_KEY_S = -1) /\
  (Axis (keys (state_ r.1)) GLFW_KEY_S GLFW_KEY_W = 1 /\
   Axis (keys (state_ r.1)) GLFW_KEY_W GLFW_KEY_S = -1).
Proof.
  cbv zeta.
  assert (Ha : int32_range GLFW_KEY_S) by (vm_compute; split; [discriminate|reflexivity]).
  assert (Hb : 0 <= GLFW_KEY_W <= GLFW_KEY_LAST) by (split; discriminate).
  assert (Hab : GLFW_KEY_S <> GLFW_KEY_W) by discriminate.
  assert (Hn : callbacks [press GLFW_KEY_S; scroll_up] + 1 < 2 ^ 31) by reflexivity.
  assert (Hc : (OnGlfwKey (run (Handler_new NoOp) [press GLFW_KEY_S; scroll_up])
                  0 GLFW_KEY_W 0 GLFW_PRESS 0).2 = false) by reflexivity.
  destruct (last_pressed_key_wins NoOp [press GLFW_KEY_S; scroll_up] 0
              GLFW_KEY_S GLFW_KEY_W 0 0 Ha Hb Hab Hn) as [Hall Hkeys].
  split; [auto 10|]. split; [exact Hall|exact (Hkeys Hc)].
Defined.

Lemma released_key_yields_witness :
  let ops := [press GLFW_KEY_S; press GLFW_KEY_W] in
  let h := run (Handler_new NoOp) ops in
  let r := OnGlfwKey h 0 GLFW_KEY_W 0 GLFW_RELEASE 0 in
  (int32_range GLFW_KEY_S /\ 0 <= GLFW_KEY_W <= GLFW_KEY_LAST /\ GLFW_KEY_S <> GLFW_KEY_W /\
   callbacks ops < 2 ^ 31 /\ r.2 = false) /\
  IsPressed (keys (state_ h)) GLFW_KEY_S = true /\
  Axis (all_keys (state_ r.1)) GLFW_KEY_S GLFW_KEY_W =
    (if IsPressed (all_keys (state_ h)) GLFW_KEY_S then -1 else 0) /\
  Axis (keys (state_ r.1)) GLFW_KEY_S GLFW_KEY_W =
    (if IsPressed (keys (state_ h)) GLFW_KEY_S then -1 else 0).
Proof.
  cbv zeta.
  assert (Ha : int32_range GLFW_KEY_S) by (vm_compute; split; [discriminate|reflexivity]).
  assert (Hb : 0 <= GLFW_KEY_W <= GLFW_KEY_LAST) by (split; discriminate).
  assert (Hab : GLFW_KEY_S <> GLFW_KEY_W) by discriminate.
  assert (Hn : callbacks [press GLFW_KEY_S; press GLFW_KEY_W] < 2 ^ 31) by reflexivity.
  assert (Hc : (OnGlfwKey (run (Handler_new NoOp) [press GLFW_KEY_S; press GLFW_KEY_W])
                  0 GLFW_KEY_W 0 GLFW_RELEASE 0).2 = false) by reflexivity.
  destruct (released_key_yields NoOp [press GLFW_KEY_S; press GLFW_KEY_W] 0
              GLFW_KEY_S GLFW_KEY_W 0 0 Ha Hb Hab Hn) as [Hall Hkeys].
  split; [auto 10|]. split; [reflexivity|].
  split; [exact (proj1 Hall)|exact (proj1 (Hkeys Hc))].
Defined.

(** * The demo's use of the input state *)

Lemma Clamped_max_min value lo hi : Clamped value lo hi = Z.max lo (Z.min hi value).
Proof.
  unfold Clamped, std_max, std_min.
  destruct (Z.ltb_spec value hi); [rewrite (Z.min_r hi value) by lia|rewrite Z.min_l by lia];
    match goal with
    | |- context [if ?a <? ?b then _ else _] => destruct (Z.ltb_spec a b)
    end; lia.
Qed.

(** X11.  [Clamped] limits a value to [lo, hi]: within the bounds it is the
    value itself, below them [lo], above them [hi]; clamping twice is
    clamping once.  If the bounds are crossed ([hi < lo]) the result is [lo]
    whatever the value. *)
Theorem Clamped_limits (value lo hi : Z) :
  (lo <= hi ->
     lo <= Clamped value lo hi <= hi /\
     (lo <= value <= hi -> Clamped value lo hi = value) /\
     (value < lo -> Clamped value lo hi = lo) /\
     (hi < value -> Clamped value lo hi = hi)) /\
  (hi < lo -> Clamped value lo hi = lo) /\
  Clamped (Clamped value lo hi) lo hi = Clamped value lo hi.
Proof.
  rewrite !Clamped_max_min. repeat split; intros; lia.
Qed.

Lemma Clamped_limits_witness :
  (0 <= 10 /\ 0 <= Clamped 11 0 10 <= 10 /\ Clamped 11 0 10 = 10 /\ Clamped (-1) 0 10 = 0) /\
  (3 < 5 /\ Clamped 4 5 3 = 5).
Proof.
  assert (H1 : 0 <= 10) by discriminate.
  assert (H2 : 10 < 11) by reflexivity.
  assert (H3 : -1 < 0) by reflexivity.
  assert (H4 : 3 < 5) by reflexivity.
  destruct (Clamped_limits 11 0 10) as (Hin & _).
  destruct (Hin H1) as (Hr & _ & _ & Hhi).
  destruct (Clamped_limits (-1) 0 10) as (Hin' & _).
  destruct (Hin' H1) as (_ & _ & Hlo & _).
  destruct (Clamped_limits 4 5 3) as (_ & Hx & _).
  split; [split; [exact H1|]; split; [exact Hr|]; split; [exact (Hhi H2)|exact (Hlo H3)]|].
  split; [exact H4|exact (Hx H4)].
Defined.

Lemma scan_key_cases inc e :
  scan_key inc e =
    if is_press_of GLFW_KEY_O e then -1
    else if is_press_of GLFW_KEY_P e then 1 else inc.
Proof.
  unfold scan_key, is_press_of.
  destruct (type e =? kKey); [|reflexivity].
  destruct (data e) as [| | | | |k|]; try reflexivity.
  destruct (k_action k =? GLFW_PRESS), (k_key k =? GLFW_KEY_O), (k_key k =? GLFW_KEY_P);
    reflexivity.
Qed.

Lemma scan_from_quiet events : forall inc,
  Forall (fun e => switches_env e = false) events -> foldl scan_key inc events = inc.
Proof.
  induction events as [|e events IH]; intros inc Hq; [reflexivity|].
  apply Forall_cons in Hq as [He Hq]. cbn [foldl]. rewrite scan_key_cases.
  unfold switches_env in He. apply orb_false_elim in He as [-> ->]. by apply IH.
Qed.

Lemma scan_events_values events : scan_events events ∈ [-1; 0; 1].
Proof.
  unfold scan_events.
  assert (Hgen : forall inc, inc ∈ [-1; 0; 1] -> foldl scan_key inc events ∈ [-1; 0; 1]).
  { induction events as [|e events IH]; intros inc Hinc; [exact Hinc|].
    cbn [foldl]. apply IH. rewrite scan_key_cases.
    destruct (is_press_of GLFW_KEY_O e); [(rewrite !elem_of_cons; auto 6)|].
    destruct (is_press_of GLFW_KEY_P e); [(rewrite !elem_of_cons; auto 6)|assumption]. }
  apply Hgen. (rewrite !elem_of_cons; auto 6).
Qed.

(** X12.  The environment keys of the demo.  Starting from an index within
    the 11 environments, [ProcessInput] leaves an index within them, at most
    one step away.  It is the last press of O or P among the uncaptured
    events of the frame that decides: O steps down and stops at 0, P steps up
    and stops at 10; with no such press the index stays. *)
Theorem environment_keys (i_env : Z) (input : State) :
  0 <= i_env <= kEnvNames_count - 1 ->
  0 <= next_env i_env input <= kEnvNames_count - 1 /\
  i_env - 1 <= next_env i_env input <= i_env + 1 /\
  (Forall (fun e => switches_env e = false) (events input) ->
   next_env i_env input = i_env) /\
  (forall before e after,
     events input = before ++ e :: after ->
     Forall (fun e => switches_env e = false) after ->
     (is_press_of GLFW_KEY_O e = true -> next_env i_env input = Z.max 0 (i_env - 1)) /\
     (is_press_of GLFW_KEY_O e = false -> is_press_of GLFW_KEY_P e = true ->
      next_env i_env input = Z.min (kEnvNames_count - 1) (i_env + 1))).
Proof.
  intros Hi. unfold kEnvNames_count in *.
  assert (Hnext : forall inc, inc ∈ [-1; 0; 1] -> scan_events (events input) = inc ->
            next_env i_env input = Z.max 0 (Z.min 10 (i_env + inc))).
  { intros inc Hinc Hscan. unfold next_env, kEnvNames_count. rewrite Hscan.
    change (to_int32 (to_size_t (11 - 1))) with 10.
    assert (Hsmall : to_int32 (i_env + inc) = i_env + inc).
    { unfold to_int32, wrap_signed. replace (32 - 1) with 31 by lia.
      assert (-1 <= inc <= 1).
      { pose proof Hinc as Hinc'.
        repeat (apply elem_of_cons in Hinc' as [->|Hinc']; [lia|]).
        by apply elem_of_nil in Hinc'. }
      rewrite Z.mod_small; int_lia. }
    rewrite Hsmall, Clamped_max_min.
    assert (-1 <= inc <= 1).
    { pose proof Hinc as Hinc'.
      repeat (apply elem_of_cons in Hinc' as [->|Hinc']; [lia|]).
      by apply elem_of_nil in Hinc'. }
    destruct (Z.eqb_spec inc 0) as [->|]; cbn [negb].
    - lia.
    - destruct (Z.eqb_spec (Z.max 0 (Z.min 10 (i_env + inc))) i_env) as [E|]; cbn [negb];
        [symmetry; exact E|reflexivity]. }
  pose proof (scan_events_values (events input)) as Hv.
  pose proof (Hnext _ Hv eq_refl) as Hn.
  assert (-1 <= scan_events (events input) <= 1).
  { pose proof Hv as Hv'.
    repeat (apply elem_of_cons in Hv' as [E|Hv']; [rewrite E; lia|]).
    by apply elem_of_nil in Hv'. }
  split; [lia|]. split; [lia|]. split.
  - intros Hq. rewrite (Hnext 0); [lia|(rewrite !elem_of_cons; auto 6)|]. by apply scan_from_quiet.
  - intros before e after Hev Hq. unfold scan_events in Hnext.
    assert (Hscan : foldl scan_key 0 (events input) =
                    scan_key (foldl scan_key 0 before) e).
    { rewrite Hev, foldl_app. cbn [foldl]. by apply scan_from_quiet. }
    rewrite scan_key_cases in Hscan. split.
    + intros HO. rewrite HO in Hscan. rewrite (Hnext (-1)); [lia|(rewrite !elem_of_cons; auto 6)|exact Hscan].
    + intros HO HP. rewrite HO, HP in Hscan.
      rewrite (Hnext 1); [lia|(rewrite !elem_of_cons; auto 6)|exact Hscan].
Qed.

Lemma environment_keys_witness :
  let input := state_ (run (Handler_new NoOp)
                         [press GLFW_KEY_O; scroll_up; press GLFW_KEY_P; press GLFW_KEY_W]) in
  0 <= 10 <= kEnvNames_count - 1 /\
  0 <= next_env 10 input <= kEnvNames_count - 1 /\
  next_env 10 input = Z.min (kEnvNames_count - 1) (10 + 1) /\
  next_env 10 input = 10.
Proof.
  cbv zeta.
  set (input := state_ (run (Handler_new NoOp)
                          [press GLFW_KEY_O; scroll_up; press GLFW_KEY_P; press GLFW_KEY_W])).
  assert (Hi : 0 <= 10 <= kEnvNames_count - 1) by (split; discriminate).
  destruct (environment_keys 10 input Hi) as (Hr & _ & _ & Hlast).
  split; [exact Hi|]. split; [exact Hr|]. split; [|reflexivity].
  refine (proj2 (Hlast (take 2 (events input))
                       (default (Build_Event 0 0 false (e_charval 0)) (events input !! 2%nat))
                       (drop 3 (events input)) _ _) _ _).
  - vm_compute. reflexivity.
  - vm_compute. apply Forall_cons_2; [reflexivity|apply Forall_nil_2].
  - vm_compute. reflexivity.
  - vm_compute. reflexivity.
Defined.

Lemma not_key_not_switch e : type e <> kKey -> switches_env e = false.
Proof.
  intros Hne. unfold switches_env, is_press_of.
  apply Z.eqb_neq in Hne. rewrite Hne. reflexivity.
Qed.

(** X13.  While ImGui wants the keyboard ([WantCaptureKeyboard] is on in the
    [ToImGui] child), no key event reaches [state.events] and [state.keys]
    records nothing, whatever is delivered: so in the demo O and P do not
    switch environment and every [Axis] of the camera keys is 0. *)
Theorem captured_keyboard_is_inert (child : ToImGui) (ops : list Op) :
  WantCaptureKeyboard child = true ->
  let s := state_ (run (Handler_new child) ops) in
  Forall (fun e => type e <> kKey /\ type e <> kChar) (events s) /\
  keys s = keys State_new /\
  (forall a b, Axis (keys s) a b = 0) /\
  (forall key, IsPressed (keys s) key = false) /\
  (forall i_env, next_env i_env s = i_env).
Proof.
  intros Hcap.
  assert (Hinv : child_ (run (Handler_new child) ops) = child /\
                 Forall (fun e => type e <> kKey /\ type e <> kChar)
                   (events (state_ (run (Handler_new child) ops))) /\
                 keys (state_ (run (Handler_new child) ops)) = keys State_new).
  { induction ops as [|op ops (IHc & IHe & IHk)] using rev_ind; [repeat split; constructor|].
    rewrite run_snoc. destruct op as [cb|]; [|repeat split; [exact IHc|constructor|exact IHk]].
    cbn [apply_op].
    destruct (dispatch_effect (run (Handler_new child) ops) cb)
      as (_ & Hchild & (e & Hty & _ & _ & _ & Hev) & _ & Hkeys & _).
    cbv zeta in *. rewrite IHc in *. rewrite Hchild, Hev, Hkeys.
    destruct cb; cbn [ask_child child_OnGlfwWindowFocus child_OnGlfwCursorEnter
                      child_OnGlfwCursorPos child_OnGlfwMouseButton child_OnGlfwScroll
                      child_OnGlfwKey child_OnGlfwChar ToImGui_child fst snd table_after tag]
                     in *;
      rewrite ?Hcap;
      (split; [reflexivity|]);
      (split; [|by destruct (WantCaptureMouse child)]);
      try exact IHe;
      (destruct (WantCaptureMouse child); [exact IHe|]);
      (apply Forall_app; split; [exact IHe|]); apply Forall_singleton;
      rewrite Hty; split; discriminate. }
  destruct Hinv as (_ & He & Hk). cbv zeta. split; [exact He|]. split; [exact Hk|].
  rewrite Hk. split; [|split].
  - intros a b.
    apply Axis_released; exact (PressedEventIndex_new _ _ _ (proj1 keys_State_new)).
  - intros key. unfold IsPressed.
    by rewrite (PressedEventIndex_new _ _ key (proj1 keys_State_new)).
  - intros i_env. unfold next_env, scan_events.
    rewrite scan_from_quiet; [reflexivity|].
    eapply Forall_impl; [exact He|]. intros e [Hne _]. by apply not_key_not_switch.
Qed.

Lemma captured_keyboard_is_inert_witness :
  let s := state_ (run (Handler_new captures_keyboard)
                     [press GLFW_KEY_P; press GLFW_KEY_W; scroll_up]) in
  WantCaptureKeyboard captures_keyboard = true /\
  next_env 3 s = 3 /\ Axis (keys s) GLFW_KEY_S GLFW_KEY_W = 0 /\
  IsPressed (all_keys s) GLFW_KEY_W = true.
Proof.
  cbv zeta.
  assert (Hc : WantCaptureKeyboard captures_keyboard = true) by reflexivity.
  destruct (captured_keyboard_is_inert captures_keyboard
              [press GLFW_KEY_P; press GLFW_KEY_W; scroll_up] Hc)
    as (_ & _ & Haxis & _ & Henv).
  split; [exact Hc|]. split; [exact (Henv 3)|]. split; [exact (Haxis _ _)|reflexivity].
Defined.

(** * Further properties: fonts and the draw translator *)

(** ** AddFont *)

(** X14.  The font name [AddFont] hands to ImGui.  When the [name_size]
    bytes it may copy are there to read, [AddFont] passes a configuration
    whose [Name] has the full size of ImGui's array and ends in NUL; a name
    shorter than the array is copied whole and followed by NULs, a name that
    fills or exceeds the array is cut to its first [Name_size - 1] bytes.
    The array overload behaves as the pointer overload called with the
    array's size. *)
Theorem AddFont_names_the_font (Name_size : nat) (name : list Z) (name_size : Z)
    (free_when_done : bool) :
  (0 < Name_size)%nat -> 0 <= name_size < 2 ^ 64 ->
  Z.min name_size (Z.of_nat Name_size) <= Z.of_nat (length name) ->
  exists cfg,
    AddFont_font_cfg Name_size name name_size free_when_done = Some cfg /\
    FontDataOwnedByAtlas cfg = free_when_done /\
    length (Name cfg) = Name_size /\
    last (Name cfg) = Some 0 /\
    (name_size < Z.of_nat Name_size ->
     Name cfg = take (Z.to_nat name_size) name
                  ++ replicate (Name_size - Z.to_nat name_size) 0) /\
    (Z.of_nat Name_size <= name_size ->
     Name cfg = take (Name_size - 1) name ++ [0]) /\
    (name_size = Z.of_nat (length name) ->
     AddFont_array Name_size name free_when_done = Some cfg).
Proof.
  intros Hpos Hsize Hread.
  assert (Hcfg : AddFont_font_cfg Name_size name name_size free_when_done =
    Some {| FontDataOwnedByAtlas := free_when_done;
            Name := <[(Name_size - 1)%nat := 0]>
                      (take (Z.to_nat (Z.min name_size (Z.of_nat Name_size))) name ++
                       drop (Z.to_nat (Z.min name_size (Z.of_nat Name_size)))
                         (replicate Name_size 0)) |}).
  { unfold AddFont_font_cfg. rewrite (to_size_t_nonneg name_size Hsize).
    destruct (Z.leb_spec (Z.min name_size (Z.of_nat Name_size)) (Z.of_nat (length name)));
      [reflexivity|lia]. }
  eexists. split; [exact Hcfg|]. cbn [FontDataOwnedByAtlas Name].
  set (n := Z.to_nat (Z.min name_size (Z.of_nat Name_size))).
  assert (Hn : (n <= Name_size)%nat) by lia.
  assert (Hn' : (n <= length name)%nat) by lia.
  assert (Hlen : length (take n name ++ drop n (replicate Name_size 0)) = Name_size).
  { rewrite length_app, length_take, length_drop, length_replicate. lia. }
  split; [reflexivity|]. split; [by rewrite length_insert|].
  assert (Hcut : Z.of_nat Name_size <= name_size ->
            <[(Name_size - 1)%nat := 0]> (take n name ++ drop n (replicate Name_size 0)) =
            take (Name_size - 1) name ++ [0]).
  { intros Hge. assert (n = Name_size) as -> by lia.
    rewrite drop_replicate, Nat.sub_diag, app_nil_r.
    rewrite insert_take_drop by (rewrite length_take; lia).
    rewrite take_take, Nat.min_l by lia.
    rewrite drop_ge by (rewrite length_take; lia). reflexivity. }
  assert (Hfit : name_size < Z.of_nat Name_size ->
            <[(Name_size - 1)%nat := 0]> (take n name ++ drop n (replicate Name_size 0)) =
            take (Z.to_nat name_size) name ++ replicate (Name_size - Z.to_nat name_size) 0).
  { intros Hlt. assert (n = Z.to_nat name_size) as -> by lia.
    rewrite drop_replicate.
    rewrite insert_app_r_alt by (rewrite length_take; lia).
    rewrite length_take, insert_replicate. reflexivity. }
  split; [|split; [exact Hfit|split; [exact Hcut|]]].
  - destruct (Z.lt_ge_cases name_size (Z.of_nat Name_size)) as [Hlt|Hge].
    + rewrite (Hfit Hlt).
      replace (Name_size - Z.to_nat name_size)%nat
        with (S (Name_size - Z.to_nat name_size - 1)) by lia.
      rewrite replicate_S_end, app_assoc. apply last_snoc.
    + rewrite (Hcut Hge). apply last_snoc.
  - intros ->. unfold AddFont_array. exact Hcfg.
Qed.

Lemma AddFont_names_the_font_witness :
  exists cfg,
    AddFont_array 8 [70; 105; 114; 97; 32; 83; 97; 110; 115; 0] true = Some cfg /\
    Name cfg = [70; 105; 114; 97; 32; 83; 97; 0] /\
    last (Name cfg) = Some 0.
Proof.
  destruct (AddFont_names_the_font 8 [70; 105; 114; 97; 32; 83; 97; 110; 115; 0] 10 true)
    as (cfg & _ & _ & _ & Hlast & _ & Hcut & Harray).
  - vm_compute. lia.
  - vm_compute. split; [discriminate|reflexivity].
  - vm_compute. discriminate.
  - exists cfg. split; [exact (Harray eq_refl)|]. split; [|exact Hlast].
    apply Hcut. vm_compute. discriminate.
Defined.

(** ** The command loop *)

Lemma filter_is_drawn_cons cmd cmds :
  filter is_drawn (cmd :: cmds) =
    if is_drawn cmd then cmd :: filter is_drawn cmds else filter is_drawn cmds.
Proof.
  rewrite filter_cons. destruct (is_drawn cmd).
  - rewrite decide_True by exact I. reflexivity.
  - rewrite decide_False by (intros []). reflexivity.
Qed.

Lemma cmd_calls_app pool height_px a : forall k b,
  cmd_calls pool height_px k (a ++ b) =
    cmd_calls pool height_px k a
      ++ cmd_calls pool height_px (k + length (filter is_drawn a)) b.
Proof.
  induction a as [|cmd a IH]; intros k b.
  - cbn. by rewrite Nat.add_0_r.
  - cbn [app cmd_calls]. rewrite filter_is_drawn_cons. unfold is_drawn at 1.
    destruct (UserCallback cmd).
    + cbn [app]. by rewrite IH.
    + cbn [app length]. rewrite IH. by rewrite Nat.add_succ_r.
Qed.

Lemma emit_cmds_trace pool height_px cmds : forall f f',
  i_renderable f = Z.of_nat (length (f_batches f)) ->
  emit_cmds pool height_px f cmds = Some f' ->
  i_renderable f' = Z.of_nat (length (f_batches f')) /\
  f_batches f' =
    f_batches f ++
      imap (fun j cmd => batch_of pool (length (f_batches f) + j) (i_ind f, cmd))
        (filter is_drawn cmds) /\
  f_calls f' = f_calls f ++ cmd_calls pool height_px (length (f_batches f)) cmds /\
  ((length (f_batches f) <= length pool)%nat ->
   (length (f_batches f') <= length pool)%nat).
Proof.
  induction cmds as [|cmd cmds IH]; intros f f' Hk.
  - intros [= <-]. cbn. by rewrite !app_nil_r.
  - cbn [emit_cmds cmd_calls]. unfold emit_cmd. rewrite filter_is_drawn_cons.
    unfold is_drawn at 1. destruct (UserCallback cmd) as [callback|].
    + intros Hrun. apply IH in Hrun; [|exact Hk].
      cbn [f_batches f_calls i_ind] in Hrun.
      destruct Hrun as (Hk' & Hb & Hc & Hl). split; [exact Hk'|]. split; [exact Hb|].
      split; [|exact Hl]. rewrite Hc, <- app_assoc. reflexivity.
    + rewrite Hk, Nat2Z.id.
      destruct (pool !! length (f_batches f)) as [mat_instance|] eqn:Hpool; [|discriminate].
      intros Hrun. apply IH in Hrun;
        [|cbn [f_batches i_renderable]; rewrite length_app; cbn [length]; lia].
      cbn [f_batches f_calls i_ind] in Hrun. rewrite length_app in Hrun. cbn [length] in Hrun.
      destruct Hrun as (Hk' & Hb & Hc & Hl). split; [exact Hk'|].
      split; [|split].
      * rewrite Hb, <- app_assoc. f_equal. cbn [app imap]. f_equal.
        -- unfold batch_of. cbn [fst snd]. rewrite Nat.add_0_r, Hpool. reflexivity.
        -- apply imap_ext. intros j c _. cbn. f_equal. lia.
      * rewrite Hc, <- app_assoc. cbn [app].
        change (default 0 (Some mat_instance)) with mat_instance.
        replace (length (f_batches f) + 1)%nat with (S (length (f_batches f))) by lia.
        reflexivity.
      * intros _. apply Hl. apply lookup_lt_Some in Hpool. lia.
Qed.

Lemma memcpy_at_Some {A} (dst : list A) off src r :
  memcpy_at dst off src = Some r ->
  0 <= off /\ off + Z.of_nat (length src) <= Z.of_nat (length dst) /\
  length r = length dst.
Proof.
  intros Hcopy. assert (Hb : 0 <= off /\ off + Z.of_nat (length src) <= Z.of_nat (length dst)).
  { unfold memcpy_at in Hcopy.
    destruct (Z.leb_spec 0 off); [|discriminate].
    destruct (Z.leb_spec (off + Z.of_nat (length src)) (Z.of_nat (length dst)));
      [lia|discriminate]. }
  destruct Hb as [H0 H1]. split; [exact H0|]. split; [exact H1|].
  rewrite memcpy_at_splice in Hcopy by assumption. injection Hcopy as <-.
  apply length_splice. lia.
Qed.

Lemma rewrite_indices_length src : forall index_data i_ind i_vert i r,
  rewrite_indices index_data i_ind i_vert i src = Some r ->
  length r = length index_data.
Proof.
  induction src as [|idx src IH]; intros index_data i_ind i_vert i r.
  - by intros [= <-].
  - cbn [rewrite_indices]. unfold store_at.
    destruct ((0 <=? i_ind + i) && (i_ind + i <? Z.of_nat (length index_data)));
      [|discriminate].
    intros Hrun. apply IH in Hrun. by rewrite length_insert in Hrun.
Qed.

Lemma rewrite_indices_bound src : forall index_data i_ind i_vert i r,
  0 <= i -> 0 <= i_ind <= Z.of_nat (length index_data) ->
  rewrite_indices index_data i_ind i_vert i src = Some r ->
  i_ind + i + Z.of_nat (length src) <= Z.of_nat (length index_data) \/ src = [].
Proof.
  induction src as [|idx src IH]; intros index_data i_ind i_vert i r Hi Hind; [by right|].
  cbn [rewrite_indices]. unfold store_at.
  destruct (Z.leb_spec 0 (i_ind + i)); [|discriminate].
  destruct (Z.ltb_spec (i_ind + i) (Z.of_nat (length index_data))); [|discriminate].
  cbn [andb]. intros Hrun. left.
  apply IH in Hrun; [|lia|rewrite length_insert; lia].
  rewrite length_insert in Hrun. cbn [length]. destruct Hrun as [Hrun| ->]; [lia|].
  cbn [length]. lia.
Qed.

(** What a list that is copied leaves of the data and the two offsets. *)
Lemma copy_list_sizes pool height_px first f l f' :
  0 <= i_vert f <= Z.of_nat (length (f_vertex_data f)) ->
  0 <= i_ind f <= Z.of_nat (length (f_index_data f)) ->
  copy_list pool height_px first f l = Some f' ->
  length (f_vertex_data f') = length (f_vertex_data f) /\
  length (f_index_data f') = length (f_index_data f) /\
  i_vert f' = i_vert f + Z.of_nat (length (VtxBuffer l)) /\
  i_ind f' = i_ind f + Z.of_nat (length (IdxBuffer l)) /\
  i_vert f' <= Z.of_nat (length (f_vertex_data f')) /\
  i_ind f' <= Z.of_nat (length (f_index_data f')).
Proof.
  intros Hv Hi. unfold copy_list.
  destruct (memcpy_at (f_vertex_data f) (i_vert f) (VtxBuffer l)) as [vertex_data|] eqn:Hcv;
    [|discriminate].
  apply memcpy_at_Some in Hcv. destruct Hcv as (_ & Hvb & Hvl).
  destruct (if first then _ else _) as [index_data|] eqn:Hci; [|discriminate].
  destruct (emit_cmds pool height_px _ (CmdBuffer l)) as [f1|] eqn:Hemit; [|discriminate].
  apply emit_cmds_shape in Hemit.
  cbn [f_vertex_data f_index_data i_vert i_ind] in Hemit.
  destruct Hemit as (Ev & Ei & Eiv & Eii & _).
  intros [= <-]. cbn [f_vertex_data f_index_data i_vert i_ind].
  rewrite Ev, Ei, Eiv, Eii.
  assert (Hil : length index_data = length (f_index_data f) /\
                i_ind f + Z.of_nat (length (IdxBuffer l)) <= Z.of_nat (length (f_index_data f))).
  { destruct first.
    - apply memcpy_at_Some in Hci. lia.
    - split; [by apply rewrite_indices_length in Hci|].
      apply rewrite_indices_bound in Hci; [|lia|lia].
      destruct Hci as [Hci| ->]; [lia|cbn [length]; lia]. }
  lia.
Qed.

Lemma copy_lists_sizes pool height_px lists : forall first f f',
  0 <= i_vert f <= Z.of_nat (length (f_vertex_data f)) ->
  0 <= i_ind f <= Z.of_nat (length (f_index_data f)) ->
  copy_lists pool height_px first f lists = Some f' ->
  length (f_vertex_data f') = length (f_vertex_data f) /\
  length (f_index_data f') = length (f_index_data f) /\
  i_vert f' = i_vert f + vertex_total lists /\
  i_ind f' = i_ind f + index_total lists /\
  i_vert f' <= Z.of_nat (length (f_vertex_data f')) /\
  i_ind f' <= Z.of_nat (length (f_index_data f')).
Proof.
  induction lists as [|l lists IH]; intros first f f' Hv Hi.
  - intros [= <-]. cbn. lia.
  - cbn [copy_lists].
    destruct (copy_list pool height_px first f l) as [f1|] eqn:Hone; [|discriminate].
    apply copy_list_sizes in Hone; [|assumption|assumption].
    intros Hrest. apply IH in Hrest; [|lia|lia].
    cbn [vertex_total index_total foldr].
    fold (vertex_total lists). fold (index_total lists). lia.
Qed.

Lemma copy_list_trace pool height_px first f l f' :
  i_renderable f = Z.of_nat (length (f_batches f)) ->
  copy_list pool height_px first f l = Some f' ->
  i_renderable f' = Z.of_nat (length (f_batches f')) /\
  f_batches f' =
    f_batches f ++
      imap (fun j cmd => batch_of pool (length (f_batches f) + j) (i_ind f, cmd))
        (filter is_drawn (CmdBuffer l)) /\
  f_calls f' = f_calls f ++ cmd_calls pool height_px (length (f_batches f)) (CmdBuffer l) /\
  ((length (f_batches f) <= length pool)%nat ->
   (length (f_batches f') <= length pool)%nat).
Proof.
  intros Hk. unfold copy_list.
  destruct (memcpy_at (f_vertex_data f) (i_vert f) (VtxBuffer l)) as [vertex_data|];
    [|discriminate].
  destruct (if first then _ else _) as [index_data|]; [|discriminate].
  destruct (emit_cmds pool height_px _ (CmdBuffer l)) as [f1|] eqn:Hemit; [|discriminate].
  apply emit_cmds_trace in Hemit; [|exact Hk].
  cbn [f_batches f_calls i_ind] in Hemit. intros [= <-].
  cbn [i_renderable f_batches f_calls]. exact Hemit.
Qed.

Lemma copy_lists_trace pool height_px lists : forall first f f',
  i_renderable f = Z.of_nat (length (f_batches f)) ->
  0 <= i_vert f <= Z.of_nat (length (f_vertex_data f)) ->
  0 <= i_ind f <= Z.of_nat (length (f_index_data f)) ->
  copy_lists pool height_px first f lists = Some f' ->
  f_batches f' =
    f_batches f ++
      imap (fun j drawn => batch_of pool (length (f_batches f) + j) drawn)
        (drawn_cmds (i_ind f) lists) /\
  f_calls f' =
    f_calls f ++ cmd_calls pool height_px (length (f_batches f)) (all_cmds lists) /\
  ((length (f_batches f) <= length pool)%nat ->
   (length (f_batches f') <= length pool)%nat).
Proof.
  induction lists as [|l lists IH]; intros first f f' Hk Hv Hi.
  - intros [= <-]. cbn. by rewrite !app_nil_r.
  - cbn [copy_lists].
    destruct (copy_list pool height_px first f l) as [f1|] eqn:Hone; [|discriminate].
    pose proof (copy_list_sizes _ _ _ _ _ _ Hv Hi Hone) as (Lv & Li & Eiv & Eii & Bv & Bi).
    apply copy_list_trace in Hone; [|exact Hk].
    destruct Hone as (Hk1 & Hb1 & Hc1 & Hl1).
    intros Hrest. apply IH in Hrest; [|exact Hk1|lia|lia].
    destruct Hrest as (Hb & Hc & Hl). split; [|split].
    + rewrite Hb, Hb1, <- app_assoc. f_equal. cbn [drawn_cmds].
      rewrite imap_app, imap_fmap. f_equal.
      rewrite length_app, length_imap, length_fmap, Eii.
      apply imap_ext. intros j d _. cbn. f_equal. lia.
    + rewrite Hc, Hc1, <- app_assoc. f_equal. unfold all_cmds. cbn [fmap list_fmap concat].
      fold (all_cmds lists). rewrite cmd_calls_app. f_equal.
      rewrite Hb1, length_app, length_imap. reflexivity.
    + intros Hle. apply Hl, Hl1, Hle.
Qed.

(** ** A frame that is drawn *)

Lemma draws_true ui commands io :
  draws ui commands io = true <->
  engine_ ui = true /\ display_is_zero io = false /\ CmdListsCount commands <> 0.
Proof.
  unfold draws. rewrite !andb_true_iff, !negb_true_iff, Z.eqb_neq. tauto.
Qed.

Lemma draws_false ui commands io :
  draws ui commands io = false <->
  engine_ ui = false \/ display_is_zero io = true \/ CmdListsCount commands = 0.
Proof.
  unfold draws. rewrite !andb_false_iff, !negb_false_iff, Z.eqb_eq. tauto.
Qed.

Lemma rebuilt_sized_any {A} (d : A) buffer total snapshot :
  sized buffer snapshot ->
  sized (rebuilt_buffer buffer total) (rebuilt_snapshot d buffer total snapshot).
Proof.
  intros Hs. unfold rebuilt_buffer, rebuilt_snapshot.
  destruct (rebuild_needed buffer total); [|exact Hs].
  intros count [= <-]. rewrite length_resize.
  assert (0 <= to_size_t total).
  { unfold to_size_t, wrap_unsigned. apply Z.mod_pos_bound. int_lia. }
  lia.
Qed.

Lemma rebuilt_buffer_Some buffer total :
  exists count, rebuilt_buffer buffer total = Some count.
Proof.
  unfold rebuilt_buffer, rebuild_needed. destruct buffer as [count|]; [|by eexists].
  destruct (count <? to_size_t total); by eexists.
Qed.

(** The normal form of a frame that is drawn and returns. *)
Lemma UpdateView_draws ui commands io ui' calls :
  draws ui commands io = true ->
  UpdateView ui commands io = Some (ui', calls) ->
  exists lists pool created f,
    counted_lists commands = Some lists /\
    extend_pool (material_ ui) (material_instances_ ui) (count_renderables lists)
      = Some (pool, created) /\
    copy_lists pool (height_px io) true (frame_start ui commands io created) lists = Some f /\
    ui' = {| engine_ := engine_ ui; material_ := material_ ui;
             vertex_buffer_ := rebuilt_buffer (vertex_buffer_ ui) (TotalVtxCount commands);
             index_buffer_ := rebuilt_buffer (index_buffer_ ui) (TotalIdxCount commands);
             material_instances_ := pool;
             vertex_data_ := f_vertex_data f;
             index_data_ := f_index_data f |} /\
    calls = setup_calls ui commands io ++ created
              ++ cmd_calls pool (height_px io) 0 (all_cmds lists)
              ++ closing_calls (count_renderables lists) f /\
    f_batches f = imap (batch_of pool) (drawn_cmds 0 lists) /\
    (length (f_batches f) <= length pool)%nat /\
    length (f_vertex_data f) =
      length (rebuilt_snapshot ImDrawVert_zero (vertex_buffer_ ui)
                (TotalVtxCount commands) (vertex_data_ ui)) /\
    length (f_index_data f) =
      length (rebuilt_snapshot 0 (index_buffer_ ui)
                (TotalIdxCount commands) (index_data_ ui)) /\
    i_vert f = vertex_total lists /\ i_ind f = index_total lists /\
    i_vert f <= Z.of_nat (length (f_vertex_data f)) /\
    i_ind f <= Z.of_nat (length (f_index_data f)).
Proof.
  intros Hd. apply draws_true in Hd. destruct Hd as (He & Hz & Hn).
  rewrite (UpdateView_frame ui commands io He Hz Hn).
  destruct (counted_lists commands) as [lists|]; [|discriminate].
  destruct (extend_pool (material_ ui) (material_instances_ ui) (count_renderables lists))
    as [[pool created]|] eqn:Hpool; [|discriminate].
  fold (frame_start ui commands io created).
  destruct (copy_lists pool (height_px io) true (frame_start ui commands io created) lists)
    as [f|] eqn:Hrun; [|discriminate].
  intros [= <- <-]. exists lists, pool, created, f.
  split; [reflexivity|]. split; [exact Hpool|]. split; [exact Hrun|]. split; [reflexivity|].
  destruct (copy_lists_sizes pool (height_px io) lists true
              (frame_start ui commands io created) f) as (Lv & Li & Ev & Ei & Bv & Bi);
    [cbn; lia|cbn; lia|exact Hrun|].
  destruct (copy_lists_trace pool (height_px io) lists true
              (frame_start ui commands io created) f) as (Hb & Hc & Hl);
    [reflexivity|cbn; lia|cbn; lia|exact Hrun|].
  cbn [frame_start f_batches f_calls i_ind i_vert f_vertex_data f_index_data length app
       Nat.add] in *.
  split; [rewrite Hc, <- !app_assoc; reflexivity|].
  split; [exact Hb|]. split; [apply Hl; lia|].
  split; [exact Lv|]. split; [exact Li|]. lia.
Qed.

(** ** The calls of a frame, piece by piece *)

Lemma filter_none (P : EngineCall -> bool) calls :
  Forall (fun c => P c = false) calls -> filter P calls = [].
Proof.
  induction 1 as [|c calls Hc _ IH]; [reflexivity|].
  rewrite filter_cons, decide_False; [exact IH|]. rewrite Hc. intros [].
Qed.

Lemma filter_all (P : EngineCall -> bool) calls :
  Forall (fun c => P c = true) calls -> filter P calls = calls.
Proof.
  induction 1 as [|c calls Hc _ IH]; [reflexivity|].
  rewrite filter_cons, decide_True; [by rewrite IH|]. by rewrite Hc.
Qed.

Lemma cmd_calls_Forall (Q : EngineCall -> Prop) pool height_px cmds :
  (forall callback, Q (callUserCallback callback)) ->
  (forall clip_rect h m, Q (SetScissor clip_rect h m)) ->
  (forall m texture, Q (setParameter_albedo m texture)) ->
  forall k, Forall Q (cmd_calls pool height_px k cmds).
Proof.
  intros Hcb Hsc Hpa. induction cmds as [|cmd cmds IH]; intros k; [constructor|].
  cbn [cmd_calls]. destruct (UserCallback cmd).
  - apply Forall_cons_2; [apply Hcb|apply IH].
  - apply Forall_cons_2; [apply Hsc|]. apply Forall_cons_2; [apply Hpa|apply IH].
Qed.

Lemma cmd_calls_callbacks pool height_px cmds : forall k,
  filter is_callUserCallback (cmd_calls pool height_px k cmds) =
    callUserCallback <$> omap UserCallback cmds.
Proof.
  induction cmds as [|cmd cmds IH]; intros k; [reflexivity|].
  cbn [cmd_calls omap list_omap]. destruct (UserCallback cmd) as [callback|].
  - rewrite filter_cons, decide_True by exact I. cbn [fmap list_fmap]. by rewrite IH.
  - rewrite !filter_cons, !decide_False by (intros []). apply IH.
Qed.

Lemma extend_pool_created material pool n pool' created :
  extend_pool material pool n = Some (pool', created) ->
  exists added,
    pool' = pool ++ (Z.of_nat <$> seq (length pool) added) /\
    created = replicate added createInstance /\
    Z.of_nat (length pool') = Z.max (Z.of_nat (length pool)) n.
Proof.
  unfold extend_pool. destruct (Z.ltb_spec (Z.of_nat (length pool)) n).
  - destruct material; [|discriminate]. intros [= <- <-].
    exists (Z.to_nat n - length pool)%nat. split; [reflexivity|]. split; [reflexivity|].
    rewrite length_app, length_fmap, length_seq. lia.
  - intros [= <- <-]. exists 0%nat. cbn. rewrite app_nil_r. split; [reflexivity|].
    split; [reflexivity|]. lia.
Qed.

Lemma ranked_extend pool added :
  ranked pool -> ranked (pool ++ (Z.of_nat <$> seq (length pool) added)).
Proof.
  unfold ranked. intros Hr.
  rewrite length_app, length_fmap, length_seq, seq_app, fmap_app, <- Hr. reflexivity.
Qed.

Lemma count_renderables_all_cmds lists :
  count_renderables lists = Z.of_nat (length (all_cmds lists)).
Proof.
  induction lists as [|l lists IH]; [reflexivity|].
  rewrite count_renderables_cons, IH. unfold all_cmds. cbn [fmap list_fmap concat].
  rewrite length_app. lia.
Qed.

Lemma length_drawn_cmds lists : forall offset,
  length (drawn_cmds offset lists) = length (filter is_drawn (all_cmds lists)).
Proof.
  induction lists as [|l lists IH]; intros offset; [reflexivity|].
  cbn [drawn_cmds]. unfold all_cmds. cbn [fmap list_fmap concat].
  fold (all_cmds lists). rewrite filter_app, !length_app, length_fmap, IH. reflexivity.
Qed.

(** Where a drawn command comes from: its list, and the indices before it. *)
Lemma drawn_cmds_origin lists : forall offset off cmd,
  (off, cmd) ∈ drawn_cmds offset lists ->
  exists before l after,
    lists = before ++ l :: after /\ cmd ∈ CmdBuffer l /\ UserCallback cmd = None /\
    off = offset + index_total before.
Proof.
  induction lists as [|l lists IH]; intros offset off cmd; cbn [drawn_cmds].
  - intros Hin. by apply elem_of_nil in Hin.
  - rewrite elem_of_app. intros [Hin|Hin].
    + apply list_elem_of_fmap in Hin. destruct Hin as (cmd' & [= -> ->] & Hin).
      apply list_elem_of_filter in Hin. destruct Hin as [Hdrawn Hin].
      exists [], l, lists. split; [reflexivity|]. split; [exact Hin|].
      split; [|cbn; lia]. unfold is_drawn in Hdrawn. by destruct (UserCallback cmd').
    + apply IH in Hin. destruct Hin as (before & l' & after & -> & Hin & Hcb & ->).
      exists (l :: before), l', after. split; [reflexivity|]. split; [exact Hin|].
      split; [exact Hcb|]. cbn [index_total foldr]. fold (index_total before). lia.
Qed.

Lemma setup_calls_Forall (Q : EngineCall -> Prop) ui commands io :
  (forall w h, Q (setViewport w h)) -> (forall r b, Q (setProjection r b)) ->
  Q destroyRenderable -> Q printFontsNotBuilt -> Q waitAndDestroyFence ->
  (forall old, Q (destroyVertexBuffer old)) -> (forall n, Q (createVertexBuffer n)) ->
  (forall old, Q (destroyIndexBuffer old)) -> (forall n, Q (createIndexBuffer n)) ->
  Forall Q (setup_calls ui commands io).
Proof.
  intros. unfold setup_calls, prologue, vertex_buffer_calls, index_buffer_calls.
  destruct (rebuild_needed (vertex_buffer_ ui) (TotalVtxCount commands)),
           (rebuild_needed (index_buffer_ ui) (TotalIdxCount commands)),
           (Fonts_IsBuilt io); cbn [app orb];
    repeat first [apply Forall_nil_2 | apply Forall_cons_2]; auto.
Qed.

Lemma closing_calls_Forall (Q : EngineCall -> Prop) n f :
  (forall count batches, Q (buildRenderable count batches)) ->
  (forall vertices, Q (setBufferAt vertices)) -> (forall indices, Q (setBuffer indices)) ->
  Forall Q (closing_calls n f).
Proof.
  intros. unfold closing_calls. destruct (i_vert f =? 0), (i_ind f =? 0); cbn [app];
    repeat first [apply Forall_nil_2 | apply Forall_cons_2]; auto.
Qed.

Lemma replicate_Forall (Q : EngineCall -> Prop) n c : Q c -> Forall Q (replicate n c).
Proof. intros Hc. induction n; cbn; [constructor|by apply Forall_cons_2]. Qed.

Lemma filter_closing_buildRenderable n f :
  filter is_buildRenderable (closing_calls n f) = [buildRenderable n (f_batches f)].
Proof.
  unfold closing_calls. destruct (i_vert f =? 0), (i_ind f =? 0); reflexivity.
Qed.

(** A frame that is not drawn: nothing changes, and the only calls are the
    viewport, the projection and the removal of last frame's renderable. *)
Lemma UpdateView_skips ui commands io :
  draws ui commands io = false ->
  UpdateView ui commands io =
    Some (ui, if engine_ ui && negb (display_is_zero io) then prologue io else []).
Proof.
  unfold draws, UpdateView, display_is_zero, prologue.
  destruct (engine_ ui); [|reflexivity]. cbn [negb andb].
  destruct (float_eq (x (DisplaySize io)) float_zero && float_eq (y (DisplaySize io)) float_zero);
    [reflexivity|].
  cbn [negb andb]. destruct (CmdListsCount commands =? 0); [reflexivity|discriminate].
Qed.

Lemma UpdateView_pool ui commands io ui' calls :
  UpdateView ui commands io = Some (ui', calls) ->
  exists added,
    material_instances_ ui' =
      material_instances_ ui ++ (Z.of_nat <$> seq (length (material_instances_ ui)) added) /\
    filter is_createInstance calls = replicate added createInstance /\
    (draws ui commands io = false -> added = 0%nat) /\
    (draws ui commands io = true ->
     forall lists, counted_lists commands = Some lists ->
     Z.of_nat (length (material_instances_ ui')) =
       Z.max (Z.of_nat (length (material_instances_ ui))) (Z.of_nat (length (all_cmds lists)))).
Proof.
  intros Hrun. destruct (draws ui commands io) eqn:Hd.
  - destruct (UpdateView_draws ui commands io ui' calls Hd Hrun)
      as (lists & pool & created & f & Hlists & Hpool & _ & -> & -> & _).
    apply extend_pool_created in Hpool. destruct Hpool as (added & -> & -> & Hlen).
    exists added. cbn [material_instances_]. split; [reflexivity|]. split; [|split].
    + rewrite !filter_app.
      rewrite (filter_none is_createInstance (setup_calls ui commands io))
        by (apply setup_calls_Forall; reflexivity).
      rewrite (filter_none is_createInstance (cmd_calls _ _ _ _))
        by (apply cmd_calls_Forall; reflexivity).
      rewrite (filter_none is_createInstance (closing_calls _ _))
        by (apply closing_calls_Forall; reflexivity).
      rewrite filter_all by (by apply replicate_Forall).
      by rewrite !app_nil_r.
    + discriminate.
    + intros _ lists' Hlists'. rewrite Hlists in Hlists'. injection Hlists' as <-.
      rewrite Hlen, count_renderables_all_cmds. reflexivity.
  - rewrite (UpdateView_skips ui commands io Hd) in Hrun. injection Hrun as <- <-.
    exists 0%nat. cbn [seq fmap list_fmap replicate]. rewrite app_nil_r.
    split; [reflexivity|]. split; [|split; [reflexivity|discriminate]].
    unfold prologue. by destruct (engine_ ui && negb (display_is_zero io)).
Qed.

Lemma UpdateViews_cons ui commands io frames :
  UpdateViews ui ((commands, io) :: frames) =
    match UpdateView ui commands io with
    | None => None
    | Some (ui, calls) =>
        match UpdateViews ui frames with
        | None => None
        | Some (ui, calls') => Some (ui, calls ++ calls')
        end
    end.
Proof. reflexivity. Qed.

(** X15.  The pool of material instances only grows.  A frame appends to it
    the instances it creates, one [createInstance] call each, and never
    removes or reorders one; a frame that is drawn leaves the pool as large
    as the larger of its old size and the frame's number of commands (user
    callbacks included), a frame that is not drawn leaves it alone.  So over
    any sequence of frames as many instances are created as the pool grew. *)
Theorem material_instances_only_grow :
  (forall ui commands io ui' calls,
      UpdateView ui commands io = Some (ui', calls) ->
      exists added,
        material_instances_ ui' = material_instances_ ui ++ added /\
        length (filter is_createInstance calls) = length added /\
        (ranked (material_instances_ ui) -> ranked (material_instances_ ui')) /\
        (draws ui commands io = false -> added = []) /\
        (draws ui commands io = true ->
         CmdListsCount commands = Z.of_nat (length (CmdLists commands)) ->
         Z.of_nat (length (material_instances_ ui')) =
           Z.max (Z.of_nat (length (material_instances_ ui)))
                 (Z.of_nat (length (all_cmds (CmdLists commands)))))) /\
  (forall frames ui ui' calls,
      UpdateViews ui frames = Some (ui', calls) ->
      exists added,
        material_instances_ ui' = material_instances_ ui ++ added /\
        length (filter is_createInstance calls) = length added /\
        (ranked (material_instances_ ui) -> ranked (material_instances_ ui'))).
Proof.
  assert (Hone : forall ui commands io ui' calls,
      UpdateView ui commands io = Some (ui', calls) ->
      exists added,
        material_instances_ ui' = material_instances_ ui ++ added /\
        length (filter is_createInstance calls) = length added /\
        (ranked (material_instances_ ui) -> ranked (material_instances_ ui')) /\
        (draws ui commands io = false -> added = []) /\
        (draws ui commands io = true ->
         CmdListsCount commands = Z.of_nat (length (CmdLists commands)) ->
         Z.of_nat (length (material_instances_ ui')) =
           Z.max (Z.of_nat (length (material_instances_ ui)))
                 (Z.of_nat (length (all_cmds (CmdLists commands)))))).
  { intros ui commands io ui' calls Hrun.
    destruct (UpdateView_pool ui commands io ui' calls Hrun) as (added & Hp & Hc & Hs & Hd).
    eexists. split; [exact Hp|]. split; [|split; [|split]].
    - by rewrite Hc, length_replicate, length_fmap, length_seq.
    - intros Hr. rewrite Hp. by apply ranked_extend.
    - intros Hno. by rewrite (Hs Hno).
    - intros Hyes Hcount. apply (Hd Hyes). by apply counted_lists_all. }
  split; [exact Hone|].
  induction frames as [|[commands io] frames IH]; intros ui ui' calls.
  - intros [= <- <-]. exists []. by rewrite app_nil_r.
  - rewrite UpdateViews_cons.
    destruct (UpdateView ui commands io) as [[ui1 calls1]|] eqn:H1; [|discriminate].
    destruct (UpdateViews ui1 frames) as [[ui2 calls2]|] eqn:H2; [|discriminate].
    intros [= <- <-].
    destruct (Hone _ _ _ _ _ H1) as (added1 & Hp1 & Hc1 & Hr1 & _).
    destruct (IH _ _ _ H2) as (added2 & Hp2 & Hc2 & Hr2).
    exists (added1 ++ added2). split; [by rewrite Hp2, Hp1, app_assoc|].
    split; [by rewrite filter_app, !length_app, Hc1, Hc2|]. auto.
Qed.

Lemma material_instances_only_grow_witness :
  exists ui1 calls1 ui2 calls2,
    UpdateView ui_ready (frame_of [with_callback; triangle]) io_200 = Some (ui1, calls1) /\
    UpdateView ui1 (frame_of [triangle]) io_200 = Some (ui2, calls2) /\
    material_instances_ ui1 = [0; 1; 2; 3] /\
    length (filter is_createInstance calls1) = 4%nat /\
    material_instances_ ui2 = [0; 1; 2; 3] /\
    length (filter is_createInstance calls2) = 0%nat.
Proof.
  destruct (UpdateView ui_ready (frame_of [with_callback; triangle]) io_200)
    as [[ui1 calls1]|] eqn:H1; [|vm_compute in H1; discriminate H1].
  assert (E1 : material_instances_ ui1 = [0; 1; 2; 3]).
  { vm_compute in H1. injection H1 as <- _. reflexivity. }
  destruct (UpdateView ui1 (frame_of [triangle]) io_200) as [[ui2 calls2]|] eqn:H2.
  2:{ vm_compute in H1. injection H1 as <- _. vm_compute in H2. discriminate H2. }
  destruct (proj1 material_instances_only_grow _ _ _ _ _ H1) as (added1 & Hp1 & Hc1 & _).
  destruct (proj1 material_instances_only_grow _ _ _ _ _ H2)
    as (added2 & Hp2 & Hc2 & _ & _ & Hsize).
  assert (Hd : draws ui1 (frame_of [triangle]) io_200 = true).
  { vm_compute in H1. injection H1 as <- _. reflexivity. }
  specialize (Hsize Hd eq_refl). rewrite E1 in Hsize, Hp2.
  assert (added2 = []) as ->.
  { destruct added2; [reflexivity|]. rewrite Hp2, length_app in Hsize.
    cbn [length] in Hsize. set (m := Z.max _ _) in Hsize. vm_compute in m.
    subst m. lia. }
  rewrite app_nil_r in Hp2.
  exists ui1, calls1, ui2, calls2. split; [reflexivity|]. split; [exact H2|].
  split; [exact E1|]. split; [|split; [exact Hp2|exact Hc2]].
  rewrite Hc1. rewrite E1 in Hp1. cbn in Hp1. by subst added1.
Defined.

Lemma ranked_lookup pool k m : ranked pool -> pool !! k = Some m -> m = Z.of_nat k.
Proof.
  unfold ranked. intros Hr Hk. rewrite Hr, list_lookup_fmap in Hk.
  destruct (seq 0 (length pool) !! k) as [j|] eqn:Hj; [|discriminate].
  apply lookup_seq in Hj. cbn in Hk. injection Hk as <-. lia.
Qed.

Lemma index_total_app a b : index_total (a ++ b) = index_total a + index_total b.
Proof.
  induction a as [|l a IH]; [reflexivity|].
  cbn [app index_total foldr]. fold (index_total (a ++ b)). fold (index_total a). lia.
Qed.

(** X16.  A frame that is drawn builds exactly one renderable, whose
    primitive count is the number of all commands, and gives it one batch for
    each command without a user callback, in the order of the commands.  The
    [k]-th batch has index [k], uses the [k]-th instance of the pool and draws
    [ElemCount] indices.  Its blend order is [k] as a [uint16_t], so [k] up
    to 65535.  Its offset is the [unsigned int] sum of the command's
    [IdxOffset] and the number of indices in the lists before the command's
    own: that sum itself when it is below 2^32, and the sum modulo 2^32
    otherwise. *)
Theorem one_batch_per_drawn_command (ui : Ui) (commands : ImDrawData) (io : ImGuiIO)
    (ui' : Ui) (calls : list EngineCall) :
  draws ui commands io = true ->
  ImDrawData_wf commands ->
  UpdateView ui commands io = Some (ui', calls) ->
  let lists := CmdLists commands in
  let pool := material_instances_ ui' in
  let batches := imap (batch_of pool) (drawn_cmds 0 lists) in
  filter is_buildRenderable calls =
    [buildRenderable (Z.of_nat (length (all_cmds lists))) batches] /\
  length batches = length (filter is_drawn (all_cmds lists)) /\
  (length batches <= length pool)%nat /\
  (forall k b, batches !! k = Some b ->
     batch_index b = Z.of_nat k /\
     batch_blend_order b = Z.of_nat k mod 2 ^ 16 /\
     (Z.of_nat k < 2 ^ 16 -> batch_blend_order b = Z.of_nat k) /\
     pool !! k = Some (batch_material b) /\
     (ranked (material_instances_ ui) -> batch_material b = Z.of_nat k) /\
     exists before l after cmd,
       lists = before ++ l :: after /\ cmd ∈ CmdBuffer l /\ UserCallback cmd = None /\
       0 <= index_total before <= TotalIdxCount commands /\
       batch_offset b = (IdxOffset cmd + index_total before) mod 2 ^ 32 /\
       (0 <= IdxOffset cmd -> IdxOffset cmd + index_total before < 2 ^ 32 ->
        batch_offset b = IdxOffset cmd + index_total before) /\
       batch_count b = ElemCount cmd).
Proof.
  intros Hd (Hcount & _ & Hidx & _ & _) Hrun.
  destruct (UpdateView_draws ui commands io ui' calls Hd Hrun)
    as (lists & pool & created & f & Hlists & Hpool & _ & -> & -> & Hb & Hl & _).
  rewrite (counted_lists_all commands Hcount) in Hlists. injection Hlists as <-.
  cbn [material_instances_]. cbv zeta.
  assert (Hlen : length (imap (batch_of pool) (drawn_cmds 0 (CmdLists commands))) =
                 length (filter is_drawn (all_cmds (CmdLists commands)))).
  { by rewrite length_imap, length_drawn_cmds. }
  split; [|split; [exact Hlen|split; [by rewrite <- Hb|]]].
  - apply extend_pool_created in Hpool. destruct Hpool as (added & _ & -> & _).
    rewrite !filter_app.
    rewrite (filter_none is_buildRenderable (setup_calls ui commands io))
      by (apply setup_calls_Forall; reflexivity).
    rewrite (filter_none is_buildRenderable (replicate _ _))
      by (by apply replicate_Forall).
    rewrite (filter_none is_buildRenderable (cmd_calls _ _ _ _))
      by (apply cmd_calls_Forall; reflexivity).
    rewrite filter_closing_buildRenderable, Hb, count_renderables_all_cmds. reflexivity.
  - intros k b Hk. rewrite list_lookup_imap in Hk.
    destruct (drawn_cmds 0 (CmdLists commands) !! k) as [[off cmd]|] eqn:Hdrawn;
      [|discriminate].
    cbn in Hk. injection Hk as <-.
    assert (Hlt : (k < length pool)%nat).
    { apply lookup_lt_Some in Hdrawn. rewrite Hb, length_imap in Hl. lia. }
    destruct (lookup_lt_is_Some_2 pool k Hlt) as [m Hm].
    unfold batch_of. cbn [batch_index batch_blend_order batch_material batch_offset
                          batch_count fst snd]. rewrite Hm. cbn [default from_option].
    split; [reflexivity|]. split; [reflexivity|].
    split; [intros Hsmall; apply to_uint16_small; lia|].
    split; [reflexivity|]. split.
    + intros Hr. apply (ranked_lookup pool); [|exact Hm].
      apply extend_pool_created in Hpool. destruct Hpool as (added & -> & _).
      by apply ranked_extend.
    + apply list_elem_of_lookup_2 in Hdrawn. apply drawn_cmds_origin in Hdrawn.
      destruct Hdrawn as (before & l & after & Hsplit & Hin & Hcb & ->).
      exists before, l, after, cmd. rewrite Z.add_0_l.
      split; [exact Hsplit|]. split; [exact Hin|]. split; [exact Hcb|].
      split.
      { rewrite Hidx, Hsplit, index_total_app.
        pose proof (index_total_nonneg before). pose proof (index_total_nonneg (l :: after)).
        lia. }
      split; [reflexivity|]. split; [|reflexivity].
      intros Hoff Hfit. pose proof (index_total_nonneg before).
      unfold to_uint32, wrap_unsigned. apply Z.mod_small. lia.
Qed.

(** X17.  User callbacks.  A frame that is drawn calls the user callback of
    every command that has one, once each and in the order of the commands;
    a frame that is not drawn (no engine, a display of size zero, or no
    lists) calls none of them. *)
Theorem user_callbacks_run_in_order (ui : Ui) (commands : ImDrawData) (io : ImGuiIO)
    (ui' : Ui) (calls : list EngineCall) :
  CmdListsCount commands = Z.of_nat (length (CmdLists commands)) ->
  UpdateView ui commands io = Some (ui', calls) ->
  filter is_callUserCallback calls =
    if draws ui commands io
    then callUserCallback <$> omap UserCallback (all_cmds (CmdLists commands))
    else [].
Proof.
  intros Hcount Hrun. destruct (draws ui commands io) eqn:Hd.
  - destruct (UpdateView_draws ui commands io ui' calls Hd Hrun)
      as (lists & pool & created & f & Hlists & Hpool & _ & -> & -> & _).
    rewrite (counted_lists_all commands Hcount) in Hlists. injection Hlists as <-.
    apply extend_pool_created in Hpool. destruct Hpool as (added & _ & -> & _).
    rewrite !filter_app.
    rewrite (filter_none is_callUserCallback (setup_calls ui commands io))
      by (apply setup_calls_Forall; reflexivity).
    rewrite (filter_none is_callUserCallback (replicate _ _))
      by (by apply replicate_Forall).
    rewrite (filter_none is_callUserCallback (closing_calls _ _))
      by (apply closing_calls_Forall; reflexivity).
    rewrite cmd_calls_callbacks, app_nil_r. reflexivity.
  - rewrite (UpdateView_skips ui commands io Hd) in Hrun. injection Hrun as <- <-.
    unfold prologue. by destruct (engine_ ui && negb (display_is_zero io)).
Qed.

Lemma rebuilt_buffer_changes buffer total :
  if rebuild_needed buffer total
  then rebuilt_buffer buffer total <> buffer
  else rebuilt_buffer buffer total = buffer.
Proof.
  unfold rebuilt_buffer. destruct (rebuild_needed buffer total) eqn:Hr; [|reflexivity].
  unfold rebuild_needed in Hr. destruct buffer as [count|]; [|discriminate].
  apply Z.ltb_lt in Hr. intros [= E]. lia.
Qed.

(** X18.  The fence.  [UpdateView] waits on a fence exactly in a frame that
    replaces the vertex or the index buffer, once, and before it destroys or
    creates either; a frame that keeps both buffers neither waits nor
    destroys nor creates a buffer. *)
Theorem fence_guards_buffer_swaps (ui : Ui) (commands : ImDrawData) (io : ImGuiIO)
    (ui' : Ui) (calls : list EngineCall) :
  UpdateView ui commands io = Some (ui', calls) ->
  (vertex_buffer_ ui' = vertex_buffer_ ui /\ index_buffer_ ui' = index_buffer_ ui /\
   filter is_sync calls = []) \/
  ((vertex_buffer_ ui' <> vertex_buffer_ ui \/ index_buffer_ ui' <> index_buffer_ ui) /\
   exists swaps,
     filter is_sync calls = waitAndDestroyFence :: swaps /\ swaps <> [] /\
     Forall (fun c => is_fence c = false) swaps /\
     swaps = filter is_vertex_buffer_call calls ++ filter is_index_buffer_call calls).
Proof.
  intros Hrun. destruct (draws ui commands io) eqn:Hd.
  - destruct (UpdateView_draws ui commands io ui' calls Hd Hrun)
      as (lists & pool & created & f & _ & Hpool & _ & -> & -> & _).
    apply extend_pool_created in Hpool. destruct Hpool as (added & _ & -> & _).
    cbn [vertex_buffer_ index_buffer_].
    assert (Hrest : forall P : EngineCall -> bool,
              P createInstance = false ->
              (forall callback, P (callUserCallback callback) = false) ->
              (forall clip_rect h m, P (SetScissor clip_rect h m) = false) ->
              (forall m texture, P (setParameter_albedo m texture) = false) ->
              (forall count batches, P (buildRenderable count batches) = false) ->
              (forall vertices, P (setBufferAt vertices) = false) ->
              (forall indices, P (setBuffer indices) = false) ->
              filter P (setup_calls ui commands io ++ replicate added createInstance
                          ++ cmd_calls pool (height_px io) 0 (all_cmds lists)
                          ++ closing_calls (count_renderables lists) f) =
              filter P (setup_calls ui commands io)).
    { intros P H1 H2 H3 H4 H5 H6 H7. rewrite !filter_app.
      rewrite (filter_none P (replicate _ _)) by (by apply replicate_Forall).
      rewrite (filter_none P (cmd_calls _ _ _ _)) by (by apply cmd_calls_Forall).
      rewrite (filter_none P (closing_calls _ _)) by (by apply closing_calls_Forall).
      by rewrite !app_nil_r. }
    rewrite !Hrest by reflexivity.
    pose proof (rebuilt_buffer_changes (vertex_buffer_ ui) (TotalVtxCount commands)) as Hv.
    pose proof (rebuilt_buffer_changes (index_buffer_ ui) (TotalIdxCount commands)) as Hi.
    unfold setup_calls, prologue, vertex_buffer_calls, index_buffer_calls.
    destruct (rebuild_needed (vertex_buffer_ ui) (TotalVtxCount commands)),
             (rebuild_needed (index_buffer_ ui) (TotalIdxCount commands)),
             (Fonts_IsBuilt io);
      first [ left; split; [exact Hv|split; [exact Hi|reflexivity]]
            | right; split; [first [left; exact Hv|right; exact Hi]|];
              eexists; split; [reflexivity|]; split; [discriminate|];
              split; [repeat first [apply Forall_nil_2 | apply Forall_cons_2]; reflexivity
                     |reflexivity] ].
  - rewrite (UpdateView_skips ui commands io Hd) in Hrun. injection Hrun as <- <-.
    left. split; [reflexivity|]. split; [reflexivity|].
    unfold prologue. by destruct (engine_ ui && negb (display_is_zero io)).
Qed.

(** ** The two GPU buffers over a session *)

Lemma gpu_run_app g a : forall b,
  gpu_run g (a ++ b) =
    match gpu_run g a with Some g' => gpu_run g' b | None => None end.
Proof.
  revert g. induction a as [|c a IH]; intros g b; [reflexivity|].
  cbn [app gpu_run]. destruct (gpu_step g c); [apply IH|reflexivity].
Qed.

Lemma gpu_run_neutral calls : forall g,
  Forall (fun c => forall g, gpu_step g c = Some g) calls -> gpu_run g calls = Some g.
Proof.
  induction calls as [|c calls IH]; intros g Hall; [reflexivity|].
  apply Forall_cons in Hall. destruct Hall as [Hc Hall].
  cbn [gpu_run]. rewrite Hc. by apply IH.
Qed.

Lemma gpu_run_swap_vertex g total :
  gpu_run g (if rebuild_needed (live_vertex_buffer g) total
             then [destroyVertexBuffer (live_vertex_buffer g);
                   createVertexBuffer (to_size_t total)]
             else []) =
    Some {| live_vertex_buffer := rebuilt_buffer (live_vertex_buffer g) total;
            live_index_buffer := live_index_buffer g |}.
Proof.
  unfold rebuilt_buffer. destruct (rebuild_needed (live_vertex_buffer g) total).
  - cbn [gpu_run gpu_step]. rewrite decide_True by reflexivity. reflexivity.
  - by destruct g.
Qed.

Lemma gpu_run_swap_index g total :
  gpu_run g (if rebuild_needed (live_index_buffer g) total
             then [destroyIndexBuffer (live_index_buffer g);
                   createIndexBuffer (to_size_t total)]
             else []) =
    Some {| live_vertex_buffer := live_vertex_buffer g;
            live_index_buffer := rebuilt_buffer (live_index_buffer g) total |}.
Proof.
  unfold rebuilt_buffer. destruct (rebuild_needed (live_index_buffer g) total).
  - cbn [gpu_run gpu_step]. rewrite decide_True by reflexivity. reflexivity.
  - by destruct g.
Qed.

Lemma gpu_run_setup_calls ui commands io :
  gpu_run (gpu_of ui) (setup_calls ui commands io) =
    Some {| live_vertex_buffer := rebuilt_buffer (vertex_buffer_ ui) (TotalVtxCount commands);
            live_index_buffer := rebuilt_buffer (index_buffer_ ui) (TotalIdxCount commands) |}.
Proof.
  unfold setup_calls. rewrite gpu_run_app.
  rewrite (gpu_run_neutral (prologue io))
    by (unfold prologue; repeat first [apply Forall_nil_2 | apply Forall_cons_2]; reflexivity).
  rewrite gpu_run_app.
  rewrite (gpu_run_neutral (if Fonts_IsBuilt io then _ else _))
    by (destruct (Fonts_IsBuilt io);
        repeat first [apply Forall_nil_2 | apply Forall_cons_2]; reflexivity).
  rewrite gpu_run_app.
  rewrite (gpu_run_neutral (if _ || _ then _ else _))
    by (destruct (_ || _);
        repeat first [apply Forall_nil_2 | apply Forall_cons_2]; reflexivity).
  rewrite gpu_run_app.
  unfold vertex_buffer_calls, index_buffer_calls.
  change (vertex_buffer_ ui) with (live_vertex_buffer (gpu_of ui)).
  rewrite gpu_run_swap_vertex.
  change (index_buffer_ ui) with
    (live_index_buffer
       {| live_vertex_buffer :=
            rebuilt_buffer (live_vertex_buffer (gpu_of ui)) (TotalVtxCount commands);
          live_index_buffer := live_index_buffer (gpu_of ui) |}).
  rewrite gpu_run_swap_index. reflexivity.
Qed.

Lemma fits_take {A} (data : list A) n buffer :
  sized buffer data -> (exists count, buffer = Some count) ->
  fits (take n data) buffer = true.
Proof.
  intros Hs [count ->]. cbn [fits]. apply Z.leb_le.
  rewrite <- (Hs count eq_refl), length_take. lia.
Qed.

Lemma sized_same_length {A} buffer (a b : list A) :
  length b = length a -> sized buffer a -> sized buffer b.
Proof. intros E Hs count Hc. rewrite E. by apply Hs. Qed.

Lemma UpdateView_gpu ui commands io ui' calls :
  Ui_inv ui -> UpdateView ui commands io = Some (ui', calls) ->
  gpu_run (gpu_of ui) calls = Some (gpu_of ui') /\ Ui_inv ui'.
Proof.
  intros [Hsv Hsi] Hrun. destruct (draws ui commands io) eqn:Hd.
  - destruct (UpdateView_draws ui commands io ui' calls Hd Hrun)
      as (lists & pool & created & f & _ & Hpool & _ & -> & -> & _ & _ & Lv & Li & _).
    apply extend_pool_created in Hpool. destruct Hpool as (added & _ & -> & _).
    assert (Hv : sized (rebuilt_buffer (vertex_buffer_ ui) (TotalVtxCount commands))
                   (f_vertex_data f)).
    { eapply sized_same_length; [exact Lv|]. by apply rebuilt_sized_any. }
    assert (Hi : sized (rebuilt_buffer (index_buffer_ ui) (TotalIdxCount commands))
                   (f_index_data f)).
    { eapply sized_same_length; [exact Li|]. by apply rebuilt_sized_any. }
    split; [|split; [exact Hv|exact Hi]].
    rewrite gpu_run_app, gpu_run_setup_calls.
    rewrite gpu_run_app, (gpu_run_neutral (replicate _ _)) by (by apply replicate_Forall).
    rewrite gpu_run_app, (gpu_run_neutral (cmd_calls _ _ _ _)) by (by apply cmd_calls_Forall).
    unfold closing_calls, gpu_of. cbn [vertex_buffer_ index_buffer_].
    destruct (i_vert f =? 0), (i_ind f =? 0);
      cbn [app gpu_run gpu_step live_vertex_buffer live_index_buffer];
      repeat (first [ rewrite (fits_take (f_vertex_data f))
                        by (auto using rebuilt_buffer_Some)
                    | rewrite (fits_take (f_index_data f))
                        by (auto using rebuilt_buffer_Some) ];
              cbn [gpu_run gpu_step live_vertex_buffer live_index_buffer]);
      reflexivity.
  - rewrite (UpdateView_skips ui commands io Hd) in Hrun. injection Hrun as <- <-.
    split; [|by split]. apply gpu_run_neutral. unfold prologue.
    destruct (engine_ ui && negb (display_is_zero io));
      repeat first [apply Forall_nil_2 | apply Forall_cons_2]; reflexivity.
Qed.

(** X19.  The two GPU buffers are handled by the book.  Over any sequence of
    frames that starts from a [Ui] whose snapshots have the sizes of its
    buffers (a new [Ui] is one), every buffer [UpdateView] destroys is the
    one it holds at that moment, it creates a buffer only after it destroyed
    the one before, every upload goes to the buffer it holds and is no longer
    than that buffer, and at the end it holds the buffers created last. *)
Theorem buffers_follow_protocol (frames : list (ImDrawData * ImGuiIO)) (ui ui' : Ui)
    (calls : list EngineCall) :
  Ui_inv ui ->
  UpdateViews ui frames = Some (ui', calls) ->
  gpu_run (gpu_of ui) calls = Some (gpu_of ui') /\ Ui_inv ui'.
Proof.
  revert ui ui' calls. induction frames as [|[commands io] frames IH]; intros ui ui' calls Hinv.
  - by intros [= <- <-].
  - rewrite UpdateViews_cons.
    destruct (UpdateView ui commands io) as [[ui1 calls1]|] eqn:H1; [|discriminate].
    destruct (UpdateViews ui1 frames) as [[ui2 calls2]|] eqn:H2; [|discriminate].
    intros [= <- <-].
    destruct (UpdateView_gpu _ _ _ _ _ Hinv H1) as [Hg1 Hinv1].
    destruct (IH _ _ _ Hinv1 H2) as [Hg2 Hinv2].
    split; [|exact Hinv2]. by rewrite gpu_run_app, Hg1.
Qed.

(** ** Frames ImGui can produce *)

Lemma UpdateView_wf_returns ui commands io :
  material_ ui = true -> Ui_inv ui -> ImDrawData_wf commands ->
  exists ui' calls,
    UpdateView ui commands io = Some (ui', calls) /\
    engine_ ui' = engine_ ui /\ material_ ui' = true.
Proof.
  intros Hm [Hsv Hsi] (Hc & Hv & Hi & Hvb & Hib).
  destruct (draws ui commands io) eqn:Hd.
  - pose proof Hd as Hd'. apply draws_true in Hd'. destruct Hd' as (He & Hz & Hn).
    pose proof (vertex_total_nonneg (CmdLists commands)) as Hv0.
    pose proof (index_total_nonneg (CmdLists commands)) as Hi0.
    rewrite (UpdateView_frame ui commands io He Hz Hn), (counted_lists_all commands Hc), Hm.
    destruct (extend_pool_ok (material_instances_ ui) (count_renderables (CmdLists commands)))
      as (pool & created & -> & Hpool).
    pose proof (rebuilt_snapshot_length ImDrawVert_zero (vertex_buffer_ ui)
                  (TotalVtxCount commands) (vertex_data_ ui) Hsv ltac:(lia)) as Lv.
    pose proof (rebuilt_snapshot_length 0 (index_buffer_ ui)
                  (TotalIdxCount commands) (index_data_ ui) Hsi ltac:(lia)) as Li.
    fold (frame_start ui commands io created).
    destruct (copy_lists_ok pool (height_px io) (CmdLists commands) true
                (frame_start ui commands io created)) as (f & -> & _);
      cbn [frame_start i_vert i_ind i_renderable f_vertex_data f_index_data]; try lia.
    eexists. eexists. split; [reflexivity|]. split; reflexivity.
  - rewrite (UpdateView_skips ui commands io Hd). eexists. eexists.
    split; [reflexivity|]. split; [reflexivity|exact Hm].
Qed.

(** X20.  No frame ImGui can produce makes [UpdateView] read or write
    outside an array.  From a [Ui] that has a material and whose snapshots
    have the sizes of its buffers (a new [Ui] with a material is one), every
    sequence of frames whose counts are those of their lists is processed to
    the end, and leaves such a [Ui] again. *)
Theorem consistent_frames_are_processed (frames : list (ImDrawData * ImGuiIO)) (ui : Ui) :
  material_ ui = true -> Ui_inv ui ->
  Forall (fun frame => ImDrawData_wf frame.1) frames ->
  exists ui' calls,
    UpdateViews ui frames = Some (ui', calls) /\
    engine_ ui' = engine_ ui /\ material_ ui' = true /\ Ui_inv ui'.
Proof.
  revert ui. induction frames as [|[commands io] frames IH]; intros ui Hm Hinv Hwf.
  - exists ui, []. split; [reflexivity|]. split; [reflexivity|]. split; [exact Hm|exact Hinv].
  - apply Forall_cons in Hwf. destruct Hwf as [Hwf1 Hwf].
    destruct (UpdateView_wf_returns ui commands io Hm Hinv Hwf1)
      as (ui1 & calls1 & H1 & He1 & Hm1).
    destruct (UpdateView_gpu _ _ _ _ _ Hinv H1) as [_ Hinv1].
    destruct (IH ui1 Hm1 Hinv1 Hwf) as (ui2 & calls2 & H2 & He2 & Hm2 & Hinv2).
    exists ui2, (calls1 ++ calls2). rewrite UpdateViews_cons, H1, H2.
    split; [reflexivity|]. split; [congruence|]. split; [exact Hm2|exact Hinv2].
Qed.

(** X21.  A [Ui] without a material.  [UpdateView] dereferences the null
    material in the first frame it draws that has more commands than the pool
    has instances; until then, and in frames it does not draw, the missing
    material goes unnoticed. *)
Theorem null_material_is_dereferenced (ui : Ui) (commands : ImDrawData) (io : ImGuiIO) :
  material_ ui = false -> Ui_inv ui -> ImDrawData_wf commands ->
  (draws ui commands io = true /\
   Z.of_nat (length (material_instances_ ui)) <
     Z.of_nat (length (all_cmds (CmdLists commands))) ->
   UpdateView ui commands io = None) /\
  (draws ui commands io = false \/
   Z.of_nat (length (all_cmds (CmdLists commands))) <=
     Z.of_nat (length (material_instances_ ui)) ->
   exists ui' calls,
     UpdateView ui commands io = Some (ui', calls) /\
     material_instances_ ui' = material_instances_ ui).
Proof.
  intros Hm [Hsv Hsi] (Hc & Hv & Hi & Hvb & Hib).
  pose proof (count_renderables_all_cmds (CmdLists commands)) as Hcount.
  split.
  - intros [Hd Hlt]. apply draws_true in Hd. destruct Hd as (He & Hz & Hn).
    rewrite (UpdateView_frame ui commands io He Hz Hn), (counted_lists_all commands Hc).
    unfold extend_pool. rewrite Hm.
    destruct (Z.ltb_spec (Z.of_nat (length (material_instances_ ui)))
                (count_renderables (CmdLists commands))); [reflexivity|lia].
  - destruct (draws ui commands io) eqn:Hd.
    + intros [|Hle]; [discriminate|].
      pose proof Hd as Hd'. apply draws_true in Hd'. destruct Hd' as (He & Hz & Hn).
      pose proof (vertex_total_nonneg (CmdLists commands)) as Hv0.
      pose proof (index_total_nonneg (CmdLists commands)) as Hi0.
      rewrite (UpdateView_frame ui commands io He Hz Hn), (counted_lists_all commands Hc).
      unfold extend_pool.
      destruct (Z.ltb_spec (Z.of_nat (length (material_instances_ ui)))
                  (count_renderables (CmdLists commands))); [lia|].
      pose proof (rebuilt_snapshot_length ImDrawVert_zero (vertex_buffer_ ui)
                    (TotalVtxCount commands) (vertex_data_ ui) Hsv ltac:(lia)) as Lv.
      pose proof (rebuilt_snapshot_length 0 (index_buffer_ ui)
                    (TotalIdxCount commands) (index_data_ ui) Hsi ltac:(lia)) as Li.
      fold (frame_start ui commands io []).
      destruct (copy_lists_ok (material_instances_ ui) (height_px io) (CmdLists commands) true
                  (frame_start ui commands io [])) as (f & -> & _);
        cbn [frame_start i_vert i_ind i_renderable f_vertex_data f_index_data]; try lia.
      eexists. eexists. split; reflexivity.
    + intros _. rewrite (UpdateView_skips ui commands io Hd). eexists. eexists.
      split; reflexivity.
Qed.

Lemma no_rebuild_after buffer t1 t2 :
  0 <= t2 <= t1 -> t1 < 2 ^ 31 ->
  rebuild_needed (rebuilt_buffer buffer t1) t2 = false.
Proof.
  intros Ht Hb. unfold rebuilt_buffer.
  destruct (rebuild_needed buffer t1) eqn:Hr.
  - cbn [rebuild_needed]. rewrite !to_size_t_count by lia. apply Z.ltb_ge. lia.
  - unfold rebuild_needed in *. destruct buffer as [count|]; [|discriminate].
    rewrite to_size_t_count in * by lia. apply Z.ltb_ge in Hr. apply Z.ltb_ge. lia.
Qed.

(** A frame that needs no rebuild and no more instances than the pool has. *)
Lemma UpdateView_within_capacity ui commands io ui' calls :
  rebuild_needed (vertex_buffer_ ui) (TotalVtxCount commands) = false ->
  rebuild_needed (index_buffer_ ui) (TotalIdxCount commands) = false ->
  (forall lists, counted_lists commands = Some lists ->
     count_renderables lists <= Z.of_nat (length (material_instances_ ui))) ->
  UpdateView ui commands io = Some (ui', calls) ->
  filter is_allocation calls = [] /\
  vertex_buffer_ ui' = vertex_buffer_ ui /\ index_buffer_ ui' = index_buffer_ ui /\
  material_instances_ ui' = material_instances_ ui.
Proof.
  intros Hrv Hri Hfit Hrun. destruct (draws ui commands io) eqn:Hd.
  - destruct (UpdateView_draws ui commands io ui' calls Hd Hrun)
      as (lists & pool & created & f & Hlists & Hpool & _ & -> & -> & _).
    specialize (Hfit lists Hlists). unfold extend_pool in Hpool.
    destruct (Z.ltb_spec (Z.of_nat (length (material_instances_ ui)))
                (count_renderables lists)); [lia|].
    injection Hpool as <- <-. cbn [vertex_buffer_ index_buffer_ material_instances_].
    unfold rebuilt_buffer. rewrite Hrv, Hri.
    split; [|split; [reflexivity|split; reflexivity]].
    rewrite !filter_app.
    rewrite (filter_none is_allocation (cmd_calls _ _ _ _))
      by (apply cmd_calls_Forall; reflexivity).
    rewrite (filter_none is_allocation (closing_calls _ _))
      by (apply closing_calls_Forall; reflexivity).
    unfold setup_calls, prologue, vertex_buffer_calls, index_buffer_calls.
    rewrite Hrv, Hri. by destruct (Fonts_IsBuilt io).
  - rewrite (UpdateView_skips ui commands io Hd) in Hrun. injection Hrun as <- <-.
    split; [|split; [reflexivity|split; reflexivity]].
    unfold prologue. by destruct (engine_ ui && negb (display_is_zero io)).
Qed.

(** X22.  Steady state.  After a frame that was drawn, a frame with no more
    vertices, no more indices and no more commands allocates nothing: it
    waits on no fence, destroys and creates no buffer and creates no material
    instance, and it keeps the buffers and the pool of the frame before. *)
Theorem smaller_frame_allocates_nothing (ui : Ui) (first next : ImDrawData)
    (io io' : ImGuiIO) :
  material_ ui = true -> Ui_inv ui -> ImDrawData_wf first -> ImDrawData_wf next ->
  draws ui first io = true ->
  vertex_total (CmdLists next) <= vertex_total (CmdLists first) ->
  index_total (CmdLists next) <= index_total (CmdLists first) ->
  (length (all_cmds (CmdLists next)) <= length (all_cmds (CmdLists first)))%nat ->
  exists ui1 calls1 ui2 calls2,
    UpdateView ui first io = Some (ui1, calls1) /\
    UpdateView ui1 next io' = Some (ui2, calls2) /\
    filter is_allocation calls2 = [] /\
    vertex_buffer_ ui2 = vertex_buffer_ ui1 /\ index_buffer_ ui2 = index_buffer_ ui1 /\
    material_instances_ ui2 = material_instances_ ui1.
Proof.
  intros Hm Hinv Hwf1 Hwf2 Hd Hv Hi Hc.
  destruct (UpdateView_wf_returns ui first io Hm Hinv Hwf1) as (ui1 & calls1 & H1 & _ & Hm1).
  destruct (UpdateView_gpu _ _ _ _ _ Hinv H1) as [_ Hinv1].
  destruct (UpdateView_wf_returns ui1 next io' Hm1 Hinv1 Hwf2) as (ui2 & calls2 & H2 & _).
  exists ui1, calls1, ui2, calls2. split; [exact H1|]. split; [exact H2|].
  destruct Hwf1 as (Hc1 & Hv1 & Hi1 & Hvb1 & Hib1).
  destruct Hwf2 as (Hc2 & Hv2 & Hi2 & Hvb2 & Hib2).
  pose proof (vertex_total_nonneg (CmdLists next)) as Hv0.
  pose proof (index_total_nonneg (CmdLists next)) as Hi0.
  destruct (UpdateView_pool ui first io ui1 calls1 H1) as (added & _ & _ & _ & Hsize).
  specialize (Hsize Hd _ (counted_lists_all first Hc1)).
  destruct (UpdateView_draws ui first io ui1 calls1 Hd H1)
    as (lists & pool & created & f & _ & _ & _ & Hui1 & _).
  apply (UpdateView_within_capacity ui1 next io' ui2 calls2); [| |  |exact H2].
  - rewrite Hui1. cbn [vertex_buffer_]. apply no_rebuild_after; lia.
  - rewrite Hui1. cbn [index_buffer_]. apply no_rebuild_after; lia.
  - intros lists2 Hlists2. rewrite (counted_lists_all next Hc2) in Hlists2.
    injection Hlists2 as <-. rewrite count_renderables_all_cmds. lia.
Qed.

(** ** Examples for the properties above *)

Lemma Ui_inv_ready : Ui_inv ui_ready.
Proof. split; intros count Hc; discriminate Hc. Qed.

Lemma one_batch_per_drawn_command_witness :
  exists ui' calls,
    (draws ui_ready (frame_of [with_callback; triangle]) io_200 = true /\
     ImDrawData_wf (frame_of [with_callback; triangle]) /\
     UpdateView ui_ready (frame_of [with_callback; triangle]) io_200 = Some (ui', calls)) /\
    filter is_buildRenderable calls =
      [buildRenderable 4
         [{| batch_index := 0; batch_offset := 0; batch_count := 3;
             batch_blend_order := 0; batch_material := 0 |};
          {| batch_index := 1; batch_offset := 3; batch_count := 3;
             batch_blend_order := 1; batch_material := 1 |};
          {| batch_index := 2; batch_offset := 6; batch_count := 3;
             batch_blend_order := 2; batch_material := 2 |}]].
Proof.
  destruct (UpdateView ui_ready (frame_of [with_callback; triangle]) io_200)
    as [[ui' calls]|] eqn:H1; [|vm_compute in H1; discriminate H1].
  assert (Hd : draws ui_ready (frame_of [with_callback; triangle]) io_200 = true)
    by (vm_compute; reflexivity).
  assert (Hwf : ImDrawData_wf (frame_of [with_callback; triangle])) by (repeat split).
  assert (Hpool : material_instances_ ui' = [0; 1; 2; 3]).
  { vm_compute in H1. injection H1 as <- _. reflexivity. }
  destruct (one_batch_per_drawn_command _ _ _ _ _ Hd Hwf H1) as (Hb & _).
  exists ui', calls. split; [split; [exact Hd|split; [exact Hwf|reflexivity]]|].
  rewrite Hb, Hpool. vm_compute. reflexivity.
Defined.

Lemma user_callbacks_run_in_order_witness :
  exists ui' calls ui'' calls',
    (CmdListsCount (frame_of [with_callback; triangle]) =
       Z.of_nat (length (CmdLists (frame_of [with_callback; triangle]))) /\
     UpdateView ui_ready (frame_of [with_callback; triangle]) io_200 = Some (ui', calls) /\
     UpdateView ui_ready (frame_of [with_callback; triangle]) io_minimized
       = Some (ui'', calls')) /\
    filter is_callUserCallback calls = [callUserCallback 7] /\
    filter is_callUserCallback calls' = [].
Proof.
  destruct (UpdateView ui_ready (frame_of [with_callback; triangle]) io_200)
    as [[ui' calls]|] eqn:H1; [|vm_compute in H1; discriminate H1].
  destruct (UpdateView ui_ready (frame_of [with_callback; triangle]) io_minimized)
    as [[ui'' calls']|] eqn:H2; [|vm_compute in H2; discriminate H2].
  assert (Hc : CmdListsCount (frame_of [with_callback; triangle]) =
               Z.of_nat (length (CmdLists (frame_of [with_callback; triangle]))))
    by reflexivity.
  exists ui', calls, ui'', calls'. split; [split; [exact Hc|split; reflexivity]|].
  split.
  - rewrite (user_callbacks_run_in_order _ _ _ _ _ Hc H1). vm_compute. reflexivity.
  - rewrite (user_callbacks_run_in_order _ _ _ _ _ Hc H2). vm_compute. reflexivity.
Defined.

Lemma fence_guards_buffer_swaps_witness :
  exists ui1 calls1 ui2 calls2,
    (UpdateView ui_ready two_lists io_200 = Some (ui1, calls1) /\
     UpdateView ui1 (frame_of [triangle]) io_200 = Some (ui2, calls2)) /\
    filter is_sync calls1 =
      [waitAndDestroyFence; destroyVertexBuffer None; createVertexBuffer 7;
       destroyIndexBuffer None; createIndexBuffer 9] /\
    filter is_sync calls2 = [].
Proof.
  destruct (UpdateView ui_ready two_lists io_200) as [[ui1 calls1]|] eqn:H1;
    [|vm_compute in H1; discriminate H1].
  destruct (UpdateView ui1 (frame_of [triangle]) io_200) as [[ui2 calls2]|] eqn:H2.
  2:{ vm_compute in H1. injection H1 as <- _. vm_compute in H2. discriminate H2. }
  exists ui1, calls1, ui2, calls2. split; [split; [reflexivity|exact H2]|].
  pose proof (fence_guards_buffer_swaps _ _ _ _ _ H1) as Hf1.
  pose proof (fence_guards_buffer_swaps _ _ _ _ _ H2) as Hf2.
  vm_compute in H1. injection H1 as <- <-.
  vm_compute in H2. injection H2 as <- <-.
  split.
  - destruct Hf1 as [(Hsame & _)|(_ & swaps & -> & _ & _ & ->)]; [discriminate Hsame|].
    vm_compute. reflexivity.
  - destruct Hf2 as [(_ & _ & Hnone)|([Hv|Hi] & _)];
      [exact Hnone|by destruct Hv|by destruct Hi].
Defined.

Lemma buffers_follow_protocol_witness :
  exists ui' calls,
    (Ui_inv ui_ready /\
     UpdateViews ui_ready
       [(frame_of [triangle], io_200); (two_lists, io_200); (no_lists, io_200);
        (frame_of [with_callback], io_200)] = Some (ui', calls)) /\
    gpu_run (gpu_of ui_ready) calls =
      Some {| live_vertex_buffer := Some 7; live_index_buffer := Some 9 |} /\
    filter is_vertex_buffer_call calls =
      [destroyVertexBuffer None; createVertexBuffer 3;
       destroyVertexBuffer (Some 3); createVertexBuffer 7].
Proof.
  destruct (UpdateViews ui_ready
              [(frame_of [triangle], io_200); (two_lists, io_200); (no_lists, io_200);
               (frame_of [with_callback], io_200)])
    as [[ui' calls]|] eqn:H1; [|vm_compute in H1; discriminate H1].
  exists ui', calls. split; [split; [exact Ui_inv_ready|reflexivity]|].
  destruct (buffers_follow_protocol _ _ _ _ Ui_inv_ready H1) as [-> _].
  vm_compute in H1. injection H1 as <- <-. split; reflexivity.
Defined.

Lemma consistent_frames_are_processed_witness :
  (material_ ui_ready = true /\ Ui_inv ui_ready /\
   Forall (fun frame => ImDrawData_wf frame.1)
     [(two_lists, io_200); (no_lists, io_200); (frame_of [with_callback], io_minimized)]) /\
  exists ui' calls,
    UpdateViews ui_ready
      [(two_lists, io_200); (no_lists, io_200); (frame_of [with_callback], io_minimized)]
      = Some (ui', calls) /\
    Ui_inv ui'.
Proof.
  assert (Hwf : Forall (fun frame => ImDrawData_wf frame.1)
            [(two_lists, io_200); (no_lists, io_200);
             (frame_of [with_callback], io_minimized)]).
  { repeat first [apply Forall_nil_2 | apply Forall_cons_2]; repeat split. }
  split; [split; [reflexivity|split; [exact Ui_inv_ready|exact Hwf]]|].
  destruct (consistent_frames_are_processed _ ui_ready eq_refl Ui_inv_ready Hwf)
    as (ui' & calls & Hrun & _ & _ & Hinv).
  exists ui', calls. split; [exact Hrun|exact Hinv].
Defined.

Lemma null_material_is_dereferenced_witness :
  (material_ (Ui_new true false) = false /\ Ui_inv (Ui_new true false) /\
   ImDrawData_wf two_lists) /\
  UpdateView (Ui_new true false) two_lists io_200 = None /\
  exists ui' calls, UpdateView (Ui_new true false) two_lists io_minimized = Some (ui', calls).
Proof.
  assert (Hinv : Ui_inv (Ui_new true false)) by (split; intros count Hc; discriminate Hc).
  assert (Hwf : ImDrawData_wf two_lists) by (repeat split).
  split; [split; [reflexivity|split; [exact Hinv|exact Hwf]]|].
  destruct (null_material_is_dereferenced (Ui_new true false) two_lists io_200
              eq_refl Hinv Hwf) as [Hfail _].
  destruct (null_material_is_dereferenced (Ui_new true false) two_lists io_minimized
              eq_refl Hinv Hwf) as [_ Hskip].
  split.
  - apply Hfail. split; [vm_compute; reflexivity|vm_compute; reflexivity].
  - destruct Hskip as (ui' & calls & Hrun & _); [left; vm_compute; reflexivity|].
    exists ui', calls. exact Hrun.
Defined.

Lemma smaller_frame_allocates_nothing_witness :
  (material_ ui_ready = true /\ Ui_inv ui_ready /\
   ImDrawData_wf two_lists /\ ImDrawData_wf (frame_of [triangle]) /\
   draws ui_ready two_lists io_200 = true) /\
  exists ui1 calls1 ui2 calls2,
    UpdateView ui_ready two_lists io_200 = Some (ui1, calls1) /\
    UpdateView ui1 (frame_of [triangle]) io_200 = Some (ui2, calls2) /\
    filter is_allocation calls2 = [] /\
    vertex_buffer_ ui2 = Some 7 /\ index_buffer_ ui2 = Some 9.
Proof.
  assert (Hwf1 : ImDrawData_wf two_lists) by (repeat split).
  assert (Hwf2 : ImDrawData_wf (frame_of [triangle])) by (repeat split).
  assert (Hd : draws ui_ready two_lists io_200 = true) by (vm_compute; reflexivity).
  split; [split; [reflexivity|split; [exact Ui_inv_ready|auto]]|].
  destruct (smaller_frame_allocates_nothing ui_ready two_lists (frame_of [triangle])
              io_200 io_200 eq_refl Ui_inv_ready Hwf1 Hwf2 Hd)
    as (ui1 & calls1 & ui2 & calls2 & H1 & H2 & Hnone & Hv & Hi & _).
  - vm_compute. discriminate.
  - vm_compute. discriminate.
  - vm_compute. lia.
  - exists ui1, calls1, ui2, calls2. split; [exact H1|]. split; [exact H2|].
    split; [exact Hnone|]. rewrite Hv, Hi.
    vm_compute in H1. injection H1 as <- _. split; reflexivity.
Defined.

(** * Further properties: the application *)

Lemma App_inv_new window : App_inv (App_new window).
Proof. by split. Qed.

Lemma Ui_inv_new engine material : Ui_inv (Ui_new engine material).
Proof. split; intros count Hc; discriminate Hc. Qed.

(** One call made as expected keeps the invariant, and returns. *)
Lemma app_call_inv app c :
  App_inv app -> has_material app -> expected c ->
  exists app',
    app_call app c = Some app' /\ App_inv app' /\ has_material app' /\
    window_ app' = window_ app /\
    (app_engine_ app' = true ->
     app_engine_ app = true \/
     (window_ app = true /\ exists o, c = CallInit o /\ native_swap_chain o = true)).
Proof.
  unfold App_inv, has_material. intros Hinv Hmat Hexp.
  destruct c as [o|delivered|fonts_built imgui|commands io]; cbn [app_call expected] in *.
  - unfold Init. destruct (app_engine_ app) eqn:He.
    { exists app. cbn. rewrite ?He. split; [reflexivity|]; split; [exact Hinv|]; split; [exact Hmat|]; split; [congruence|]; intros _; by left. }
    destruct (window_ app) eqn:Hw; cbn [negb];
      [|exists app; cbn; rewrite ?He; split; [reflexivity|]; split; [exact Hinv|]; split; [exact Hmat|]; split; [congruence|]; discriminate].
    destruct (native_swap_chain o) eqn:Hn; cbn [negb];
      [|exists app; cbn; rewrite ?He; split; [reflexivity|]; split; [exact Hinv|]; split; [exact Hmat|]; split; [congruence|]; discriminate].
    destruct Hexp as [-> Hm]. cbn [negb fmap option_fmap option_map fst].
    eexists. split; [reflexivity|]. cbn [app_engine_ ui_ input_ window_].
    split; [|split; [|split; [reflexivity|]]].
    + split; [|by eexists]. eexists. split; [reflexivity|].
      split; [reflexivity|apply Ui_inv_new].
    + intros ui [= <-]. exact Hm.
    + intros _. right. split; [reflexivity|]. by exists o.
  - unfold PollEvents. destruct (app_engine_ app) eqn:He; cbn [negb].
    + destruct Hinv as [Hui [h Hh]]. rewrite Hh. cbn [fmap option_fmap option_map fst].
      eexists. split; [reflexivity|]. cbn [app_engine_ ui_ input_ window_]. rewrite ?He.
      split; [split; [exact Hui|by eexists]|]. split; [exact Hmat|]. split; [reflexivity|].
      by left.
    + exists app. cbn. rewrite ?He. split; [reflexivity|]; split; [exact Hinv|]; split; [exact Hmat|]; split; [congruence|]; discriminate.
  - unfold BeginUiFrame. destruct (app_engine_ app) eqn:He; cbn [negb].
    + destruct Hinv as [(ui & Hui & Hu) [h Hh]]. rewrite Hui, Hh.
      exists {| window_ := window_ app; app_engine_ := true; ui_ := Some ui;
                input_ := Some (mkHandler imgui (state_ h)) |}.
      split; [by destruct fonts_built|]. cbn [app_engine_ ui_ input_ window_].
      split; [split; [by exists ui|by eexists]|].
      split; [by rewrite <- Hui|]. split; [reflexivity|]. by left.
    + exists app. rewrite ?He. split; [reflexivity|]; split; [exact Hinv|]; split; [exact Hmat|]; split; [congruence|]; discriminate.
  - unfold EndUiFrame. destruct (app_engine_ app) eqn:He; cbn [negb].
    + destruct Hinv as [(ui & Hui & Hue & Hu) Hin]. rewrite Hui.
      destruct (UpdateView_wf_returns ui commands io (Hmat ui Hui) Hu Hexp)
        as (ui' & calls & Hrun & He' & Hm').
      destruct (UpdateView_gpu _ _ _ _ _ Hu Hrun) as [_ Hu'].
      rewrite Hrun. cbn [fmap option_fmap option_map fst].
      eexists. split; [reflexivity|]. cbn [app_engine_ ui_ input_ window_]. rewrite ?He.
      split; [split; [|exact Hin]|].
      * exists ui'. split; [reflexivity|]. split; [congruence|exact Hu'].
      * split; [by intros ? [= <-]|]. split; [reflexivity|]. by left.
    + exists app. cbn. rewrite ?He. split; [reflexivity|]; split; [exact Hinv|]; split; [exact Hmat|]; split; [congruence|]; discriminate.
Qed.

(** X23.  The application never goes through a null pointer.  Whatever the
    order in which a program calls [Init], [PollEvents], [BeginUiFrame] and
    [EndUiFrame] on an [App], before [Init], after an [Init] that failed, or
    after calling [Init] again, every call returns and leaves the [App] with
    either no engine, no [Ui] and no input handler, or an engine with both;
    this as long as Filament could create the engine and the UI material and
    the draw data is consistent.  The [App] has an engine only if it was
    built on a window and one of the calls was an [Init] that got a native
    swap chain. *)
Theorem App_calls_are_safe (window : bool) (cs : list AppCall) :
  Forall expected cs ->
  exists app,
    app_calls (App_new window) cs = Some app /\
    App_inv app /\ has_material app /\ window_ app = window /\
    (app_engine_ app = true ->
     window = true /\ exists o, CallInit o ∈ cs /\ native_swap_chain o = true).
Proof.
  intros Hexp.
  assert (Hgen : forall app,
            App_inv app -> has_material app ->
            exists app',
              app_calls app cs = Some app' /\ App_inv app' /\ has_material app' /\
              window_ app' = window_ app /\
              (app_engine_ app' = true ->
               app_engine_ app = true \/
               (window_ app = true /\
                exists o, CallInit o ∈ cs /\ native_swap_chain o = true))).
  { induction Hexp as [|c cs Hc _ IH]; intros app Hinv Hmat.
    - exists app. split; [reflexivity|]. auto.
    - destruct (app_call_inv app c Hinv Hmat Hc) as (app1 & H1 & Hinv1 & Hmat1 & Hw1 & He1).
      destruct (IH app1 Hinv1 Hmat1) as (app2 & H2 & Hinv2 & Hmat2 & Hw2 & He2).
      exists app2. cbn [app_calls]. rewrite H1. split; [exact H2|].
      split; [exact Hinv2|]. split; [exact Hmat2|]. split; [congruence|].
      intros He. destruct (He2 He) as [He'|(Hw & o & Hin & Hn)].
      + destruct (He1 He') as [He''|(Hw & o & -> & Hn)]; [by left|].
        right. split; [exact Hw|]. exists o. split; [apply elem_of_cons; by left|exact Hn].
      + right. split; [congruence|]. exists o. split; [apply elem_of_cons; by right|exact Hn]. }
  destruct (Hgen (App_new window) (App_inv_new window)) as (app & Hrun & Hinv & Hmat & Hw & He).
  { intros ui Hui. discriminate Hui. }
  exists app. split; [exact Hrun|]. split; [exact Hinv|]. split; [exact Hmat|].
  split; [exact Hw|]. intros Heng. destruct (He Heng) as [Hno|Hyes]; [discriminate Hno|].
  exact Hyes.
Qed.

Lemma UpdateView_no_material ui commands io ui' calls :
  material_ ui = false ->
  UpdateView ui commands io = Some (ui', calls) ->
  material_ ui' = false /\ engine_ ui' = engine_ ui /\
  material_instances_ ui' = material_instances_ ui.
Proof.
  intros Hm Hrun. destruct (draws ui commands io) eqn:Hd.
  - destruct (UpdateView_draws ui commands io ui' calls Hd Hrun)
      as (lists & pool & created & f & _ & Hpool & _ & -> & _).
    cbn [material_ engine_ material_instances_]. split; [exact Hm|]. split; [reflexivity|].
    unfold extend_pool in Hpool. rewrite Hm in Hpool.
    destruct (Z.of_nat (length (material_instances_ ui)) <? count_renderables lists);
      [discriminate|]. by injection Hpool as <- _.
  - rewrite (UpdateView_skips ui commands io Hd) in Hrun. by injection Hrun as <- _.
Qed.

Lemma app_call_without_material app c app' :
  App_without_material app -> app_call app c = Some app' -> App_without_material app'.
Proof.
  intros (He & ui & Hui & Hue & Hm & Hp).
  destruct c as [o|delivered|fonts_built imgui|commands io]; cbn [app_call].
  - unfold Init. rewrite He. intros [= <-]. split; [exact He|]. by exists ui.
  - unfold PollEvents. rewrite He. cbn [negb]. destruct (input_ app); [|discriminate].
    intros [= <-]. split; [reflexivity|]. by exists ui.
  - unfold BeginUiFrame. rewrite He, Hui. cbn [negb].
    destruct fonts_built; intros [= <-]; (split; [reflexivity|]); by exists ui.
  - unfold EndUiFrame. rewrite He, Hui. cbn [negb].
    destruct (UpdateView ui commands io) as [[ui1 calls]|] eqn:Hrun; [|discriminate].
    intros [= <-]. destruct (UpdateView_no_material _ _ _ _ _ Hm Hrun) as (Hm1 & He1 & Hp1).
    split; [reflexivity|]. exists ui1. cbn [ui_]. split; [reflexivity|].
    split; [congruence|]. split; [exact Hm1|congruence].
Qed.

Lemma app_calls_without_material cs : forall app app',
  App_without_material app -> app_calls app cs = Some app' -> App_without_material app'.
Proof.
  induction cs as [|c cs IH]; intros app app' Hinv; cbn [app_calls].
  - by intros [= <-].
  - destruct (app_call app c) as [app1|] eqn:H1; [|discriminate].
    apply IH. by apply (app_call_without_material app c).
Qed.

(** X24.  A UI material that could not be built.  [Init] does not check the
    material Filament built from the package: on a window with a native swap
    chain it reports success all the same.  From then on, whatever the
    program calls in between, the first [EndUiFrame] whose frame is drawn and
    has a command goes through the null material. *)
Theorem unbuilt_material_breaks_first_draw (o : InitOutcome) (cs : list AppCall) (app : App)
    (commands : ImDrawData) (io : ImGuiIO) :
  native_swap_chain o = true -> engine_created o = true -> ui_mat_built o = false ->
  app_calls (App_new true) (CallInit o :: cs) = Some app ->
  CmdListsCount commands = Z.of_nat (length (CmdLists commands)) ->
  all_cmds (CmdLists commands) <> [] -> display_is_zero io = false ->
  (exists app0, Init (App_new true) o = Some (app0, true)) /\
  EndUiFrame app commands io = None.
Proof.
  intros Hn He Hm Hrun Hcount Hcmds Hz.
  assert (Hinit : Init (App_new true) o =
                  Some ({| window_ := true; app_engine_ := true;
                           ui_ := Some (Ui_new true false);
                           input_ := Some (Handler_new (imgui_io o)) |}, true)).
  { unfold Init. cbn. by rewrite Hn, He, Hm. }
  split; [by eexists|].
  cbn [app_calls app_call] in Hrun. rewrite Hinit in Hrun.
  cbn [fmap option_fmap option_map fst] in Hrun.
  apply app_calls_without_material in Hrun; [|split; [reflexivity|by eexists]].
  destruct Hrun as (Heng & ui & Hui & Hue & Hmat & Hpool).
  unfold EndUiFrame. rewrite Heng, Hui. cbn [negb].
  assert (Hne : CmdListsCount commands <> 0).
  { rewrite Hcount. destruct (CmdLists commands); [by destruct Hcmds|cbn [length]; lia]. }
  rewrite (UpdateView_frame ui commands io Hue Hz Hne), (counted_lists_all commands Hcount).
  unfold extend_pool. rewrite Hmat, Hpool, count_renderables_all_cmds.
  destruct (all_cmds (CmdLists commands)); [by destruct Hcmds|reflexivity].
Qed.

Lemma App_calls_are_safe_witness :
  let cs := [CallPollEvents [KeyAction 0 GLFW_KEY_W 0 GLFW_PRESS 0];
             CallEndUiFrame two_lists io_200;
             CallInit init_ok; CallInit init_ok;
             CallPollEvents [KeyAction 0 GLFW_KEY_W 0 GLFW_PRESS 0];
             CallBeginUiFrame false captures_mouse;
             CallEndUiFrame two_lists io_200;
             CallEndUiFrame no_lists io_minimized] in
  Forall expected cs /\
  exists app,
    app_calls (App_new true) cs = Some app /\ App_inv app /\ app_engine_ app = true.
Proof.
  cbv zeta.
  assert (Hexp : Forall expected
            [CallPollEvents [KeyAction 0 GLFW_KEY_W 0 GLFW_PRESS 0];
             CallEndUiFrame two_lists io_200;
             CallInit init_ok; CallInit init_ok;
             CallPollEvents [KeyAction 0 GLFW_KEY_W 0 GLFW_PRESS 0];
             CallBeginUiFrame false captures_mouse;
             CallEndUiFrame two_lists io_200;
             CallEndUiFrame no_lists io_minimized]).
  { repeat first [apply Forall_nil_2 | apply Forall_cons_2]; repeat split. }
  split; [exact Hexp|].
  destruct (App_calls_are_safe true _ Hexp) as (app & Hrun & Hinv & _).
  exists app. split; [exact Hrun|]. split; [exact Hinv|].
  vm_compute in Hrun. injection Hrun as <-. reflexivity.
Defined.

Lemma unbuilt_material_breaks_first_draw_witness :
  exists app,
    (native_swap_chain init_no_material = true /\ engine_created init_no_material = true /\
     ui_mat_built init_no_material = false /\
     app_calls (App_new true)
       [CallInit init_no_material; CallPollEvents []; CallEndUiFrame no_lists io_200]
       = Some app /\
     all_cmds (CmdLists two_lists) <> [] /\ display_is_zero io_200 = false) /\
    EndUiFrame app two_lists io_200 = None.
Proof.
  destruct (app_calls (App_new true)
              [CallInit init_no_material; CallPollEvents []; CallEndUiFrame no_lists io_200])
    as [app|] eqn:Hrun; [|vm_compute in Hrun; discriminate Hrun].
  assert (Hcmds : all_cmds (CmdLists two_lists) <> []) by discriminate.
  assert (Hz : display_is_zero io_200 = false) by (vm_compute; reflexivity).
  exists app. split; [auto 10|].
  exact (proj2 (unbuilt_material_breaks_first_draw init_no_material _ app two_lists io_200
                  eq_refl eq_refl eq_refl Hrun eq_refl Hcmds Hz)).
Defined.

(** * Buffer capacities: the high-water mark *)

Lemma rebuilt_buffer_high_water buffer total :
  0 <= total < 2 ^ 31 ->
  (exists count, rebuilt_buffer buffer total = Some count /\ total <= count) /\
  capacity (rebuilt_buffer buffer total) = Z.max (capacity buffer) total /\
  (buffer = None \/ capacity buffer < total ->
   rebuilt_buffer buffer total = Some total /\ rebuild_needed buffer total = true).
Proof.
  intros Ht. unfold rebuilt_buffer, rebuild_needed, capacity.
  rewrite (to_size_t_count total Ht).
  destruct buffer as [count|]; [destruct (Z.ltb_spec count total)|]; cbn.
  - split; [exists total; split; [reflexivity|lia]|]. split; [lia|]. auto.
  - split; [exists count; split; [reflexivity|lia]|]. split; [lia|].
    intros [Hnone|Hlt]; [discriminate Hnone|lia].
  - split; [exists total; split; [reflexivity|lia]|]. split; [lia|]. auto.
Qed.

Lemma UpdateView_engine ui commands io ui' calls :
  UpdateView ui commands io = Some (ui', calls) -> engine_ ui' = engine_ ui.
Proof.
  intros Hrun. destruct (draws ui commands io) eqn:Hd.
  - by destruct (UpdateView_draws ui commands io ui' calls Hd Hrun)
      as (lists & pool & created & f & _ & _ & _ & -> & _).
  - rewrite (UpdateView_skips ui commands io Hd) in Hrun. by injection Hrun as <- _.
Qed.

Lemma high_water_engine demand ui ui' frames : forall capacity,
  engine_ ui' = engine_ ui ->
  high_water demand ui' capacity frames = high_water demand ui capacity frames.
Proof.
  induction frames as [|[commands io] frames IH]; intros capacity He; [reflexivity|].
  cbn [high_water]. unfold draws. rewrite He. by apply IH.
Qed.

(** What a frame that is drawn does to the two buffers. *)
Lemma UpdateView_drawn_buffers ui commands io ui' calls :
  counts_typed commands ->
  UpdateView ui commands io = Some (ui', calls) ->
  draws ui commands io = true ->
  (exists count, vertex_buffer_ ui' = Some count /\ TotalVtxCount commands <= count) /\
  (exists count, index_buffer_ ui' = Some count /\ TotalIdxCount commands <= count) /\
  capacity (vertex_buffer_ ui') =
    Z.max (capacity (vertex_buffer_ ui)) (TotalVtxCount commands) /\
  capacity (index_buffer_ ui') =
    Z.max (capacity (index_buffer_ ui)) (TotalIdxCount commands) /\
  (vertex_buffer_ ui = None \/ capacity (vertex_buffer_ ui) < TotalVtxCount commands ->
   vertex_buffer_ ui' = Some (TotalVtxCount commands) /\
   filter is_vertex_buffer_call calls =
     [destroyVertexBuffer (vertex_buffer_ ui);
      createVertexBuffer (TotalVtxCount commands)]) /\
  (index_buffer_ ui = None \/ capacity (index_buffer_ ui) < TotalIdxCount commands ->
   index_buffer_ ui' = Some (TotalIdxCount commands) /\
   filter is_index_buffer_call calls =
     [destroyIndexBuffer (index_buffer_ ui);
      createIndexBuffer (TotalIdxCount commands)]).
Proof.
  intros [Hv Hi] Hrun Hd. apply draws_true in Hd. destruct Hd as (He & Hz & Hn).
  destruct (UpdateView_frame_buffers ui commands io ui' calls He Hz Hn Hrun)
    as (-> & -> & -> & ->).
  destruct (rebuilt_buffer_high_water (vertex_buffer_ ui) _ Hv) as (Hvc & Hvm & Hvr).
  destruct (rebuilt_buffer_high_water (index_buffer_ ui) _ Hi) as (Hic & Him & Hir).
  split; [exact Hvc|]. split; [exact Hic|]. split; [exact Hvm|]. split; [exact Him|].
  unfold vertex_buffer_calls, index_buffer_calls. split.
  - intros Hwhy. destruct (Hvr Hwhy) as [-> ->].
    by rewrite (to_size_t_count _ Hv).
  - intros Hwhy. destruct (Hir Hwhy) as [-> ->].
    by rewrite (to_size_t_count _ Hi).
Qed.

Lemma UpdateView_not_drawn ui commands io ui' calls :
  UpdateView ui commands io = Some (ui', calls) ->
  draws ui commands io = false -> ui' = ui /\ quiet calls.
Proof.
  intros Hrun Hd. rewrite (UpdateView_skips ui commands io Hd) in Hrun.
  injection Hrun as <- <-. split; [reflexivity|].
  destruct (engine_ ui && negb (display_is_zero io)); [apply quiet_prologue|apply quiet_nil].
Qed.

(** C7.  In every call of [UpdateView] that returns, each of the two buffers
    is either left as it is, with no call that destroys or creates one, or
    replaced by a buffer of exactly the frame's total count, and this only
    when no buffer exists yet or the total strictly exceeds the capacity of
    the one that does.  So the capacity of a buffer never decreases, in one
    call and across every sequence of calls; and a frame with zero command
    lists leaves the whole [Ui] as it is and makes no call that destroys or
    creates a buffer.  Conversely a frame that is drawn does replace a buffer
    that is missing or too small: it leaves each buffer in place and at least
    as large as the frame's total, its capacity being the larger of the old
    capacity and that total; a frame that is not drawn changes nothing.  So
    after any sequence of frames the capacity is the high-water mark of the
    totals of the frames drawn.  And every sequence of consistent frames does
    return, from a [Ui] with a material whose snapshots have the sizes of its
    buffers. *)
Theorem buffer_capacity_only_grows :
  (forall ui commands io ui' calls,
      counts_typed commands ->
      UpdateView ui commands io = Some (ui', calls) ->
      ((vertex_buffer_ ui' = vertex_buffer_ ui /\ filter is_vertex_buffer_call calls = []) \/
       (vertex_buffer_ ui' = Some (TotalVtxCount commands) /\
        filter is_vertex_buffer_call calls =
          [destroyVertexBuffer (vertex_buffer_ ui);
           createVertexBuffer (TotalVtxCount commands)] /\
        (vertex_buffer_ ui = None \/
         capacity (vertex_buffer_ ui) < TotalVtxCount commands))) /\
      ((index_buffer_ ui' = index_buffer_ ui /\ filter is_index_buffer_call calls = []) \/
       (index_buffer_ ui' = Some (TotalIdxCount commands) /\
        filter is_index_buffer_call calls =
          [destroyIndexBuffer (index_buffer_ ui);
           createIndexBuffer (TotalIdxCount commands)] /\
        (index_buffer_ ui = None \/
         capacity (index_buffer_ ui) < TotalIdxCount commands))) /\
      capacity (vertex_buffer_ ui) <= capacity (vertex_buffer_ ui') /\
      capacity (index_buffer_ ui) <= capacity (index_buffer_ ui') /\
      (CmdListsCount commands = 0 -> ui' = ui /\ quiet calls)) /\
  (forall frames ui ui' calls,
      Forall (fun frame => counts_typed frame.1) frames ->
      UpdateViews ui frames = Some (ui', calls) ->
      capacity (vertex_buffer_ ui) <= capacity (vertex_buffer_ ui') /\
      capacity (index_buffer_ ui) <= capacity (index_buffer_ ui')) /\
  (forall ui commands io ui' calls,
      counts_typed commands ->
      UpdateView ui commands io = Some (ui', calls) ->
      draws ui commands io = true ->
      (exists count, vertex_buffer_ ui' = Some count /\ TotalVtxCount commands <= count) /\
      (exists count, index_buffer_ ui' = Some count /\ TotalIdxCount commands <= count) /\
      capacity (vertex_buffer_ ui') =
        Z.max (capacity (vertex_buffer_ ui)) (TotalVtxCount commands) /\
      capacity (index_buffer_ ui') =
        Z.max (capacity (index_buffer_ ui)) (TotalIdxCount commands) /\
      (vertex_buffer_ ui = None \/ capacity (vertex_buffer_ ui) < TotalVtxCount commands ->
       vertex_buffer_ ui' = Some (TotalVtxCount commands) /\
       filter is_vertex_buffer_call calls =
         [destroyVertexBuffer (vertex_buffer_ ui);
          createVertexBuffer (TotalVtxCount commands)]) /\
      (index_buffer_ ui = None \/ capacity (index_buffer_ ui) < TotalIdxCount commands ->
       index_buffer_ ui' = Some (TotalIdxCount commands) /\
       filter is_index_buffer_call calls =
         [destroyIndexBuffer (index_buffer_ ui);
          createIndexBuffer (TotalIdxCount commands)])) /\
  (forall ui commands io ui' calls,
      UpdateView ui commands io = Some (ui', calls) ->
      draws ui commands io = false -> ui' = ui /\ quiet calls) /\
  (forall frames ui ui' calls,
      Forall (fun frame => counts_typed frame.1) frames ->
      UpdateViews ui frames = Some (ui', calls) ->
      capacity (vertex_buffer_ ui') =
        high_water TotalVtxCount ui (capacity (vertex_buffer_ ui)) frames /\
      capacity (index_buffer_ ui') =
        high_water TotalIdxCount ui (capacity (index_buffer_ ui)) frames) /\
  (forall frames ui,
      material_ ui = true -> Ui_inv ui ->
      Forall (fun frame => ImDrawData_wf frame.1) frames ->
      exists ui' calls, UpdateViews ui frames = Some (ui', calls)).
Proof.
  split; [exact UpdateView_buffers|].
  split.
  { induction frames as [|[commands io] rest IH]; intros ui ui' calls Hty Hrun.
    - injection Hrun as <- <-. lia.
    - cbn [UpdateViews] in Hrun. apply Forall_cons in Hty as [Hc Hrest].
      destruct (UpdateView ui commands io) as [[ui1 calls1]|] eqn:H1; [|discriminate].
      destruct (UpdateViews ui1 rest) as [[ui2 calls2]|] eqn:H2; [|discriminate].
      injection Hrun as <- <-.
      destruct (UpdateView_buffers _ _ _ _ _ Hc H1) as (_ & _ & Hv & Hi & _).
      destruct (IH _ _ _ Hrest H2) as [Hv' Hi']. lia. }
  split; [exact UpdateView_drawn_buffers|].
  split; [exact UpdateView_not_drawn|].
  split.
  { induction frames as [|[commands io] rest IH]; intros ui ui' calls Hty Hrun.
    - by injection Hrun as <- <-.
    - cbn [UpdateViews] in Hrun. apply Forall_cons in Hty as [Hc Hrest].
      destruct (UpdateView ui commands io) as [[ui1 calls1]|] eqn:H1; [|discriminate].
      destruct (UpdateViews ui1 rest) as [[ui2 calls2]|] eqn:H2; [|discriminate].
      injection Hrun as <- <-.
      destruct (IH _ _ _ Hrest H2) as [Hv Hi]. rewrite Hv, Hi.
      rewrite !(high_water_engine _ ui ui1) by (by apply (UpdateView_engine ui commands io _ calls1)).
      cbn [high_water]. destruct (draws ui commands io) eqn:Hd.
      + destruct (UpdateView_drawn_buffers _ _ _ _ _ Hc H1 Hd) as (_ & _ & -> & -> & _).
        split; reflexivity.
      + destruct (UpdateView_not_drawn _ _ _ _ _ H1 Hd) as [-> _]. split; reflexivity. }
  induction frames as [|[commands io] frames IH]; intros ui Hm Hinv Hwf.
  - by exists ui, [].
  - apply Forall_cons in Hwf. destruct Hwf as [Hwf1 Hwf].
    destruct (UpdateView_wf_returns ui commands io Hm Hinv Hwf1)
      as (ui1 & calls1 & H1 & He1 & Hm1).
    destruct (UpdateView_gpu _ _ _ _ _ Hinv H1) as [_ Hinv1].
    destruct (IH ui1 Hm1 Hinv1 Hwf) as (ui2 & calls2 & H2).
    exists ui2, (calls1 ++ calls2). by rewrite UpdateViews_cons, H1, H2.
Qed.

Lemma buffer_capacity_only_grows_witness :
  let small := frame_of [triangle] in
  exists ui1 calls1 ui2 calls2 ui3 calls3 ui4 calls4,
    (counts_typed small /\ counts_typed two_lists /\ counts_typed no_lists /\
     UpdateView ui_ready small io_200 = Some (ui1, calls1) /\
     UpdateView ui1 two_lists io_200 = Some (ui2, calls2) /\
     UpdateView ui2 no_lists io_200 = Some (ui3, calls3) /\
     UpdateView ui3 small io_200 = Some (ui4, calls4) /\
     UpdateViews ui_ready
       [(small, io_200); (two_lists, io_200); (no_lists, io_200); (small, io_200)] =
       Some (ui4, calls1 ++ calls2 ++ calls3 ++ calls4)) /\
    (vertex_buffer_ ui1 = Some 3 /\ index_buffer_ ui1 = Some 3 /\
     filter is_vertex_buffer_call calls1 = [destroyVertexBuffer None; createVertexBuffer 3]) /\
    (vertex_buffer_ ui2 = Some 7 /\ index_buffer_ ui2 = Some 9 /\
     filter is_vertex_buffer_call calls2 =
       [destroyVertexBuffer (Some 3); createVertexBuffer 7] /\
     filter is_index_buffer_call calls2 =
       [destroyIndexBuffer (Some 3); createIndexBuffer 9]) /\
    (ui3 = ui2 /\ quiet calls3) /\
    (vertex_buffer_ ui4 = Some 7 /\ index_buffer_ ui4 = Some 9 /\
     filter is_vertex_buffer_call calls4 = [] /\ filter is_index_buffer_call calls4 = []) /\
    (capacity (vertex_buffer_ ui4) = 7 /\ capacity (index_buffer_ ui4) = 9).
Proof.
  cbv zeta.
  assert (Ht1 : counts_typed (frame_of [triangle])) by (repeat split; discriminate).
  assert (Ht2 : counts_typed two_lists) by (repeat split; discriminate).
  assert (Ht0 : counts_typed no_lists) by (repeat split; discriminate).
  destruct buffer_capacity_only_grows as (Hcall & _ & Hdrawn & Hskip & Hmark & _).
  destruct (UpdateView ui_ready (frame_of [triangle]) io_200) as [[ui1 calls1]|] eqn:H1;
    [|vm_compute in H1; discriminate H1].
  assert (Hd1 : draws ui_ready (frame_of [triangle]) io_200 = true)
    by (vm_compute; reflexivity).
  destruct (Hdrawn _ _ _ _ _ Ht1 H1 Hd1) as (_ & _ & _ & _ & Hv1 & Hi1).
  destruct (Hv1 (or_introl eq_refl)) as [Ev1 Ec1].
  destruct (Hi1 (or_introl eq_refl)) as [Ei1 _].
  assert (He1 : engine_ ui1 = true).
  { vm_compute in H1. injection H1 as <- _. reflexivity. }
  destruct (UpdateView ui1 two_lists io_200) as [[ui2 calls2]|] eqn:H2.
  2:{ vm_compute in H1. injection H1 as <- _. vm_compute in H2. discriminate H2. }
  assert (Hd2 : draws ui1 two_lists io_200 = true).
  { unfold draws. rewrite He1. vm_compute. reflexivity. }
  destruct (Hdrawn _ _ _ _ _ Ht2 H2 Hd2) as (_ & _ & _ & _ & Hv2 & Hi2).
  destruct Hv2 as [Ev2 Ec2]; [right; rewrite Ev1; vm_compute; reflexivity|].
  destruct Hi2 as [Ei2 Eci2]; [right; rewrite Ei1; vm_compute; reflexivity|].
  rewrite Ev1 in Ec2. rewrite Ei1 in Eci2.
  destruct (UpdateView ui2 no_lists io_200) as [[ui3 calls3]|] eqn:H3.
  2:{ destruct (UpdateView_returns_early ui2 no_lists io_200) as (c & E & _);
        [right; right; reflexivity|]. rewrite E in H3. discriminate H3. }
  destruct (Hskip _ _ _ _ _ H3) as [E3 Hq3].
  { unfold draws. cbn. by rewrite !andb_false_r. }
  subst ui3.
  destruct (UpdateView ui2 (frame_of [triangle]) io_200) as [[ui4 calls4]|] eqn:H4.
  2:{ vm_compute in H1. injection H1 as <- _. vm_compute in H2. injection H2 as <- _.
      vm_compute in H4. discriminate H4. }
  destruct (Hcall _ _ _ _ _ Ht1 H4) as (Hv4 & Hi4 & _).
  assert (Ev4 : vertex_buffer_ ui4 = vertex_buffer_ ui2 /\
                filter is_vertex_buffer_call calls4 = []).
  { destruct Hv4 as [Hsame|(_ & _ & [Hnone|Hlt])]; [exact Hsame| |].
    - rewrite Ev2 in Hnone. discriminate Hnone.
    - rewrite Ev2 in Hlt. vm_compute in Hlt. discriminate Hlt. }
  assert (Ei4 : index_buffer_ ui4 = index_buffer_ ui2 /\
                filter is_index_buffer_call calls4 = []).
  { destruct Hi4 as [Hsame|(_ & _ & [Hnone|Hlt])]; [exact Hsame| |].
    - rewrite Ei2 in Hnone. discriminate Hnone.
    - rewrite Ei2 in Hlt. vm_compute in Hlt. discriminate Hlt. }
  destruct Ev4 as [Ev4 Ec4]. destruct Ei4 as [Ei4 Eci4].
  assert (Hseq : UpdateViews ui_ready
            [(frame_of [triangle], io_200); (two_lists, io_200); (no_lists, io_200);
             (frame_of [triangle], io_200)] =
            Some (ui4, calls1 ++ calls2 ++ calls3 ++ calls4)).
  { cbn [UpdateViews]. rewrite H1, H2, H3, H4. by rewrite app_nil_r. }
  assert (Hty : Forall (fun frame => counts_typed frame.1)
            [(frame_of [triangle], io_200); (two_lists, io_200); (no_lists, io_200);
             (frame_of [triangle], io_200)]).
  { repeat first [apply Forall_nil_2 | apply Forall_cons_2]; assumption. }
  destruct (Hmark _ _ _ _ Hty Hseq) as [Hmv Hmi].
  exists ui1, calls1, ui2, calls2, ui2, calls3, ui4, calls4.
  split; [auto 10|].
  split; [split; [exact Ev1|split; [exact Ei1|exact Ec1]]|].
  split; [split; [exact Ev2|split; [exact Ei2|split; [exact Ec2|exact Eci2]]]|].
  split; [split; [reflexivity|exact Hq3]|].
  split; [rewrite Ev4, Ei4, Ev2, Ei2; auto|].
  rewrite Hmv, Hmi. split; vm_compute; reflexivity.
Defined.
